(** * NYC 311 service requests: paginated fetch and cleaning pipeline

    A shallow embedding of [src/nyc311_api.py] and [src/nyc311_cleaning.py]
    together with the properties their specification states about them.

    - [Py]       values, rows, data frames and Python's exceptions;
    - [Api]      [_build_params], [_fetch_page], [fetch_nyc311_data];
    - [Str]      the string methods the cleaning module calls;
    - [Cleaning] the seven cleaning stages and [clean_nyc311_data];
    - [Vocabulary] what the properties are stated with;
    - [ApiSpec], [CleaningSpec] the theorems of the specification;
    - [ApiExtra], [CleaningExtra] further properties of the code.

    Conventions.  Python integers are [Z].  Floating point columns
    ([response_time_days], the percentile) are rationals [Q]: the properties
    below only involve order, [min] and exact arithmetic on them.  A Python
    string is the [string] of its UTF-8 bytes; [str.upper] and [str.strip],
    which know all of Unicode, are parameters of the cleaning module
    ([Str.Methods]).  A column is the list of its cells: pandas' dtype is
    not modelled, and a column without a present cell is taken to be of the
    dtype the driver hands the stage (object for the channel, datetime for
    the dates).  [print] calls are not modelled, they influence neither
    control flow nor results. *)

From stdpp Require Import gmap strings list pretty sorting numbers.
From Stdlib Require Import Ascii QArith Qround Lqa.

Local Open Scope Z_scope.

(** ** Python values and pandas frames *)
Module Py.

(** What [session.get] of the requests library can raise once the
    transport layer has given up.  [ConnectTimeout] is a subclass of
    [ConnectionError]; [RetryError] is what exhausted transport retries on
    a status of the force list end in. *)
Inductive request_exn :=
| ReadTimeout
| ConnectTimeout
| ConnectionError
| RetryError.

(** Exceptions the two modules raise or let through.  [JSONDecodeError] is
    that of the requests library, raised by [response.json()] on a body that
    is not JSON; it is kept apart from the [ValueError] of the argument
    check, although Python derives it from that class too. *)
Inductive exn :=
| ValueError (msg : string)
| KeyError (label : string)
| TypeError
| AttributeError
| HTTPError (status : Z)
| JSONDecodeError
| RequestException (e : request_exn).

Inductive result (A : Type) :=
| Ok (a : A)
| Raise (e : exn).
Arguments Ok {A} a.
Arguments Raise {A} e.

#[export] Instance result_ret : MRet result := λ A a, Ok a.
#[export] Instance result_bind : MBind result := λ A B k m,
  match m with
  | Ok a => k a
  | Raise e => Raise e
  end.

#[export] Instance result_fmap : FMap result := λ A B f m,
  match m with
  | Ok a => Ok (f a)
  | Raise e => Raise e
  end.

Definition is_Ok {A} (m : result A) : bool :=
  match m with Ok _ => true | Raise _ => false end.

(** A cell: JSON null / NaN / NaT, a string, a timestamp (nanoseconds since
    the epoch, as pandas stores it) or a number. *)
Inductive value :=
| VNull
| VStr (s : string)
| VTime (ns : Z)
| VNum (q : Q).

(** Equality as pandas' hashing sees it in [drop_duplicates], [isin] and
    [value_counts]: nulls are equal to each other, numbers by value. *)
Definition value_eqb (a b : value) : bool :=
  match a, b with
  | VNull, VNull => true
  | VStr s, VStr t => bool_decide (s = t)
  | VTime s, VTime t => s =? t
  | VNum p, VNum q => Qeq_bool p q
  | _, _ => false
  end.

Definition notna (v : value) : bool :=
  match v with VNull => false | _ => true end.

(** A row is a mapping from field name to value (a JSON object). *)
Abbreviation row := (gmap string value).

(** A missing key reads as null, as [DataFrame.from_records] fills it. *)
Definition cell (c : string) (r : row) : value := default VNull (r !! c).

(** A frame: its column labels, and its rows in order, each with its index
    label.  The order of the columns is not modelled. *)
Record DataFrame := mkDataFrame {
  columns : gset string;
  rows : list (Z * row)
}.

Definition index (df : DataFrame) : list Z := (rows df).*1.
Definition nrows (df : DataFrame) : nat := length (rows df).

(** A row of the output next to the row of the input it comes from: the
    index label is the same, and [R] relates the contents. *)
Definition row_kept (R : row → row → Prop) (ir ir' : Z * row) : Prop :=
  ir'.1 = ir.1 ∧ R ir.2 ir'.2.

(** The rows of [df'] are rows of [df] in the order they have there: some
    rows of [df], taken in the order of [df], and the rows of [df']
    correspond one by one. *)
Definition order_kept (R : row → row → Prop) (df df' : DataFrame) : Prop :=
  ∃ kept, kept `sublist_of` rows df ∧ Forall2 (row_kept R) kept (rows df').

(** [df[c]]: the column as a list of cells, [KeyError] when absent. *)
Definition get_col (c : string) (df : DataFrame) : result (list value) :=
  if decide (c ∈ columns df) then Ok (cell c ∘ snd <$> rows df)
  else Raise (KeyError c).

(** [df[c] = values] for a list of values aligned with the rows. *)
Definition set_col (c : string) (vs : list value) (df : DataFrame) : DataFrame :=
  {| columns := {[c]} ∪ columns df;
     rows := zip_with (λ ir v, (ir.1, <[c:=v]> ir.2)) (rows df) vs |}.

(** [df[mask]] for a boolean mask aligned with the rows. *)
Fixpoint mask_rows (rs : list (Z * row)) (mask : list bool) : list (Z * row) :=
  match rs, mask with
  | r :: rs', b :: mask' =>
      if b then r :: mask_rows rs' mask' else mask_rows rs' mask'
  | _, _ => []
  end.

Definition select (mask : list bool) (df : DataFrame) : DataFrame :=
  {| columns := columns df; rows := mask_rows (rows df) mask |}.

(** [pd.DataFrame.from_records(records)]: a fresh range index and the union
    of the keys as columns. *)
Definition from_records (records : list row) : DataFrame :=
  {| columns := ⋃ (dom <$> records);
     rows := imap (λ i r, (Z.of_nat i, r)) records |}.

End Py.

Export Py.

(** ** src/nyc311_api.py *)
Module Api.

Definition DATASET_ID : string := "erm2-nwe9".
Definition BASE_URL : string :=
  "https://data.cityofnewyork.us/resource/" +:+ DATASET_ID +:+ ".json".
Definition DEFAULT_LIMIT : Z := 25000.
Definition MAX_LIMIT : Z := 50000.
Definition REQUEST_TIMEOUT : Z := 120.
Definition MAX_RETRIES : Z := 3.
Definition RETRY_DELAY : Z := 2.

(** The statuses the transport layer retries by itself
    ([Retry(status_forcelist=...)] in [fetch_nyc311_data]). *)
Definition status_forcelist : list Z := [429; 500; 502; 503; 504].

Inductive param :=
| PInt (n : Z)
| PStr (s : string).

(** What [session.get] is called with. *)
Record request := mkRequest {
  url : string;
  params : gmap string param;
  headers : gmap string string;
  timeout : Z
}.

(** What [session.get] comes back with, after the transport layer is done:
    a response with its status and the rows its body decodes to, a response
    whose body is not JSON, or an exception. *)
Inductive get_outcome :=
| GetResponse (status : Z) (body : list row)
| GetNotJSON (status : Z)
| GetRaises (e : request_exn).

(** The observable effects of a fetch: the requests sent, the waits of
    [time.sleep], both in chronological order, and whether the session has
    been closed. *)
Record world := mkWorld {
  calls : list request;
  sleeps : list Z;
  session_closed : bool
}.

Definition init_world : world :=
  {| calls := []; sleeps := []; session_closed := false |}.

Definition log_call (rq : request) (w : world) : world :=
  {| calls := calls w ++ [rq]; sleeps := sleeps w;
     session_closed := session_closed w |}.

Definition time_sleep (secs : Z) (w : world) : world :=
  {| calls := calls w; sleeps := sleeps w ++ [secs];
     session_closed := session_closed w |}.

Definition session_close (w : world) : world :=
  {| calls := calls w; sleeps := sleeps w; session_closed := true |}.

(** [f"{year}-01-01T00:00:00"] and the rest of the query. *)
Definition _build_params (year limit offset : Z) : gmap string param :=
  let start := pretty year +:+ "-01-01T00:00:00" in
  let end_ := pretty year +:+ "-12-31T23:59:59" in
  let where_clause :=
    "created_date between '" +:+ start +:+ "' and '" +:+ end_ +:+ "'" in
  <["$limit" := PInt limit]>
    (<["$offset" := PInt offset]>
      (<["$order" := PStr "created_date"]>
        (<["$where" := PStr where_clause]> ∅))).

(** [response.raise_for_status()] of the requests library: an [HTTPError]
    for the 4xx and 5xx statuses. *)
Definition raise_for_status (status : Z) : result () :=
  if (400 <=? status) && (status <? 600) then Raise (HTTPError status)
  else Ok ().

(** The [except (ReadTimeout, ConnectionError)] clause of [_fetch_page]. *)
Definition caught_by_retry (e : exn) : bool :=
  match e with
  | RequestException (ReadTimeout | ConnectionError | ConnectTimeout) => true
  | _ => false
  end.

(** [response.raise_for_status(); return response.json()] on what
    [session.get] came back with. *)
Definition response_json (o : get_outcome) : result (list row) :=
  match o with
  | GetRaises e => Raise (RequestException e)
  | GetResponse status body => raise_for_status status ;; Ok body
  | GetNotJSON status => raise_for_status status ;; Raise JSONDecodeError
  end.

(** Whether the [except] clause of [_fetch_page] takes the outcome. *)
Definition retryable (r : result (list row)) : bool :=
  match r with
  | Raise e => caught_by_retry e
  | Ok _ => false
  end.

(** The wait after the failed attempt number [attempt], counted from 0. *)
Definition backoff (attempt : nat) : Z := RETRY_DELAY * 2 ^ Z.of_nat attempt.

Definition log_calls (rqs : list request) (w : world) : world :=
  {| calls := calls w ++ rqs; sleeps := sleeps w;
     session_closed := session_closed w |}.

Section Source.

(** The remote source (or a mock of it): what the [n]-th request of the
    session, counted from 0, comes back with. *)
Variable server : nat → request → get_outcome.

Definition session_get (rq : request) (w : world) : get_outcome * world :=
  (server (length (calls w)) rq, log_call rq w).

(** The body of the [try] in [_fetch_page]. *)
Definition try_get (rq : request) (w : world) : result (list row) * world :=
  let '(o, w1) := session_get rq w in (response_json o, w1).

(** [for attempt in attempts: ...]; a loop that runs to its end returns
    Python's [None]. *)
Fixpoint fetch_page_loop (attempts : list Z) (rq : request) (w : world)
  : result (option (list row)) * world :=
  match attempts with
  | [] => (Ok None, w)
  | attempt :: rest =>
      match try_get rq w with
      | (Ok body, w1) => (Ok (Some body), w1)
      | (Raise e, w1) =>
          if caught_by_retry e then
            if attempt <? MAX_RETRIES - 1 then
              let wait_time := RETRY_DELAY * 2 ^ attempt in
              fetch_page_loop rest rq (time_sleep wait_time w1)
            else (Raise e, w1)
          else (Raise e, w1)
      end
  end.

Definition _fetch_page (rq : request) (w : world)
  : result (option (list row)) * world :=
  fetch_page_loop (Z.of_nat <$> seq 0 (Z.to_nat MAX_RETRIES)) rq w.

Definition page_request (headers : gmap string string)
    (year limit offset : Z) : request :=
  {| url := BASE_URL; params := _build_params year limit offset;
     headers := headers; timeout := REQUEST_TIMEOUT |}.

(** The requests for [n] consecutive pages starting at offset [base]. *)
Definition page_requests (headers : gmap string string)
    (year limit base : Z) (n : nat) : list request :=
  (λ i, page_request headers year limit (base + Z.of_nat i * limit))
    <$> seq 0 n.

(** [not rows] *)
Definition falsy (rows : option (list row)) : bool :=
  match rows with
  | None | Some [] => true
  | Some (_ :: _) => false
  end.

(** The [while True] loop; [None] when [fuel] iterations were not enough
    to leave it. *)
Fixpoint fetch_loop (fuel : nat) (headers : gmap string string)
    (year limit : Z) (records : list row) (offset page_count : Z)
    (w : world) : option (result (list row) * world) :=
  match fuel with
  | O => None
  | S fuel' =>
      let page_count := page_count + 1 in
      let rq := page_request headers year limit offset in
      match _fetch_page rq w with
      | (Raise e, w1) => Some (Raise e, w1)
      | (Ok rows, w1) =>
          if falsy rows then Some (Ok records, w1)
          else
            let rows := default [] rows in
            let records := records ++ rows in
            let offset := offset + limit in
            if Z.of_nat (length rows) <? limit then Some (Ok records, w1)
            else fetch_loop fuel' headers year limit records offset
                   page_count w1
      end
  end.

(** [if app_token: headers["X-App-Token"] = app_token] *)
Definition make_headers (app_token : option string) : gmap string string :=
  match app_token with
  | None | Some "" => ∅
  | Some tok => {["X-App-Token" := tok]}
  end.

Definition fetch_nyc311_data (fuel : nat) (app_token : option string)
    (limit year : Z) (w : world) : option (result DataFrame * world) :=
  if (limit <=? 0) || (MAX_LIMIT <? limit) then
    Some (Raise (ValueError
            ("Limit must be between 1 and " +:+ pretty MAX_LIMIT +:+ ".")), w)
  else
    let headers := make_headers app_token in
    match fetch_loop fuel headers year limit [] 0 0 w with
    | None => None
    | Some (r, w1) =>
        (* finally: session.close() *)
        let w2 := session_close w1 in
        Some (from_records <$> r, w2)
    end.

End Source.

End Api.

(** ** Strings and sorting, as the cleaning module uses them *)
Module Str.

Definition to_list (s : string) : list ascii :=
  Strings.String.list_ascii_of_string s.
Definition of_list (l : list ascii) : string :=
  Strings.String.string_of_list_ascii l.

(** [s.upper()] and [s.strip()].  Both are Python's and follow the Unicode
    tables: [strip] also removes the no-break space and the other Unicode
    blanks, [upper] also maps dotless i to [I] and the ligature fi to [FI].
    The cleaning module is modelled over any two functions in their place,
    and nothing is assumed about them. *)
Class Methods := {
  upper : string → string;
  strip : string → string
}.

(** What the two do on strings of ASCII characters; the sample tables only
    hold such strings. *)
Definition upper_char (a : ascii) : ascii :=
  let n := nat_of_ascii a in
  if (97 <=? n)%nat && (n <=? 122)%nat then ascii_of_nat (n - 32) else a.

Definition ascii_upper (s : string) : string :=
  of_list (upper_char <$> to_list s).

(** [ch.isspace()] on ASCII: tab to carriage return, the four separators
    and the space. *)
Definition isspace (a : ascii) : bool :=
  let n := nat_of_ascii a in
  ((9 <=? n)%nat && (n <=? 13)%nat) || ((28 <=? n)%nat && (n <=? 32)%nat).

Fixpoint lstrip_list (l : list ascii) : list ascii :=
  match l with
  | a :: l' => if isspace a then lstrip_list l' else l
  | [] => []
  end.

Definition ascii_strip (s : string) : string :=
  of_list (reverse (lstrip_list (reverse (lstrip_list (to_list s))))).

Definition ascii_methods : Methods :=
  {| upper := ascii_upper; strip := ascii_strip |}.

End Str.

Module Sorting.

(** A stable insertion sort: [le x y] says that [x] may stand before [y]. *)
Fixpoint insert_by {A} (le : A → A → bool) (x : A) (l : list A) : list A :=
  match l with
  | [] => [x]
  | y :: l' => if le x y then x :: l else y :: insert_by le x l'
  end.

Definition sort_by {A} (le : A → A → bool) (l : list A) : list A :=
  foldr (insert_by le) [] l.

End Sorting.

(** ** src/nyc311_cleaning.py *)
Module Cleaning.

Definition REQUIRED_COLUMNS : list string :=
  ["created_date"; "closed_date"; "complaint_type"; "borough";
   "open_data_channel_type"; "unique_key"].

(** [df[c] = f(df[c])] for an elementwise [f]. *)
Definition update_col (c : string) (f : value → value) (df : DataFrame)
  : result DataFrame :=
  col ← get_col c df; mret (set_col c (f <$> col) df).

(** *** Stage 1 *)
Section Stage1.

(** [pd.to_datetime(_, errors="coerce")] on one cell: a pandas function,
    taken as a parameter.  [iso_to_datetime] below is an instance. *)
Variable to_datetime : value → value.

Definition convert_dates_to_datetime (df : DataFrame) : result DataFrame :=
  df ← update_col "created_date" to_datetime df;
  update_col "closed_date" to_datetime df.

End Stage1.

(** *** Stage 2 *)

(** [(closed - created).total_seconds() / (24 * 3600)] on one pair of
    cells of the datetime columns stage 1 returns: [NaT] gives [NaN].  On
    columns of another dtype pandas raises; which exception depends on the
    dtype, for the strings of the raw table it is a type error, and that
    one stands here for all of them. *)
Definition response_days (closed created : value) : result value :=
  match closed, created with
  | VTime c, VTime o =>
      Ok (VNum (inject_Z (c - o) / inject_Z 1000000000 / inject_Z (24 * 3600)))
  | VNull, VNull | VNull, VTime _ | VTime _, VNull => Ok VNull
  | _, _ => Raise TypeError
  end.

Definition compute_response_time (df : DataFrame) : result DataFrame :=
  closed ← get_col "closed_date" df;
  created ← get_col "created_date" df;
  days ← mapM (λ p, response_days p.1 p.2) (zip closed created);
  mret (set_col "response_time_days" days df).

(** *** Stage 3 *)

(** [df = df[df[c].notna()]] *)
Definition keep_notna (c : string) (df : DataFrame) : result DataFrame :=
  col ← get_col c df; mret (select (notna <$> col) df).

(** One cell of [df["response_time_days"] > 0]: a comparison with [NaN] is
    false, one with a string or a timestamp is a type error. *)
Definition gt_zero (v : value) : result bool :=
  match v with
  | VNum q => Ok (negb (Qle_bool q 0))
  | VNull => Ok false
  | _ => Raise TypeError
  end.

Definition filter_invalid_rows (df : DataFrame)
    (require_created_date require_closed_date require_borough : bool)
  : result DataFrame :=
  df ← (if require_created_date then keep_notna "created_date" df else Ok df);
  df ← (if require_closed_date then keep_notna "closed_date" df else Ok df);
  df ← (if require_borough then keep_notna "borough" df else Ok df);
  if decide ("response_time_days" ∈ columns df) then
    col ← get_col "response_time_days" df;
    mask ← mapM gt_zero col;
    mret (select mask df)
  else Ok df.

(** *** Stage 4 *)

Definition channel_mapping : gmap string string :=
  list_to_map
    [("PHONE", "Phone"); ("ONLINE", "Web"); ("UNKNOWN", "Web");
     ("MOBILE", "App"); ("OTHER", "Web")].

Definition is_str (v : value) : bool :=
  match v with VStr _ => true | _ => false end.
Definition is_num (v : value) : bool :=
  match v with VNum _ => true | _ => false end.
Definition is_time (v : value) : bool :=
  match v with VTime _ => true | _ => false end.

(** [col.str]: pandas looks at the present cells and refuses a column of
    numbers only or of timestamps only with an [AttributeError].  It takes
    a column with a string, a column that mixes numbers and timestamps, and
    a column without a present cell. *)
Definition str_accessor (col : list value) : result () :=
  if existsb is_str col then Ok ()
  else if existsb is_num col && existsb is_time col then Ok ()
  else if existsb notna col then Raise AttributeError
  else Ok ().

(** [col.str.f()] for a string method [f]: cells that are not strings
    become [NaN]. *)
Definition str_method (f : string → string) (col : list value)
  : result (list value) :=
  str_accessor col ;;
  mret ((λ v, match v with VStr s => VStr (f s) | _ => VNull end) <$> col).

(** [.map(mapping)]: [NaN] where the mapping has no entry. *)
Definition map_dict (mapping : gmap string string) (v : value) : value :=
  match v with
  | VStr s => from_option VStr VNull (mapping !! s)
  | _ => VNull
  end.

Definition fillna (d : value) (v : value) : value :=
  match v with VNull => d | _ => v end.

Section Stage4.

Context `{M : Str.Methods}.

(** What [.str.upper()] and [.str.strip()] make of one cell. *)
Definition str_upper (v : value) : value :=
  match v with VStr s => VStr (Str.upper s) | _ => VNull end.
Definition str_strip (v : value) : value :=
  match v with VStr s => VStr (Str.strip s) | _ => VNull end.

(** What the two statements of stage 4 make of one cell. *)
Definition standardize_channel (v : value) : value :=
  fillna (VStr "Web") (map_dict channel_mapping (str_strip (str_upper v))).

(** The mapping of stage 4 in the words of its specification. *)
Definition channel_spec (v : value) : string :=
  match v with
  | VStr s =>
      let name := Str.strip (Str.upper s) in
      if decide (name = "PHONE") then "Phone"
      else if decide (name = "ONLINE") then "Web"
      else if decide (name = "UNKNOWN") then "Web"
      else if decide (name = "MOBILE") then "App"
      else if decide (name = "OTHER") then "Web"
      else "Web"
  | _ => "Web"
  end.

Definition standardize_channel_type (df : DataFrame) : result DataFrame :=
  col ← get_col "open_data_channel_type" df;
  col ← str_method Str.upper col;
  col ← str_method Str.strip col;
  let df := set_col "open_data_channel_type" col df in
  col ← get_col "open_data_channel_type" df;
  mret (set_col "open_data_channel_type"
          (fillna (VStr "Web") <$> (map_dict channel_mapping <$> col)) df).

End Stage4.

(** *** Stage 5 *)

(** [df.duplicated(subset=[key], keep="first")]: a row is a duplicate when
    an earlier row has an equal key. *)
Fixpoint duplicated (seen : list value) (keys : list value) : list bool :=
  match keys with
  | [] => []
  | k :: keys' => existsb (value_eqb k) seen :: duplicated (k :: seen) keys'
  end.

Definition remove_duplicates (df : DataFrame) (key_column : string)
  : result DataFrame :=
  keys ← get_col key_column df;
  mret (select (negb <$> duplicated [] keys) df).

(** Stage 5 in the words of its specification: going through the rows in
    order, a row stays when no row before it has an equal key. *)
Fixpoint first_occurrences (key : string) (before rs : list (Z * row))
  : list (Z * row) :=
  match rs with
  | [] => []
  | r :: rs' =>
      if forallb (λ r' : Z * row,
                    negb (value_eqb (cell key r.2) (cell key r'.2))) before
      then r :: first_occurrences key (before ++ [r]) rs'
      else first_occurrences key (before ++ [r]) rs'
  end.

(** No two rows have equal keys. *)
Definition distinct_keys (key : string) (rs : list (Z * row)) : Prop :=
  ∀ i j ri rj, (i < j)%nat → rs !! i = Some ri → rs !! j = Some rj →
    value_eqb (cell key ri.2) (cell key rj.2) = false.

(** *** Stage 6 *)

Definition as_float (v : value) : result (option Q) :=
  match v with
  | VNum q => Ok (Some q)
  | VNull => Ok None
  | _ => Raise TypeError
  end.

(** [Series.quantile(q)] with the default linear interpolation: nulls are
    dropped, [NaN] for an empty series, [ValueError] outside [0, 1]. *)
Definition quantile (q : Q) (xs : list (option Q)) : result (option Q) :=
  if Qle_bool 0 q && Qle_bool q 1 then
    let vs := Sorting.sort_by Qle_bool (omap id xs) in
    match vs with
    | [] => Ok None
    | v0 :: _ =>
        let h := (q * inject_Z (Z.of_nat (length vs) - 1))%Q in
        let lo := Qfloor h in
        let x_lo := nth (Z.to_nat lo) vs v0 in
        let x_hi := nth (Z.to_nat (lo + 1)) vs x_lo in
        Ok (Some (x_lo + (h - inject_Z lo) * (x_hi - x_lo))%Q)
    end
  else Raise (ValueError "percentiles should all be in the interval [0, 1]").

(** [.clip(upper=threshold)]; a [NaN] threshold clips nothing. *)
Definition clip_upper (threshold : option Q) (v : value) : value :=
  match threshold, v with
  | Some t, VNum x => if Qle_bool x t then VNum x else VNum t
  | _, _ => v
  end.

Definition winsorize_response_time (df : DataFrame) (percentile : Q)
  : result DataFrame :=
  if decide ("response_time_days" ∈ columns df) then
    col ← get_col "response_time_days" df;
    xs ← mapM as_float col;
    threshold ← quantile (percentile / 100) xs;
    mret (set_col "response_time_days" (clip_upper threshold <$> col) df)
  else Ok df.

(** *** Stage 7 *)

(** The distinct values of a list, in order of first appearance. *)
Fixpoint unique (l : list value) : list value :=
  match l with
  | [] => []
  | x :: l' => x :: filter (λ y, negb (value_eqb x y)) (unique l')
  end.

Definition count_of (v : value) (l : list value) : Z :=
  Z.of_nat (length (filter (λ y, value_eqb v y) l)).

(** [Series.value_counts()]: nulls are dropped, the values come with their
    frequency, the most frequent first; values of equal frequency stay in
    order of first appearance. *)
Definition value_counts (col : list value) : list (value * Z) :=
  let vals := filter (λ v, notna v) col in
  Sorting.sort_by (λ a b, b.2 <=? a.2)
    ((λ k, (k, count_of k vals)) <$> unique vals).

(** [.head(n)], that is [.iloc[:n]]: a negative [n] drops from the end and
    [None] keeps everything. *)
Definition head {A} (n : option Z) (l : list A) : list A :=
  match n with
  | None => l
  | Some n =>
      if 0 <=? n then take (Z.to_nat n) l
      else take (length l - Z.to_nat (- n)) l
  end.

Definition isin (vals : list value) (v : value) : bool :=
  existsb (value_eqb v) vals.

(** [n_top] is optional because the driver hands its own optional argument
    through. *)
Definition top_types (complaint_counts : list (value * Z))
    (n_top min_count : option Z) : list value :=
  match min_count with
  | Some m => (filter (λ kc, m ≤ kc.2) complaint_counts).*1
  | None => (head n_top complaint_counts).*1
  end.

Definition select_top_complaint_types (df : DataFrame)
    (n_top min_count : option Z) : result DataFrame :=
  col ← get_col "complaint_type" df;
  let complaint_counts := value_counts col in
  let top_types := top_types complaint_counts n_top min_count in
  mret (select (isin top_types <$> col) df).

(** *** The driver *)
Section Driver.

Variable to_datetime : value → value.
Context `{M : Str.Methods}.

Definition stages_1_to_6 (df : DataFrame) (winsorize_percentile : Q)
  : result DataFrame :=
  df ← convert_dates_to_datetime to_datetime df;
  df ← compute_response_time df;
  df ← filter_invalid_rows df true true true;
  df ← standardize_channel_type df;
  df ← remove_duplicates df "unique_key";
  winsorize_response_time df winsorize_percentile.

Definition clean_nyc311_data (df : DataFrame) (winsorize_percentile : Q)
    (top_complaint_types min_complaint_count : option Z)
  : result DataFrame :=
  df ← stages_1_to_6 df winsorize_percentile;
  if bool_decide (top_complaint_types ≠ None)
     || bool_decide (min_complaint_count ≠ None)
  then select_top_complaint_types df top_complaint_types min_complaint_count
  else Ok df.

End Driver.

End Cleaning.

(** ** An instance of [to_datetime]: ISO 8601 timestamps

    The format the source serves: [YYYY-MM-DDTHH:MM:SS], optionally followed
    by three digits of milliseconds. *)
Module Iso.

Definition digit (a : ascii) : option Z :=
  let n := nat_of_ascii a in
  if (48 <=? n)%nat && (n <=? 57)%nat then Some (Z.of_nat (n - 48)) else None.

Fixpoint number (acc : Z) (l : list ascii) : option Z :=
  match l with
  | [] => Some acc
  | a :: l' => d ← digit a; number (10 * acc + d) l'
  end.

Definition is_leap (y : Z) : bool :=
  (y mod 4 =? 0) && (negb (y mod 100 =? 0) || (y mod 400 =? 0)).

Definition days_in_month (y m : Z) : Z :=
  if m =? 2 then (if is_leap y then 29 else 28)
  else if (m =? 4) || (m =? 6) || (m =? 9) || (m =? 11) then 30
  else 31.

(** Days from 1970-01-01 to the given civil date. *)
Definition days_from_civil (y m d : Z) : Z :=
  let y := if m <=? 2 then y - 1 else y in
  let era := y / 400 in
  let yoe := y - era * 400 in
  let mp := if 2 <? m then m - 3 else m + 9 in
  let doy := (153 * mp + 2) / 5 + d - 1 in
  let doe := yoe * 365 + yoe / 4 - yoe / 100 + doy in
  era * 146097 + doe - 719468.

Definition fields (y m d h n sec ms : Z) : option Z :=
  if (1 <=? m) && (m <=? 12) && (1 <=? d) && (d <=? days_in_month y m)
     && (h <? 24) && (n <? 60) && (sec <? 60)
  then
    Some ((((days_from_civil y m d * 24 + h) * 60 + n) * 60 + sec)
          * 1000000000 + ms * 1000000)
  else None.

Definition fraction (frac : list ascii) : option Z :=
  match frac with
  | [] => Some 0
  | [dot; f1; f2; f3] =>
      if bool_decide (dot = "."%char) then number 0 [f1; f2; f3] else None
  | _ => None
  end.

Definition parse (s : string) : option Z :=
  match Str.to_list s with
  | y1 :: y2 :: y3 :: y4 :: p1 :: m1 :: m2 :: p2 :: d1 :: d2 :: p3
    :: h1 :: h2 :: p4 :: n1 :: n2 :: p5 :: s1 :: s2 :: frac =>
      if bool_decide ([p1; p2; p3; p4; p5] = ["-"; "-"; "T"; ":"; ":"]%char)
      then
        y ← number 0 [y1; y2; y3; y4];
        m ← number 0 [m1; m2];
        d ← number 0 [d1; d2];
        h ← number 0 [h1; h2];
        n ← number 0 [n1; n2];
        sec ← number 0 [s1; s2];
        ms ← fraction frac;
        fields y m d h n sec ms
      else None
  | _ => None
  end.

Definition iso_to_datetime (v : value) : value :=
  match v with
  | VStr s => from_option VTime VNull (parse s)
  | VTime t => VTime t
  | VNull | VNum _ => VNull
  end.

End Iso.

(** ** Mock sources and sample data used by the closed examples below *)
Module Samples.
Import Api.

(** A source that serves the given pages in turn, then empty pages. *)
Definition paged (pages : list (list row)) : nat → request → get_outcome :=
  λ n _, GetResponse 200 (default [] (pages !! n)).

(** A source whose first [k] requests time out. *)
Definition flaky (k : nat) (body : list row) : nat → request → get_outcome :=
  λ n _, if (n <? k)%nat then GetRaises ReadTimeout else GetResponse 200 body.

(** A source that answers every request with the given status. *)
Definition failing (status : Z) : nat → request → get_outcome :=
  λ _ _, GetResponse status [].

Definition one_row (key : string) : row := {["unique_key" := VStr key]}.

Definition some_request : request := page_request ∅ 2024 2 0.

Definition record (key created closed complaint borough channel : value)
  : row :=
  list_to_map
    [("unique_key", key); ("created_date", created); ("closed_date", closed);
     ("complaint_type", complaint); ("borough", borough);
     ("open_data_channel_type", channel)].

(** Six requests: a duplicated key, a request closed before it was
    created, one without borough, one without channel. *)
Definition records : list row :=
  [record (VStr "1") (VStr "2024-01-01T00:00:00.000")
     (VStr "2024-01-02T00:00:00.000") (VStr "Noise") (VStr "BRONX")
     (VStr "phone ");
   record (VStr "1") (VStr "2024-01-01T00:00:00.000")
     (VStr "2024-01-02T00:00:00.000") (VStr "Noise") (VStr "BRONX")
     (VStr "ONLINE");
   record (VStr "2") (VStr "2024-01-03T00:00:00.000")
     (VStr "2024-01-02T00:00:00.000") (VStr "Heat") (VStr "BRONX")
     (VStr "MOBILE");
   record (VStr "3") (VStr "2024-01-03T00:00:00.000")
     (VStr "2024-01-03T12:00:00.000") (VStr "Heat") VNull (VStr "MOBILE");
   record (VStr "4") (VStr "2024-01-03T00:00:00.000")
     (VStr "2024-01-13T12:00:00.000") (VStr "Heat") (VStr "QUEENS") VNull;
   record (VStr "5") (VStr "2024-01-03T00:00:00.000")
     (VStr "2024-01-04T12:00:00.000") (VStr "Rats") (VStr "QUEENS")
     (VStr "mobile")].

(** A table with response times of 1, 2 and 10 days and one missing. *)
Definition timed : DataFrame :=
  from_records
    [{["response_time_days" := VNum 1]}; {["response_time_days" := VNum 2]};
     {["response_time_days" := VNull]}; {["response_time_days" := VNum 10]}].

Definition complaint (type : string) : row :=
  {["complaint_type" := VStr type]}.

(** 95 complaints: five rounds of one D, two C, six B and ten A. *)
Definition surveyed : DataFrame :=
  from_records
    (mjoin (replicate 5
       (complaint "D" :: replicate 2 (complaint "C")
        ++ replicate 6 (complaint "B") ++ replicate 10 (complaint "A")))).

(** A request that is still open: no closing date. *)
Definition open_request : row :=
  record (VStr "7") (VStr "2024-03-01T08:00:00.000") VNull (VStr "Noise")
    (VStr "BRONX") (VStr "PHONE").

End Samples.

(** * Vocabulary for the properties of the stages *)
Module Vocabulary.
Import Cleaning.

(** ** What a stage does to one row *)

(** [r'] is [r] but for the columns [cs]. *)
Definition same_but (cs : list string) (r r' : row) : Prop :=
  ∀ c, c ∉ cs → cell c r' = cell c r.

(** Stage 1: each date cell is rewritten as a function of its old value,
    [f] for one column and [g] for the other. *)
Definition dates_rewritten (f g : value → value) (r r' : row) : Prop :=
  same_but ["created_date"; "closed_date"] r r'
  ∧ cell "created_date" r' = f (cell "created_date" r)
  ∧ cell "closed_date" r' = g (cell "closed_date" r).

(** Stage 2: the new cell is computed from the two dates of the row. *)
Definition response_time_added (r r' : row) : Prop :=
  same_but ["response_time_days"] r r'
  ∧ response_days (cell "closed_date" r) (cell "created_date" r)
    = Ok (cell "response_time_days" r').

(** Stage 4: the channel is rewritten from the channel of the row. *)
Definition channel_rewritten `{M : Str.Methods} (r r' : row) : Prop :=
  same_but ["open_data_channel_type"] r r'
  ∧ cell "open_data_channel_type" r'
    = standardize_channel (cell "open_data_channel_type" r).

(** Stage 6: the response time of the row is capped at [t]. *)
Definition capped (t : option Q) (r r' : row) : Prop :=
  same_but ["response_time_days"] r r'
  ∧ cell "response_time_days" r'
    = clip_upper t (cell "response_time_days" r).

(** The driver: the four of them, one after the other. *)
Definition cleaned `{M : Str.Methods} (f g : value → value) (t : option Q)
    (r r' : row) : Prop :=
  same_but ["created_date"; "closed_date"; "response_time_days";
            "open_data_channel_type"] r r'
  ∧ cell "created_date" r' = f (cell "created_date" r)
  ∧ cell "closed_date" r' = g (cell "closed_date" r)
  ∧ cell "open_data_channel_type" r'
    = standardize_channel (cell "open_data_channel_type" r)
  ∧ ∃ days,
      response_days (cell "closed_date" r') (cell "created_date" r') = Ok days
      ∧ cell "response_time_days" r' = clip_upper t days.

(** ** Cells and rows *)

(** A cell fit for date arithmetic: a timestamp or a missing value. *)
Definition is_date (v : value) : Prop := v = VNull ∨ ∃ t, v = VTime t.

(** A cell of a column of text: a string or a missing value. *)
Definition is_text (v : value) : Prop := v = VNull ∨ ∃ s, v = VStr s.

(** A cell fit for a numeric column: a number or a missing value. *)
Definition is_float (v : value) : Prop := v = VNull ∨ ∃ q, v = VNum q.

(** The cells of a column, in row order. *)
Definition cells (c : string) (df : DataFrame) : list value :=
  cell c ∘ snd <$> rows df.

(** Two of the cell tests as booleans. *)
Definition is_textb (v : value) : bool :=
  match v with VNull | VStr _ => true | _ => false end.

Definition is_floatb (v : value) : bool :=
  match v with VNull | VNum _ => true | _ => false end.

(** One cell of [df["response_time_days"] > 0] when it does not raise. *)
Definition positive (v : value) : bool :=
  match v with
  | VNum q => negb (Qle_bool q 0)
  | _ => false
  end.

(** The rows stage 3 keeps: each active requirement holds and, when the
    table has the response time column, the response time is present and
    positive. *)
Definition valid_row (b1 b2 b3 has_rt : bool) (ir : Z * row) : bool :=
  implb b1 (notna (cell "created_date" ir.2))
  && implb b2 (notna (cell "closed_date" ir.2))
  && implb b3 (notna (cell "borough" ir.2))
  && implb has_rt (positive (cell "response_time_days" ir.2)).

(** How the response time of a row relates to its two dates. *)
Definition elapsed (closed created days : value) : Prop :=
  match closed, created with
  | VTime c, VTime o =>
      ∃ q, days = VNum q ∧ ((0 < q)%Q ↔ o < c) ∧ ((q <= 0)%Q ↔ c ≤ o)
  | _, _ => days = VNull
  end.

(** What a second run of stage 4 makes of a value of the first run. *)
Definition second_pass (v : value) : value :=
  if value_eqb v (VStr "Phone") then VStr "Phone" else VStr "Web".

(** The rows with a complaint type. *)
Definition typed_rows (df : DataFrame) : list (Z * row) :=
  filter (λ ir, notna (cell "complaint_type" ir.2)) (rows df).

(** What a row of the cleaned table looks like: the two dates and the
    borough are present, the response time is a positive number, and the
    channel is one of the three categories. *)
Definition present (v : value) : Prop := v ≠ VNull.

Definition positive_days (v : value) : Prop := ∃ q, v = VNum q ∧ (0 < q)%Q.

Definition channel_category (v : value) : Prop :=
  ∃ s, v = VStr s ∧ s ∈ ["Phone"; "Web"; "App"].

Definition clean_row (ir : Z * row) : Prop :=
  present (cell "created_date" ir.2)
  ∧ present (cell "closed_date" ir.2)
  ∧ present (cell "borough" ir.2)
  ∧ positive_days (cell "response_time_days" ir.2)
  ∧ channel_category (cell "open_data_channel_type" ir.2).

End Vocabulary.

(** * Further sample data *)
Module MoreSamples.
Import Api.

(** A source that serves one page of two rows and then times out. *)
Definition one_page_then_timeouts : nat → request → get_outcome :=
  λ n _, if (n <? 1)%nat
         then GetResponse 200 [Samples.one_row "1"; Samples.one_row "2"]
         else GetRaises ReadTimeout.

(** Three requests with parsed dates: closed after a day, closed before it
    was created, still open. *)
Definition dated : DataFrame :=
  from_records
    [list_to_map [("created_date", VTime 0); ("closed_date", VTime 86400000000000);
                  ("borough", VStr "BRONX")];
     list_to_map [("created_date", VTime 500); ("closed_date", VTime 100);
                  ("borough", VStr "QUEENS")];
     list_to_map [("created_date", VTime 700); ("closed_date", VNull);
                  ("borough", VNull)]].

End MoreSamples.

(** * Properties of the fetcher *)
Module ApiSpec.
Import Api.

(** ** The definitions on small inputs *)

Example build_params_where :
  _build_params 2024 10 20 !! "$where"
  = Some (PStr "created_date between '2024-01-01T00:00:00' and '2024-12-31T23:59:59'")
  ∧ _build_params 2024 10 20 !! "$offset" = Some (PInt 20).
Proof. split; reflexivity. Qed.

Example backoff_values : backoff <$> [0; 1]%nat = [2; 4].
Proof. reflexivity. Qed.

Example fetch_two_pages :
  fetch_nyc311_data
    (Samples.paged [[Samples.one_row "1"; Samples.one_row "2"];
                    [Samples.one_row "3"]])
    5 (Some "token") 2 2024 init_world
  = Some (Ok (from_records
                [Samples.one_row "1"; Samples.one_row "2"; Samples.one_row "3"]),
          {| calls := page_requests {["X-App-Token" := "token"]} 2024 2 0 2;
             sleeps := []; session_closed := true |}).
Proof. reflexivity. Qed.

Example fetch_out_of_fuel :
  fetch_nyc311_data (Samples.paged (replicate 9 [Samples.one_row "1"]))
    3 None 1 2024 init_world = None.
Proof. reflexivity. Qed.

Section Source.

Variable server : nat → request → get_outcome.

Lemma try_get_eq rq w :
  try_get server rq w
  = (response_json (server (length (calls w)) rq), log_call rq w).
Proof. reflexivity. Qed.

Lemma fetch_page_unfold rq w :
  _fetch_page server rq w = fetch_page_loop server [0; 1; 2] rq w.
Proof. reflexivity. Qed.

Lemma response_json_200 body : response_json (GetResponse 200 body) = Ok body.
Proof. reflexivity. Qed.

Lemma response_json_error status body :
  400 ≤ status < 600 →
  response_json (GetResponse status body) = Raise (HTTPError status).
Proof.
  intros [Hlo Hhi]. unfold response_json, raise_for_status.
  rewrite (proj2 (Z.leb_le _ _) Hlo), (proj2 (Z.ltb_lt _ _) Hhi). reflexivity.
Qed.

(** A first attempt that succeeds ends the page request. *)
Lemma fetch_page_first_ok rq w body :
  response_json (server (length (calls w)) rq) = Ok body →
  _fetch_page server rq w = (Ok (Some body), log_call rq w).
Proof.
  intros H. rewrite fetch_page_unfold. cbn [fetch_page_loop].
  rewrite try_get_eq, H. reflexivity.
Qed.

(** An error the [except] clause does not name leaves at once. *)
Lemma fetch_page_first_uncaught rq w e :
  response_json (server (length (calls w)) rq) = Raise e →
  caught_by_retry e = false →
  _fetch_page server rq w = (Raise e, log_call rq w).
Proof.
  intros H Hc. rewrite fetch_page_unfold. cbn [fetch_page_loop].
  rewrite try_get_eq, H, Hc. reflexivity.
Qed.

(** The page request never leaves its loop at the end: it returns rows
    or raises. *)
Lemma fetch_page_never_none rq w w' :
  _fetch_page server rq w ≠ (Ok None, w').
Proof.
  rewrite fetch_page_unfold. cbn [fetch_page_loop]. rewrite !try_get_eq.
  destruct (response_json _) as [b0|e0]; [discriminate|].
  destruct (caught_by_retry e0); [|discriminate]. cbn.
  destruct (response_json _) as [b1|e1]; [discriminate|].
  destruct (caught_by_retry e1); [|discriminate]. cbn.
  destruct (response_json _) as [b2|e2]; [discriminate|].
  destruct (caught_by_retry e2); discriminate.
Qed.

(** The state of the world after [k] attempts at one request. *)
Definition after_attempts (k : nat) (rq : request) (w : world) : world :=
  {| calls := calls w ++ replicate k rq;
     sleeps := sleeps w ++ (backoff <$> seq 0 (k - 1));
     session_closed := session_closed w |}.

Lemma world_eq w1 w2 :
  calls w1 = calls w2 → sleeps w1 = sleeps w2 →
  session_closed w1 = session_closed w2 → w1 = w2.
Proof. destruct w1, w2; simpl; congruence. Qed.

Lemma calls_log_call rq w :
  length (calls (log_call rq w)) = S (length (calls w)).
Proof. simpl. rewrite length_app. simpl. lia. Qed.

(** One turn of the [for] loop of [_fetch_page]. *)
Lemma fetch_page_loop_step attempt rest rq w :
  fetch_page_loop server (attempt :: rest) rq w
  = let r := response_json (server (length (calls w)) rq) in
    if retryable r && (attempt <? MAX_RETRIES - 1) then
      fetch_page_loop server rest rq
        (time_sleep (RETRY_DELAY * 2 ^ attempt) (log_call rq w))
    else (Some <$> r, log_call rq w).
Proof.
  cbn [fetch_page_loop]. rewrite try_get_eq. cbv zeta.
  destruct (response_json _) as [b|e]; [reflexivity|]. cbn [retryable].
  destruct (caught_by_retry e); [|reflexivity].
  destruct (attempt <? MAX_RETRIES - 1); reflexivity.
Qed.

(** What a page request does, by the number [k] of attempts it makes:
    all attempts before the last hit the [except] clause, each followed
    by its wait; the last one decides the outcome, and is the third
    whenever it hits the [except] clause too. *)
Lemma fetch_page_attempts rq w :
  let r i := response_json (server (length (calls w) + i) rq) in
  ∃ k : nat,
    (1 ≤ k ≤ Z.to_nat MAX_RETRIES)%nat
    ∧ (∀ i, (i < k - 1)%nat → retryable (r i) = true)
    ∧ (retryable (r (k - 1)%nat) = true → k = Z.to_nat MAX_RETRIES)
    ∧ _fetch_page server rq w
      = (Some <$> r (k - 1)%nat, after_attempts k rq w).
Proof.
  intros r. rewrite fetch_page_unfold.
  change (Z.to_nat MAX_RETRIES) with 3%nat.
  assert (Hw : ∀ k w', calls w' = calls w ++ replicate k rq →
             sleeps w' = sleeps w ++ (backoff <$> seq 0 (k - 1)) →
             session_closed w' = session_closed w →
             w' = after_attempts k rq w)
    by (intros; apply world_eq; assumption).
  assert (Hr : ∀ i w', length (calls w') = (length (calls w) + i)%nat →
             response_json (server (length (calls w')) rq) = r i)
    by (intros i w' ->; reflexivity).
  rewrite fetch_page_loop_step, (Hr 0%nat) by lia. cbv zeta.
  destruct (retryable (r 0%nat)) eqn:R0; cbn [andb].
  2:{ exists 1%nat. split; [lia|]. split; [intros; lia|]. split; [simpl; congruence|].
      f_equal. apply Hw; simpl; [done|by rewrite app_nil_r|done]. }
  change (0 <? MAX_RETRIES - 1) with true. cbv iota.
  rewrite fetch_page_loop_step, (Hr 1%nat)
    by (simpl; rewrite length_app; simpl; lia). cbv zeta.
  destruct (retryable (r 1%nat)) eqn:R1; cbn [andb].
  2:{ exists 2%nat. split; [lia|]. split; [|split; [simpl; congruence|]].
      - intros i Hi. by assert (i = 0%nat) as -> by lia.
      - f_equal. apply Hw; simpl; [by rewrite <- app_assoc|done|done]. }
  change (1 <? MAX_RETRIES - 1) with true. cbv iota.
  rewrite fetch_page_loop_step, (Hr 2%nat)
    by (simpl; rewrite !length_app; simpl; lia). cbv zeta.
  change (2 <? MAX_RETRIES - 1) with false. rewrite andb_false_r.
  exists 3%nat. split; [lia|]. split; [|split; [done|]].
  - intros i Hi. by assert (i = 0%nat ∨ i = 1%nat) as [-> | ->] by lia.
  - f_equal. apply Hw; simpl; [|by rewrite <- app_assoc|done].
    by rewrite <- !app_assoc.
Qed.

(** *** The pagination loop *)

Lemma fetch_page_200 rq w body :
  server (length (calls w)) rq = GetResponse 200 body →
  _fetch_page server rq w = (Ok (Some body), log_call rq w).
Proof. intros H. apply fetch_page_first_ok. by rewrite H. Qed.

Lemma log_calls_nil w : log_calls [] w = w.
Proof. apply world_eq; simpl; [by rewrite app_nil_r|done|done]. Qed.

Lemma log_calls_cons rq rqs w :
  log_calls rqs (log_call rq w) = log_calls (rq :: rqs) w.
Proof. apply world_eq; simpl; [by rewrite <- app_assoc|done|done]. Qed.

Lemma page_requests_S hdr year limit base n :
  page_requests hdr year limit base (S n)
  = page_request hdr year limit base
    :: page_requests hdr year limit (base + limit) n.
Proof.
  unfold page_requests. cbn [seq fmap list_fmap]. f_equal.
  - f_equal. lia.
  - rewrite <- fmap_S_seq, <- list_fmap_compose.
    apply list_fmap_ext. intros _ i _. simpl. f_equal. lia.
Qed.

(** As long as the pages are full, the loop goes on to the next offset
    and accumulates the rows. *)
Lemma fetch_loop_full_pages n :
  ∀ fuel hdr year limit records base pc w (pages : nat → list row),
    0 < limit →
    (∀ i, (i < n)%nat →
       server (length (calls w) + i)
         (page_request hdr year limit (base + Z.of_nat i * limit))
       = GetResponse 200 (pages i)) →
    (∀ i, (i < n)%nat → limit ≤ Z.of_nat (length (pages i))) →
    fetch_loop server (n + fuel) hdr year limit records base pc w
    = fetch_loop server fuel hdr year limit
        (records ++ concat (pages <$> seq 0 n))
        (base + Z.of_nat n * limit) (pc + Z.of_nat n)
        (log_calls (page_requests hdr year limit base n) w).
Proof.
  induction n as [|n IH];
    intros fuel hdr year limit records base pc w pages Hlim Hsrv Hfull.
  - simpl. rewrite app_nil_r, log_calls_nil. f_equal; lia.
  - cbn [Nat.add fetch_loop]. cbv zeta.
    specialize (Hsrv 0%nat ltac:(lia)) as H0.
    rewrite Nat.add_0_r, Z.mul_0_l, Z.add_0_r in H0.
    rewrite (fetch_page_200 _ _ _ H0).
    specialize (Hfull 0%nat ltac:(lia)) as Hlen.
    destruct (pages 0%nat) as [|r0 p0] eqn:Hp0; [simpl in Hlen; lia|].
    cbn [falsy default from_option id].
    rewrite (proj2 (Z.ltb_ge _ _) Hlen).
    rewrite (IH fuel hdr year limit _ (base + limit) (pc + 1)
               (log_call (page_request hdr year limit base) w)
               (λ i, pages (S i)) Hlim).
    + rewrite page_requests_S, log_calls_cons.
      cbn [seq fmap list_fmap concat]. rewrite Hp0.
      rewrite <- fmap_S_seq, <- list_fmap_compose, <- app_assoc.
      f_equal; lia.
    + intros i Hi. rewrite calls_log_call.
      rewrite <- (Hsrv (S i) ltac:(lia)). f_equal; [lia|f_equal; lia].
    + intros i Hi. apply Hfull. lia.
Qed.

Lemma response_json_exn o e :
  response_json o = Raise e →
  (∃ status, e = HTTPError status) ∨ (∃ x, e = RequestException x)
  ∨ e = JSONDecodeError.
Proof.
  destruct o as [status body|status|x]; simpl.
  - unfold raise_for_status. destruct (_ && _); simpl; [|discriminate].
    intros [= <-]. eauto.
  - unfold raise_for_status. destruct (_ && _); simpl; intros [= <-]; eauto.
  - intros [= <-]. eauto.
Qed.

Lemma fetch_page_exn rq w e w' :
  _fetch_page server rq w = (Raise e, w') →
  (∃ status, e = HTTPError status) ∨ (∃ x, e = RequestException x)
  ∨ e = JSONDecodeError.
Proof.
  destruct (fetch_page_attempts rq w) as (k & _ & _ & _ & ->).
  destruct (response_json _) eqn:E; simpl; [discriminate|].
  intros [= <- _]. eauto using response_json_exn.
Qed.

Lemma fetch_loop_exn fuel :
  ∀ hdr year limit records base pc w e w',
    fetch_loop server fuel hdr year limit records base pc w
    = Some (Raise e, w') →
    (∃ status, e = HTTPError status) ∨ (∃ x, e = RequestException x)
    ∨ e = JSONDecodeError.
Proof.
  induction fuel as [|fuel IH]; intros hdr year limit records base pc w e w';
    [discriminate|].
  cbn [fetch_loop]. cbv zeta.
  destruct (_fetch_page _ _ _) as [[rows|e0] w1] eqn:E.
  - destruct (falsy rows); [discriminate|].
    destruct (_ <? _); [discriminate|]. apply IH.
  - intros [= <- _]. eauto using fetch_page_exn.
Qed.

Lemma length_concat_full (pages : nat → list row) limit n :
  (∀ i, (i < n)%nat → Z.of_nat (length (pages i)) = limit) →
  Z.of_nat (length (concat (pages <$> seq 0 n))) = Z.of_nat n * limit.
Proof.
  induction n as [|n IH]; intros H; [reflexivity|].
  rewrite seq_S, fmap_app, concat_app, length_app. simpl.
  rewrite app_nil_r, Nat2Z.inj_add, IH by (intros; apply H; lia).
  rewrite (H n) by lia. lia.
Qed.

Lemma nrows_from_records (records : list row) :
  nrows (from_records records) = length records.
Proof. unfold nrows, from_records. simpl. apply length_imap. Qed.

Lemma limit_check_passes limit :
  1 ≤ limit ≤ MAX_LIMIT → (limit <=? 0) || (MAX_LIMIT <? limit) = false.
Proof. intros. apply orb_false_iff. split; [apply Z.leb_gt|apply Z.ltb_ge]; lia. Qed.

Lemma limit_check_fails limit :
  limit < 1 ∨ MAX_LIMIT < limit → (limit <=? 0) || (MAX_LIMIT <? limit) = true.
Proof.
  intros [H|H]; apply orb_true_iff; [left; apply Z.leb_le|right; apply Z.ltb_lt];
    lia.
Qed.

End Source.

(** *** Pagination *)

(** A common step of the theorems below: after [n] full pages the loop
    asks for page [n] at offset [n * limit]. *)
Lemma fetch_after_full_pages server tok limit year (pages : nat → list row)
    (n fuel : nat) :
  1 ≤ limit ≤ MAX_LIMIT →
  (∀ i, (i < n)%nat →
     server i (page_request (make_headers tok) year limit (Z.of_nat i * limit))
     = GetResponse 200 (pages i)) →
  (∀ i, (i < n)%nat → limit ≤ Z.of_nat (length (pages i))) →
  fetch_nyc311_data server (n + fuel) tok limit year init_world
  = match
      fetch_loop server fuel (make_headers tok) year limit
        (concat (pages <$> seq 0 n)) (Z.of_nat n * limit) (Z.of_nat n)
        (log_calls (page_requests (make_headers tok) year limit 0 n) init_world)
    with
    | None => None
    | Some (r, w1) => Some (from_records <$> r, session_close w1)
    end.
Proof.
  intros Hlim Hsrv Hfull. unfold fetch_nyc311_data.
  rewrite limit_check_passes by done.
  rewrite (fetch_loop_full_pages server n fuel _ year limit [] 0 0 init_world pages)
    by (try done; try lia; intros i Hi; simpl; rewrite <- (Hsrv i Hi); f_equal).
  reflexivity.
Qed.

Lemma calls_page_requests hdr year limit n :
  length (calls (log_calls (page_requests hdr year limit 0 n) init_world)) = n.
Proof. simpl. unfold page_requests. by rewrite length_fmap, length_seq. Qed.

Lemma page_requests_snoc hdr year limit n :
  page_requests hdr year limit 0 (S n)
  = page_requests hdr year limit 0 n
    ++ [page_request hdr year limit (Z.of_nat n * limit)].
Proof. unfold page_requests. by rewrite seq_S, fmap_app. Qed.

(** C1.  Pagination: when the source serves full pages (at least [limit]
    rows each) for the first [n] requests and a page of fewer than [limit]
    rows (possibly none) for request [n], the fetch stops there: it sends
    exactly the [n + 1] requests for the offsets [0], [limit], ...,
    [n * limit], never waits, and returns the table of all the rows
    received, in request order.  With full pages of exactly [limit] rows
    and a last page of [k] rows that is [n * limit + k] rows; for [n = 3],
    [3 * limit + k] rows with 4 requests. *)
Theorem fetch_pagination server tok limit year (pages : nat → list row)
    (n fuel : nat) :
  1 ≤ limit ≤ MAX_LIMIT →
  (∀ i, (i ≤ n)%nat →
     server i (page_request (make_headers tok) year limit (Z.of_nat i * limit))
     = GetResponse 200 (pages i)) →
  (∀ i, (i < n)%nat → limit ≤ Z.of_nat (length (pages i))) →
  Z.of_nat (length (pages n)) < limit →
  (n < fuel)%nat →
  ∃ df w,
    fetch_nyc311_data server fuel tok limit year init_world = Some (Ok df, w)
    ∧ df = from_records (concat (pages <$> seq 0 (S n)))
    ∧ calls w = page_requests (make_headers tok) year limit 0 (S n)
    ∧ length (calls w) = S n
    ∧ sleeps w = []
    ∧ ((∀ i, (i < n)%nat → Z.of_nat (length (pages i)) = limit) →
       Z.of_nat (nrows df)
       = Z.of_nat n * limit + Z.of_nat (length (pages n))).
Proof.
  intros Hlim Hsrv Hfull Hlast Hfuel.
  exists (from_records (concat (pages <$> seq 0 (S n)))).
  replace fuel with (n + S (fuel - S n))%nat by lia.
  rewrite (fetch_after_full_pages server tok limit year pages)
    by (try done; intros; apply Hsrv; lia).
  cbn [fetch_loop]. cbv zeta.
  rewrite (fetch_page_200 _ _ _ (pages n))
    by (rewrite calls_page_requests; apply Hsrv; lia).
  assert (Hcat : concat (pages <$> seq 0 (S n))
                 = concat (pages <$> seq 0 n) ++ pages n)
    by (rewrite seq_S, fmap_app, concat_app; simpl; by rewrite app_nil_r).
  assert (Hrows : (∀ i, (i < n)%nat → Z.of_nat (length (pages i)) = limit) →
            Z.of_nat (nrows (from_records (concat (pages <$> seq 0 (S n)))))
            = Z.of_nat n * limit + Z.of_nat (length (pages n))).
  { intros Hex. rewrite nrows_from_records, Hcat, length_app, Nat2Z.inj_add.
    by rewrite (length_concat_full pages limit n Hex). }
  eexists. split; [|split; [reflexivity|]].
  - destruct (pages n) as [|r0 p0] eqn:Hp; cbn [falsy default from_option id].
    + rewrite Hcat, app_nil_r. reflexivity.
    + rewrite (proj2 (Z.ltb_lt _ _) Hlast), Hcat. reflexivity.
  - simpl. rewrite <- page_requests_snoc.
    split; [reflexivity|]. split; [|done].
    unfold page_requests. by rewrite length_fmap, length_seq.
Qed.

(** *** Retries *)

(** After three failed attempts the error is raised without a third wait. *)
Lemma fetch_page_exhausted_sample :
  _fetch_page (Samples.flaky 3 []) Samples.some_request init_world
  = (Raise (RequestException ReadTimeout),
     {| calls := replicate 3 Samples.some_request; sleeps := [2; 4];
        session_closed := false |}).
Proof. reflexivity. Qed.

(** C2, as stated, fails: the waits observed when all three attempts time
    out are 2s and 4s only; no wait of 8s precedes the final failure. *)
Lemma retry_no_wait_before_failure :
  ∃ w, _fetch_page (Samples.flaky 3 []) Samples.some_request init_world
       = (Raise (RequestException ReadTimeout), w)
       ∧ length (calls w) = 3%nat
       ∧ sleeps w = [2; 4]
       ∧ sleeps w ≠ [2; 4; 8]
       ∧ 8 ∉ sleeps w.
Proof.
  eexists. split; [apply fetch_page_exhausted_sample|]. simpl.
  repeat split; [discriminate|]. intros H.
  repeat (apply elem_of_cons in H as [H|H]; [discriminate H|]).
  by apply elem_of_nil in H.
Qed.

(** C2, amended.  A page request makes [k] attempts with
    [1 ≤ k ≤ MAX_RETRIES = 3]; every attempt but the last failed with a
    read timeout or a connection error and was followed by a wait of
    [RETRY_DELAY * 2 ^ attempt] seconds (2s before attempt 2, 4s before
    attempt 3); the last attempt gives the outcome, with no wait after
    it.  When the first two attempts fail so and the third succeeds, the
    rows of the third are returned after exactly the waits 2s and 4s; when
    the third fails as well, its error is raised after those same two
    waits. *)
Theorem fetch_page_retry_backoff (server : nat → request → get_outcome) rq w :
  let r (i : nat) := response_json (server (length (calls w) + i)%nat rq) in
  (∃ k w',
      (1 ≤ k ≤ Z.to_nat MAX_RETRIES)%nat
      ∧ (∀ i, (i < k - 1)%nat → retryable (r i) = true)
      ∧ _fetch_page server rq w = (Some <$> r (k - 1)%nat, w')
      ∧ calls w' = calls w ++ replicate k rq
      ∧ sleeps w' = sleeps w ++ (backoff <$> seq 0 (k - 1)))
  ∧ (backoff 0 = 2 ∧ backoff 1 = 4)
  ∧ (retryable (r 0%nat) = true → retryable (r 1%nat) = true →
     ∃ w', _fetch_page server rq w = (Some <$> r 2%nat, w')
           ∧ calls w' = calls w ++ [rq; rq; rq]
           ∧ sleeps w' = sleeps w ++ [2; 4]).
Proof.
  intros r. destruct (fetch_page_attempts server rq w) as (k & Hk & Hpre & Hlast & Heq).
  fold r in Hpre, Hlast, Heq. split; [|split; [done|]].
  - exists k, (after_attempts k rq w). done.
  - intros R0 R1. exists (after_attempts 3 rq w).
    assert (k = 3%nat) as ->; [|done].
    change (Z.to_nat MAX_RETRIES) with 3%nat in *.
    destruct (decide (k = 1%nat)) as [->|]; [by apply Hlast|].
    destruct (decide (k = 2%nat)) as [->|]; [by apply Hlast|]. lia.
Qed.

(** The first two requests time out, the third succeeds. *)
Lemma fetch_page_retry_backoff_witness :
  ∃ w', _fetch_page (Samples.flaky 2 [Samples.one_row "1"])
          Samples.some_request init_world
        = (Ok (Some [Samples.one_row "1"]), w')
        ∧ calls w' = replicate 3 Samples.some_request
        ∧ sleeps w' = [2; 4].
Proof.
  destruct (fetch_page_retry_backoff (Samples.flaky 2 [Samples.one_row "1"])
              Samples.some_request init_world)
    as (_ & _ & H).
  destruct (H eq_refl eq_refl) as (w' & Heq & Hc & Hs).
  exists w'. split; [exact Heq|]. split; [exact Hc|exact Hs].
Defined.

(** *** Argument check *)

(** C3.  The fetch raises the invalid-argument error exactly when [limit]
    is outside [1, 50000], and then leaves the world as it found it: no
    request has been sent. *)
Theorem limit_validation server fuel tok limit year w :
  (¬ (1 ≤ limit ≤ MAX_LIMIT) →
   ∃ msg, fetch_nyc311_data server fuel tok limit year w
          = Some (Raise (ValueError msg), w))
  ∧ (1 ≤ limit ≤ MAX_LIMIT →
     ∀ msg w', fetch_nyc311_data server fuel tok limit year w
               ≠ Some (Raise (ValueError msg), w'))
  ∧ ((∃ msg w', fetch_nyc311_data server fuel tok limit year w
                = Some (Raise (ValueError msg), w'))
     ↔ ¬ (1 ≤ limit ≤ MAX_LIMIT)).
Proof.
  assert (Hbad : ¬ (1 ≤ limit ≤ MAX_LIMIT) →
            ∃ msg, fetch_nyc311_data server fuel tok limit year w
                   = Some (Raise (ValueError msg), w)).
  { intros Hout. unfold fetch_nyc311_data.
    rewrite limit_check_fails by lia. eauto. }
  assert (Hgood : 1 ≤ limit ≤ MAX_LIMIT →
            ∀ msg w', fetch_nyc311_data server fuel tok limit year w
                      ≠ Some (Raise (ValueError msg), w')).
  { intros Hin msg w'. unfold fetch_nyc311_data.
    rewrite limit_check_passes by done.
    destruct (fetch_loop _ _ _ _ _ _ _ _ _) as [[[records|e] w1]|] eqn:E;
      [discriminate| |discriminate].
    apply fetch_loop_exn in E as [[status ->]|[[x ->]| ->]]; discriminate. }
  split; [exact Hbad|]. split; [exact Hgood|]. split.
  - intros (msg & w' & Heq) Hin. by apply (Hgood Hin msg w').
  - intros Hout. destruct (Hbad Hout) as [msg Heq]. eauto.
Qed.

Lemma limit_validation_witness :
  (∃ msg, fetch_nyc311_data (Samples.paged []) 5 None 50001 2024 init_world
          = Some (Raise (ValueError msg), init_world))
  ∧ (∀ msg w', fetch_nyc311_data (Samples.paged []) 5 None 50000 2024 init_world
               ≠ Some (Raise (ValueError msg), w')).
Proof.
  split.
  - apply (proj1 (limit_validation (Samples.paged []) 5 None 50001 2024
                    init_world)).
    unfold MAX_LIMIT. lia.
  - apply (proj1 (proj2 (limit_validation (Samples.paged []) 5 None 50000 2024
                           init_world))).
    unfold MAX_LIMIT. lia.
Defined.

(** *** Errors that are not retried *)

(** C10.  A page request answered with an HTTP error status outside the
    transport layer's retry list makes [raise_for_status] raise an
    [HTTPError], which the [except] clause of the page request does not
    name: the request ends after that single attempt, without a wait.  The
    fetch it belongs to, here after [n] full pages, ends with the same
    error and returns no table. *)
Theorem http_error_propagates server tok limit year (pages : nat → list row)
    (n fuel : nat) status body :
  1 ≤ limit ≤ MAX_LIMIT →
  (∀ i, (i < n)%nat →
     server i (page_request (make_headers tok) year limit (Z.of_nat i * limit))
     = GetResponse 200 (pages i)) →
  (∀ i, (i < n)%nat → limit ≤ Z.of_nat (length (pages i))) →
  server n (page_request (make_headers tok) year limit (Z.of_nat n * limit))
  = GetResponse status body →
  400 ≤ status < 600 →
  status ∉ status_forcelist →
  (n < fuel)%nat →
  (∀ w, length (calls w) = n →
     _fetch_page server
       (page_request (make_headers tok) year limit (Z.of_nat n * limit)) w
     = (Raise (HTTPError status),
        log_call
          (page_request (make_headers tok) year limit (Z.of_nat n * limit)) w))
  ∧ ∃ w', fetch_nyc311_data server fuel tok limit year init_world
          = Some (Raise (HTTPError status), w')
          ∧ calls w' = page_requests (make_headers tok) year limit 0 (S n)
          ∧ sleeps w' = []
          ∧ session_closed w' = true.
Proof.
  intros Hlim Hsrv Hfull Herr Hstatus _ Hfuel.
  assert (Hpage : ∀ w, length (calls w) = n →
            _fetch_page server
              (page_request (make_headers tok) year limit (Z.of_nat n * limit)) w
            = (Raise (HTTPError status),
               log_call
                 (page_request (make_headers tok) year limit
                    (Z.of_nat n * limit)) w)).
  { intros w Hw. apply fetch_page_first_uncaught; [|reflexivity].
    rewrite Hw, Herr. by apply response_json_error. }
  split; [exact Hpage|].
  replace fuel with (n + S (fuel - S n))%nat by lia.
  rewrite (fetch_after_full_pages server tok limit year pages) by done.
  cbn [fetch_loop]. cbv zeta.
  rewrite Hpage by apply calls_page_requests.
  eexists. split; [reflexivity|]. simpl.
  by rewrite <- page_requests_snoc.
Qed.

(** A source that answers the first request with 404. *)
Lemma http_error_propagates_witness :
  ∃ w', fetch_nyc311_data (Samples.failing 404) 1 None 2 2024 init_world
        = Some (Raise (HTTPError 404), w')
        ∧ calls w' = page_requests (make_headers None) 2024 2 0 1
        ∧ sleeps w' = []
        ∧ session_closed w' = true.
Proof.
  refine (proj2 (http_error_propagates (Samples.failing 404) None 2 2024
                   (λ _, []) 0 1 404 [] _ _ _ _ _ _ _)).
  - unfold MAX_LIMIT. lia.
  - intros i Hi. lia.
  - intros i Hi. lia.
  - reflexivity.
  - lia.
  - unfold status_forcelist. intros H.
    repeat (apply elem_of_cons in H as [H|H]; [discriminate H|]).
    by apply elem_of_nil in H.
  - lia.
Defined.

(** Pages of 2, 2, 2 and 1 rows with [limit = 2]: 4 requests, 7 rows. *)
Lemma fetch_pagination_witness :
  ∃ df w,
    fetch_nyc311_data
      (Samples.paged (replicate 3 (replicate 2 (Samples.one_row "1"))
                      ++ [[Samples.one_row "2"]]))
      4 None 2 2024 init_world = Some (Ok df, w)
    ∧ length (calls w) = 4%nat
    ∧ Z.of_nat (nrows df) = 3 * 2 + 1.
Proof.
  destruct (fetch_pagination
              (Samples.paged (replicate 3 (replicate 2 (Samples.one_row "1"))
                              ++ [[Samples.one_row "2"]]))
              None 2 2024
              (λ i, default [] ((replicate 3 (replicate 2 (Samples.one_row "1"))
                                 ++ [[Samples.one_row "2"]]) !! i))
              3 4)
    as (df & w & Heq & _ & _ & Hlen & _ & Hrows).
  - unfold MAX_LIMIT. lia.
  - intros i Hi. reflexivity.
  - intros i Hi.
    destruct i as [|[|[|i]]]; [simpl; lia|simpl; lia|simpl; lia|lia].
  - simpl. lia.
  - lia.
  - exists df, w. split; [exact Heq|]. split; [exact Hlen|].
    apply Hrows. intros i Hi.
    destruct i as [|[|[|i]]]; [reflexivity|reflexivity|reflexivity|lia].
Defined.

End ApiSpec.

(** * Properties of the cleaning pipeline *)
Module CleaningSpec.
Import Cleaning Vocabulary.

(** ** The definitions on small inputs *)

Example upper_strip : Str.ascii_strip (Str.ascii_upper "  Phone ") = "PHONE".
Proof. reflexivity. Qed.

Example iso_parse :
  Iso.parse "2024-01-01T00:00:00.000" = Some 1704067200000000000
  ∧ Iso.parse "2024-02-30T00:00:00" = None
  ∧ Iso.parse "yesterday" = None.
Proof. repeat split; reflexivity. Qed.

Example response_days_sample :
  response_days (VTime 129600000000000) (VTime 0)
  = Ok (VNum (129600000000000 # 86400000000000))
  ∧ response_days (VTime 0) VNull = Ok VNull
  ∧ response_days (VStr "2024-01-01") (VTime 0) = Raise TypeError.
Proof. repeat split; reflexivity. Qed.

Example duplicated_sample :
  duplicated [] [VStr "1"; VStr "1"; VNull; VStr "2"; VNull]
  = [false; true; false; false; true].
Proof. reflexivity. Qed.

Example quantile_sample :
  quantile (99 # 100) [Some 1; Some 2; None; Some 4; Some 3]%Q
  = Ok (Some (397 # 100))
  ∧ quantile (1 # 2) [None] = Ok None
  ∧ is_Ok (quantile (3 # 2) [Some 1%Q]) = false.
Proof. repeat split; vm_compute; reflexivity. Qed.

Example value_counts_sample :
  value_counts [VStr "a"; VStr "b"; VNull; VStr "b"; VStr "c"; VStr "a";
                VStr "d"; VStr "c"]
  = [(VStr "a", 2); (VStr "b", 2); (VStr "c", 2); (VStr "d", 1)].
Proof. reflexivity. Qed.

Example head_sample :
  head (Some 2) [1; 2; 3] = [1; 2] ∧ head (Some (-1)) [1; 2; 3] = [1; 2]
  ∧ head (Some (-5)) [1; 2; 3] = [] ∧ head None [1; 2; 3] = [1; 2; 3].
Proof. repeat split; reflexivity. Qed.

(** ** The result monad *)

Lemma bind_Ok {A B} (m : result A) (k : A → result B) b :
  m ≫= k = Ok b ↔ ∃ a, m = Ok a ∧ k a = Ok b.
Proof.
  destruct m as [a|e]; simpl; split.
  - eauto.
  - by intros (a' & [= <-] & H).
  - discriminate.
  - by intros (a' & [=] & _).
Qed.

Lemma mapM_Ok {A B} (f : A → result B) (l : list A) (k : list B) :
  mapM f l = Ok k ↔ Forall2 (λ a b, f a = Ok b) l k.
Proof.
  revert k. induction l as [|a l IH]; intros k; simpl.
  - split; [by intros [= <-]|by inversion 1].
  - split.
    + intros H. apply bind_Ok in H as (b & Hb & H).
      apply bind_Ok in H as (k' & Hk' & [= <-]).
      constructor; [done|by apply IH].
    + inversion 1 as [|? b ? k' Hb Hk']; subst.
      apply IH in Hk'. by rewrite Hb, Hk'.
Qed.

(** Unfolds a stage that returned a frame into its successive steps. *)
Ltac inv_bind H :=
  repeat match type of H with
  | _ ≫= _ = Ok _ =>
      let a := fresh "x" in let Ha := fresh "H" a in
      apply bind_Ok in H as (a & Ha & H)
  | mret _ = Ok _ => injection H as H
  | Ok _ = Ok _ => injection H as H
  end.

(** ** Frames *)

Lemma get_col_Ok c df col :
  get_col c df = Ok col ↔ c ∈ columns df ∧ col = (cell c ∘ snd <$> rows df).
Proof.
  unfold get_col. destruct (decide _); split.
  - by intros [= <-].
  - by intros [_ ->].
  - discriminate.
  - by intros [? _].
Qed.

Lemma get_col_length c df col :
  get_col c df = Ok col → length col = length (rows df).
Proof. intros [_ ->]%get_col_Ok. by rewrite length_fmap. Qed.

Lemma mask_rows_sublist rs mask : mask_rows rs mask `sublist_of` rs.
Proof.
  revert mask. induction rs as [|r rs IH]; intros [|[] mask]; simpl;
    try constructor; auto using sublist_nil_l.
Qed.

Lemma rows_set_col_fst c vs rs :
  (zip_with (λ (ir : Z * row) v, (ir.1, <[c:=v]> ir.2)) rs vs).*1
  = take (length vs) rs.*1.
Proof.
  revert vs. induction rs as [|r rs IH]; intros [|v vs]; simpl; try done.
  by rewrite IH.
Qed.

Lemma index_set_col_eq c vs df :
  length vs = length (rows df) → index (set_col c vs df) = index df.
Proof.
  intros H. unfold index. simpl. rewrite rows_set_col_fst, H.
  apply take_ge. by rewrite length_fmap.
Qed.

(** Reading back the column just written. *)
Lemma cells_set_col c vs rs :
  length vs = length rs →
  cell c ∘ snd <$> zip_with (λ (ir : Z * row) v, (ir.1, <[c:=v]> ir.2)) rs vs
  = vs.
Proof.
  revert vs. induction rs as [|r rs IH]; intros [|v vs]; simpl; try done.
  intros [= H]. rewrite IH by done. unfold cell at 1. simpl.
  by rewrite lookup_insert_eq.
Qed.

Lemma get_col_set_col c vs df :
  length vs = length (rows df) → get_col c (set_col c vs df) = Ok vs.
Proof.
  intros H. unfold get_col. simpl.
  rewrite decide_True by set_solver. by rewrite cells_set_col.
Qed.

Lemma update_col_Ok c f df df' :
  update_col c f df = Ok df' ↔
  c ∈ columns df ∧ df' = set_col c (f ∘ cell c ∘ snd <$> rows df) df.
Proof.
  unfold update_col. rewrite bind_Ok. split.
  - intros (col & [Hc ->]%get_col_Ok & [= <-]). split; [done|].
    by rewrite <- list_fmap_compose.
  - intros [Hc ->]. eexists. split; [by apply get_col_Ok|].
    by rewrite <- list_fmap_compose.
Qed.

(** ** Stage 4 as two column updates *)

(** After a string method every cell is a string or missing, so the
    accessor takes the column. *)
Lemma str_accessor_after (f : value → value) (col : list value) :
  (∀ v, is_num (f v) = false ∧ is_time (f v) = false) →
  str_accessor (f <$> col) = Ok ().
Proof.
  intros Hf. unfold str_accessor.
  destruct (existsb is_str (f <$> col)) eqn:Es; [done|].
  assert (Hn : existsb is_num (f <$> col) = false).
  { clear Es. induction col as [|v col IH]; [done|]. csimpl.
    by rewrite (proj1 (Hf v)), IH. }
  rewrite Hn. simpl.
  assert (Hna : existsb notna (f <$> col) = false); [|by rewrite Hna].
  induction col as [|v col IH]; [done|]. csimpl in *.
  apply orb_false_iff in Es as [Es1 Es2]. apply orb_false_iff in Hn as [_ Hn].
  rewrite (IH Es2 Hn), orb_false_r.
  destruct (Hf v) as [H1 H2]. by destruct (f v).
Qed.

Lemma str_method_Ok (f : string → string) col col' :
  str_method f col = Ok col' ↔
  str_accessor col = Ok ()
  ∧ col' = ((λ v, match v with VStr s => VStr (f s) | _ => VNull end) <$> col).
Proof.
  unfold str_method. destruct (str_accessor col) as [[]|e]; simpl; split.
  - by intros [= <-].
  - by intros [_ ->].
  - discriminate.
  - by intros [[=] _].
Qed.

Lemma str_method_cells (f : string → string) (g : value → value) col :
  (∀ v, g v = match v with VStr s => VStr (f s) | _ => VNull end) →
  str_accessor col = Ok () → str_method f col = Ok (g <$> col).
Proof.
  intros Hg Hacc. apply str_method_Ok. split; [done|].
  apply list_fmap_ext. by intros _ v _.
Qed.

Lemma str_method_inv (f : string → string) (g : value → value) col col' :
  (∀ v, g v = match v with VStr s => VStr (f s) | _ => VNull end) →
  str_method f col = Ok col' → str_accessor col = Ok () ∧ col' = (g <$> col).
Proof.
  intros Hg [Hacc ->]%str_method_Ok. split; [done|].
  apply list_fmap_ext. by intros _ v _.
Qed.

Lemma standardize_channel_type_Ok `{M : Str.Methods} df df' :
  standardize_channel_type df = Ok df' ↔
  "open_data_channel_type" ∈ columns df
  ∧ str_accessor (cell "open_data_channel_type" ∘ snd <$> rows df) = Ok ()
  ∧ ∃ df1,
      update_col "open_data_channel_type" (str_strip ∘ str_upper) df = Ok df1
      ∧ update_col "open_data_channel_type"
          (fillna (VStr "Web") ∘ map_dict channel_mapping) df1 = Ok df'.
Proof.
  set (c := "open_data_channel_type").
  set (col := cell c ∘ snd <$> rows df).
  set (mid := set_col c (str_strip ∘ str_upper <$> col) df).
  assert (Hupd : ∀ d, update_col c (fillna (VStr "Web")
                                     ∘ map_dict channel_mapping) d
            = (col3 ← get_col c d;
               mret (set_col c (fillna (VStr "Web")
                                  <$> (map_dict channel_mapping <$> col3)) d))).
  { intros d. unfold update_col. destruct (get_col c d) as [col3|e]; [|done].
    simpl. by rewrite list_fmap_compose. }
  unfold standardize_channel_type. fold c. split.
  - intros H. apply bind_Ok in H as (col0 & [Hc Hcol0]%get_col_Ok & H).
    fold col in Hcol0. subst col0.
    apply bind_Ok in H as (col1 & [Hacc ->]%(str_method_inv _ str_upper) & H);
      [|done].
    apply bind_Ok in H as (col2 & [_ ->]%(str_method_inv _ str_strip) & H);
      [|done].
    cbv zeta in H. rewrite <- list_fmap_compose in H. fold mid in H.
    split; [done|]. split; [done|]. exists mid. split.
    + unfold update_col. by rewrite (proj2 (get_col_Ok c df col) (conj Hc eq_refl)).
    + by rewrite Hupd.
  - intros (Hc & Hacc & df1 & H1 & H2).
    unfold update_col in H1.
    rewrite (proj2 (get_col_Ok c df col) (conj Hc eq_refl)) in H1 |- *.
    simpl in H1. injection H1 as <-. fold mid in H2. simpl.
    rewrite (str_method_cells _ str_upper) by done. simpl.
    rewrite (str_method_cells _ str_strip);
      [|done|apply str_accessor_after; intros v; by destruct v].
    simpl. rewrite <- list_fmap_compose. fold mid. by rewrite <- Hupd.
Qed.

(** ** No stage reorders rows *)

Lemma Forall2_sublist_r {A B} (Q : A → B → Prop) l k k' :
  Forall2 Q l k → k' `sublist_of` k →
  ∃ l', l' `sublist_of` l ∧ Forall2 Q l' k'.
Proof.
  intros H. revert k'. induction H as [|x y l k Hxy H IH]; intros k' Hsub.
  - apply sublist_nil_r in Hsub as ->. by exists [].
  - apply sublist_cons_r in Hsub as [Hsub|(k'' & -> & Hsub)];
      destruct (IH _ Hsub) as (l' & Hl' & HF).
    + exists l'. split; [by apply sublist_cons|done].
    + exists (x :: l'). split; [by apply sublist_skip|by constructor].
Qed.

Lemma order_kept_all R df df' :
  Forall2 (row_kept R) (rows df) (rows df') → order_kept R df df'.
Proof. intros H. by exists (rows df). Qed.

Lemma order_kept_sublist df df' :
  rows df' `sublist_of` rows df → order_kept eq df df'.
Proof.
  intros H. exists (rows df'). split; [done|].
  apply Forall_Forall2_diag, Forall_true. by intros ir.
Qed.

Lemma order_kept_trans R1 R2 df1 df2 df3 :
  order_kept R1 df1 df2 → order_kept R2 df2 df3 →
  order_kept (λ r r'', ∃ r', R1 r r' ∧ R2 r' r'') df1 df3.
Proof.
  intros (k1 & Hs1 & F1) (k2 & Hs2 & F2).
  destruct (Forall2_sublist_r _ _ _ _ F1 Hs2) as (k1' & Hs1' & F1').
  exists k1'. split; [by etrans|].
  eapply Forall2_trans; [|exact F1'|exact F2].
  intros ir ir' ir'' [Hl1 H1] [Hl2 H2]. split; [congruence|eauto].
Qed.

Lemma order_kept_impl (R R' : row → row → Prop) df df' :
  (∀ r r', R r r' → R' r r') → order_kept R df df' → order_kept R' df df'.
Proof.
  intros HR (kept & Hs & HF). exists kept. split; [done|].
  eapply Forall2_impl; [|exact HF]. intros ir ir' [? ?]. split; auto.
Qed.

(** In particular the index labels of the output are those of the input
    with some removed. *)
Lemma order_kept_index R df df' :
  order_kept R df df' → index df' `sublist_of` index df.
Proof.
  intros (kept & Hs & HF). unfold index.
  assert ((rows df').*1 = kept.*1) as ->; [|by apply fmap_sublist].
  clear Hs. induction HF as [|ir ir' k k' [Hl _] _ IH]; csimpl; [done|].
  by rewrite Hl, IH.
Qed.

(** A column assignment keeps every row in its place. *)
Lemma set_col_rows c vs df (P : row → value → Prop) :
  Forall2 (λ ir v, P ir.2 v) (rows df) vs →
  Forall2 (row_kept (λ r r', same_but [c] r r' ∧ P r (cell c r')))
    (rows df) (rows (set_col c vs df)).
Proof.
  simpl. induction 1 as [|ir v rs vs Hv _ IH]; simpl; constructor; [|done].
  split; [done|]. simpl. split.
  - intros c' Hc'. unfold cell. rewrite lookup_insert_ne; [done|].
    intros ->. apply Hc'. by left.
  - unfold cell. by rewrite lookup_insert_eq.
Qed.

Lemma set_col_fmap_rows c (g : value → value) df :
  Forall2 (row_kept (λ r r', same_but [c] r r' ∧ cell c r' = g (cell c r)))
    (rows df) (rows (set_col c (g <$> (cell c ∘ snd <$> rows df)) df)).
Proof.
  apply (set_col_rows c _ df (λ r v, v = g (cell c r))).
  rewrite <- list_fmap_compose. apply Forall2_fmap_r, Forall_Forall2_diag.
  by apply Forall_true.
Qed.

Lemma update_col_rows c f df df' :
  update_col c f df = Ok df' →
  Forall2 (row_kept (λ r r', same_but [c] r r' ∧ cell c r' = f (cell c r)))
    (rows df) (rows df').
Proof.
  unfold update_col. intros H.
  apply bind_Ok in H as (col & [_ ->]%get_col_Ok & [= <-]).
  apply set_col_fmap_rows.
Qed.

Lemma rows_kept_trans (R1 R2 R : row → row → Prop) (l1 l2 l3 : list (Z * row)) :
  (∀ r r' r'', R1 r r' → R2 r' r'' → R r r'') →
  Forall2 (row_kept R1) l1 l2 → Forall2 (row_kept R2) l2 l3 →
  Forall2 (row_kept R) l1 l3.
Proof.
  intros HR. apply Forall2_trans.
  intros ir ir' ir'' [Hl1 H1] [Hl2 H2]. split; [congruence|eauto].
Qed.

(** Solves [c ∉ cs] for a list of column names [cs], [c] being another
    name or known to be outside a longer list. *)
Ltac other_column :=
  repeat match goal with
  | H : _ ∉ _ :: _ |- _ => rewrite not_elem_of_cons in H; destruct H
  end;
  rewrite ?not_elem_of_cons; repeat split;
  (done || discriminate || apply not_elem_of_nil).

Lemma convert_dates_rows to_datetime df df' :
  convert_dates_to_datetime to_datetime df = Ok df' →
  Forall2 (row_kept (dates_rewritten to_datetime to_datetime))
    (rows df) (rows df').
Proof.
  intros H. unfold convert_dates_to_datetime in H.
  apply bind_Ok in H as (df1 & H1%update_col_rows & H2%update_col_rows).
  eapply rows_kept_trans; [|exact H1|exact H2].
  intros r r1 r2 [S1 E1] [S2 E2]. split; [|split].
  - intros c Hc. rewrite S2, S1; [done|other_column..].
  - rewrite S2; [done|other_column].
  - rewrite E2, S1; [done|other_column].
Qed.

Lemma compute_response_time_rows df df' :
  compute_response_time df = Ok df' →
  Forall2 (row_kept response_time_added) (rows df) (rows df').
Proof.
  intros H. unfold compute_response_time in H.
  apply bind_Ok in H as (closed & [_ ->]%get_col_Ok & H).
  apply bind_Ok in H as (created & [_ ->]%get_col_Ok & H).
  apply bind_Ok in H as (days & Hdays%mapM_Ok & [= <-]).
  rewrite zip_with_fmap_l, zip_with_fmap_r, zip_with_diag in Hdays.
  apply Forall2_fmap_l in Hdays.
  apply (set_col_rows "response_time_days" days df
           (λ r d, response_days (cell "closed_date" r) (cell "created_date" r)
                   = Ok d)).
  exact Hdays.
Qed.

Lemma select_rows mask df : rows (select mask df) `sublist_of` rows df.
Proof. apply mask_rows_sublist. Qed.

Lemma keep_notna_rows c df df' :
  keep_notna c df = Ok df' → rows df' `sublist_of` rows df.
Proof.
  intros H. unfold keep_notna in H. inv_bind H. subst. apply select_rows.
Qed.

Lemma optional_keep_notna_rows (b : bool) c df df' :
  (if b then keep_notna c df else Ok df) = Ok df' →
  rows df' `sublist_of` rows df.
Proof. destruct b; [apply keep_notna_rows|]. by intros [= <-]. Qed.

Lemma filter_invalid_rows_rows df b1 b2 b3 df' :
  filter_invalid_rows df b1 b2 b3 = Ok df' → rows df' `sublist_of` rows df.
Proof.
  intros H. unfold filter_invalid_rows in H.
  apply bind_Ok in H as (df1 & H1%optional_keep_notna_rows & H).
  apply bind_Ok in H as (df2 & H2%optional_keep_notna_rows & H).
  apply bind_Ok in H as (df3 & H3%optional_keep_notna_rows & H).
  assert (rows df' `sublist_of` rows df3); [|by repeat (etrans; [|eassumption])].
  destruct (decide _).
  - inv_bind H. subst. apply select_rows.
  - by injection H as <-.
Qed.

Lemma standardize_channel_type_rows `{M : Str.Methods} df df' :
  standardize_channel_type df = Ok df' →
  Forall2 (row_kept channel_rewritten) (rows df) (rows df').
Proof.
  intros (_ & _ & df1 & H1%update_col_rows & H2%update_col_rows)
    %standardize_channel_type_Ok.
  eapply rows_kept_trans; [|exact H1|exact H2].
  intros r r1 r2 [S1 E1] [S2 E2]. split.
  - intros c Hc. by rewrite S2, S1.
  - by rewrite E2, E1.
Qed.

Lemma remove_duplicates_rows_sublist df key df' :
  remove_duplicates df key = Ok df' → rows df' `sublist_of` rows df.
Proof.
  intros H. unfold remove_duplicates in H. inv_bind H. subst. apply select_rows.
Qed.

Lemma winsorize_response_time_rows df pct df' :
  winsorize_response_time df pct = Ok df' →
  ∃ t, Forall2 (row_kept (capped t)) (rows df) (rows df').
Proof.
  intros H. unfold winsorize_response_time in H. destruct (decide _).
  - apply bind_Ok in H as (col & [_ ->]%get_col_Ok & H).
    apply bind_Ok in H as (xs & _ & H).
    apply bind_Ok in H as (t & _ & [= <-]). exists t.
    apply set_col_fmap_rows.
  - injection H as <-. exists None.
    apply Forall_Forall2_diag, Forall_true. intros ir. split; [done|].
    split; [by intros c _|by destruct (cell _ _)].
Qed.

Lemma select_top_complaint_types_rows df n_top min_count df' :
  select_top_complaint_types df n_top min_count = Ok df' →
  rows df' `sublist_of` rows df.
Proof.
  intros H. unfold select_top_complaint_types in H. inv_bind H. subst.
  apply select_rows.
Qed.

(** The rows after stage 6, next to the rows the driver was given. *)
Lemma stages_1_to_6_order `{M : Str.Methods} to_datetime df pct df' :
  stages_1_to_6 to_datetime df pct = Ok df' →
  ∃ t, order_kept (cleaned to_datetime to_datetime t) df df'.
Proof.
  intros H. unfold stages_1_to_6 in H.
  apply bind_Ok in H as (df1 & H1%convert_dates_rows%order_kept_all & H).
  apply bind_Ok in H as (df2 & H2%compute_response_time_rows%order_kept_all & H).
  apply bind_Ok in H as (df3 & H3%filter_invalid_rows_rows%order_kept_sublist & H).
  apply bind_Ok in H
    as (df4 & H4%standardize_channel_type_rows%order_kept_all & H).
  apply bind_Ok in H
    as (df5 & H5%remove_duplicates_rows_sublist%order_kept_sublist & H).
  apply winsorize_response_time_rows in H as [t H6%order_kept_all]. exists t.
  pose proof (order_kept_trans _ _ _ _ _ H1
    (order_kept_trans _ _ _ _ _ H2
      (order_kept_trans _ _ _ _ _ H3
        (order_kept_trans _ _ _ _ _ H4
          (order_kept_trans _ _ _ _ _ H5 H6))))) as Hall.
  eapply order_kept_impl; [|exact Hall]. clear.
  intros r r6 (r1 & (S1 & Ecr & Ecl) & r2 & (S2 & Ert) & r3 & <- & r4
                & (S4 & Ech) & r5 & <- & (S6 & Ecap)).
  split; [|split; [|split; [|split]]].
  - intros c Hc. rewrite S6, S4, S2, S1; [done|other_column..].
  - rewrite S6, S4, S2; [done|other_column..].
  - rewrite S6, S4, S2; [done|other_column..].
  - rewrite S6, Ech, S2, S1; [done|other_column..].
  - exists (cell "response_time_days" r2). split.
    + rewrite (S6 "closed_date"), (S6 "created_date") by other_column.
      rewrite (S4 "closed_date"), (S4 "created_date") by other_column.
      by rewrite (S2 "closed_date"), (S2 "created_date") by other_column.
    + rewrite Ecap, S4; [done|other_column].
Qed.

Lemma clean_nyc311_data_order `{M : Str.Methods} to_datetime df pct top minc
    df' :
  clean_nyc311_data to_datetime df pct top minc = Ok df' →
  ∃ t, order_kept (cleaned to_datetime to_datetime t) df df'.
Proof.
  intros H. unfold clean_nyc311_data in H.
  apply bind_Ok in H as (df6 & [t H6]%stages_1_to_6_order & H). exists t.
  destruct (_ || _).
  - apply select_top_complaint_types_rows, order_kept_sublist in H.
    eapply order_kept_impl; [|exact (order_kept_trans _ _ _ _ _ H6 H)].
    by intros r r' (r6 & ? & <-).
  - by injection H as <-.
Qed.

Lemma clean_nyc311_data_index `{M : Str.Methods} to_datetime df pct top minc
    df' :
  clean_nyc311_data to_datetime df pct top minc = Ok df' →
  index df' `sublist_of` index df.
Proof. intros [t H]%clean_nyc311_data_order. by eapply order_kept_index. Qed.

(** C9.  No stage reorders rows, and so the driver does not.  Whenever a
    stage returns a frame: stages 1, 2, 4 and 6 keep every row where it is,
    with its index label and all its cells but those of the columns the
    stage writes, and the cells written are computed from the row itself
    (for stage 6 together with the one threshold of the column); stages 3,
    5 and 7 return rows of their input, unchanged and in the order of the
    input.  The rows the driver returns correspond, in order, to rows of
    its input taken in input order: each carries the index label and the
    untouched cells of the row it comes from, and dates, channel and
    response time computed from that row. *)
Theorem cleaning_preserves_order `{M : Str.Methods} to_datetime df df' :
  (convert_dates_to_datetime to_datetime df = Ok df' →
   ∃ f g, Forall2 (row_kept (dates_rewritten f g)) (rows df) (rows df'))
  ∧ (compute_response_time df = Ok df' →
     Forall2 (row_kept response_time_added) (rows df) (rows df'))
  ∧ (∀ b1 b2 b3, filter_invalid_rows df b1 b2 b3 = Ok df' →
       rows df' `sublist_of` rows df)
  ∧ (standardize_channel_type df = Ok df' →
     Forall2 (row_kept channel_rewritten) (rows df) (rows df'))
  ∧ (∀ key, remove_duplicates df key = Ok df' →
       rows df' `sublist_of` rows df)
  ∧ (∀ pct, winsorize_response_time df pct = Ok df' →
       ∃ t, Forall2 (row_kept (capped t)) (rows df) (rows df'))
  ∧ (∀ n_top min_count,
       select_top_complaint_types df n_top min_count = Ok df' →
       rows df' `sublist_of` rows df)
  ∧ (∀ pct top minc,
       clean_nyc311_data to_datetime df pct top minc = Ok df' →
       ∃ f g t, order_kept (cleaned f g t) df df').
Proof.
  split; [|split; [|split; [|split; [|split; [|split; [|split]]]]]].
  - intros H. exists to_datetime, to_datetime. by apply convert_dates_rows.
  - apply compute_response_time_rows.
  - intros b1 b2 b3. apply filter_invalid_rows_rows.
  - apply standardize_channel_type_rows.
  - intros key. apply remove_duplicates_rows_sublist.
  - intros pct. apply winsorize_response_time_rows.
  - intros n_top min_count. apply select_top_complaint_types_rows.
  - intros pct top minc [t H]%clean_nyc311_data_order.
    by exists to_datetime, to_datetime, t.
Qed.

(** The driver on the sample table keeps the rows 0, 4 and 5. *)
Lemma cleaning_preserves_order_witness :
  index <$> clean_nyc311_data (M:=Str.ascii_methods) Iso.iso_to_datetime
              (from_records Samples.records) 99 None None = Ok [0; 4; 5]
  ∧ match clean_nyc311_data (M:=Str.ascii_methods) Iso.iso_to_datetime
            (from_records Samples.records) 99 None None with
    | Ok df' =>
        ∃ f g t,
          order_kept (cleaned (M:=Str.ascii_methods) f g t)
            (from_records Samples.records) df'
    | Raise _ => False
    end.
Proof.
  split; [vm_compute; reflexivity|].
  destruct (clean_nyc311_data _ _ _ _ _) as [df'|e] eqn:E.
  - exact (proj2 (proj2 (proj2 (proj2 (proj2 (proj2 (proj2
             (cleaning_preserves_order (M:=Str.ascii_methods) Iso.iso_to_datetime _ df')))))))
             _ _ _ E).
  - vm_compute in E. discriminate E.
Defined.

(** The relation tells frames apart that only differ in the order of
    their rows: two rows exchanged, with or without their labels, are not
    what the driver may return. *)
Example exchanged_rows_not_kept `{M : Str.Methods} (cols : gset string) :
  let a : row := {["unique_key" := VStr "a"]} in
  let b : row := {["unique_key" := VStr "b"]} in
  let df := {| columns := cols; rows := [(0, a); (1, b)] |} in
  (∀ f g t, ¬ order_kept (cleaned f g t) df
                {| columns := cols; rows := [(0, b); (1, a)] |})
  ∧ (∀ f g t, ¬ order_kept (cleaned f g t) df
                  {| columns := cols; rows := [(1, b); (0, a)] |}).
Proof.
  intros a b df.
  assert (Hkept : ∀ R df', length (rows df') = 2%nat → order_kept R df df' →
            Forall2 (row_kept R) (rows df) (rows df')).
  { intros R df' Hlen (kept & Hs & HF).
    assert (Hk : length kept = 2%nat)
      by (apply Forall2_length in HF; congruence).
    assert (kept = rows df) as <-; [|done].
    destruct kept as [|x [|y [|z kept]]]; try discriminate Hk. simpl in Hs.
    apply sublist_cons_r in Hs as [Hs|(k' & [= -> <-] & Hs)].
    - apply sublist_length in Hs. simpl in Hs. lia.
    - apply sublist_cons_r in Hs as [Hs|(k'' & [= -> <-] & Hs)]; [|done].
      apply sublist_length in Hs. simpl in Hs. lia. }
  split; intros f g t H; apply Hkept in H; [|done| |done]; simpl in H;
    inversion_clear H as [|? ? ? ? [Hl [Hsame _]] _]; simpl in *.
  - specialize (Hsame "unique_key" ltac:(other_column)). discriminate Hsame.
  - discriminate Hl.
Qed.

(** For a table fresh from [from_records] the labels are the positions, so
    the frame the driver returns has its rows in increasing position. *)
Lemma index_from_records records :
  index (from_records records) = Z.of_nat <$> seq 0 (length records).
Proof.
  unfold index, from_records. simpl. rewrite fmap_imap.
  rewrite <- (imap_seq_0 records Z.of_nat). by apply imap_ext.
Qed.

Lemma sublist_increasing (l1 l2 : list Z) :
  l1 `sublist_of` l2 → StronglySorted Z.lt l2 → StronglySorted Z.lt l1.
Proof.
  induction 1 as [|x l1 l2 Hsub IH|x l1 l2 Hsub IH]; intros Hs; [done| |].
  - apply StronglySorted_cons in Hs as [Hx Hs].
    apply StronglySorted_cons. split; [|by apply IH].
    rewrite Forall_forall in Hx |- *. intros y Hy.
    apply Hx, list_elem_of_In. apply list_elem_of_In in Hy.
    by eapply elem_of_sublist.
  - apply StronglySorted_cons in Hs as [_ Hs]. by apply IH.
Qed.

Lemma seq_increasing i n : StronglySorted Z.lt (Z.of_nat <$> seq i n).
Proof.
  revert i. induction n as [|n IH]; intros i; simpl; constructor; [apply IH|].
  apply Forall_forall. intros y Hy.
  apply list_elem_of_In, list_elem_of_fmap in Hy as (j & -> & Hj).
  apply elem_of_seq in Hj. lia.
Qed.

Lemma clean_index_increasing `{M : Str.Methods} to_datetime records pct top
    minc df' :
  clean_nyc311_data to_datetime (from_records records) pct top minc = Ok df' →
  StronglySorted Z.lt (index df').
Proof.
  intros H%clean_nyc311_data_index. eapply sublist_increasing; [exact H|].
  rewrite index_from_records. apply seq_increasing.
Qed.

(** ** Stage 3 *)

Lemma elem_of_mask_rows rs mask r :
  r ∈ mask_rows rs mask →
  ∃ i, rs !! i = Some r ∧ mask !! i = Some true.
Proof.
  revert mask. induction rs as [|r0 rs IH]; intros [|b mask]; simpl;
    try (by intros ?%elem_of_nil).
  destruct b.
  - intros [->|H]%elem_of_cons; [by exists 0%nat|].
    destruct (IH _ H) as (i & ? & ?). by exists (S i).
  - intros H. destruct (IH _ H) as (i & ? & ?). by exists (S i).
Qed.

Lemma gt_zero_true v :
  gt_zero v = Ok true → ∃ q, v = VNum q ∧ (0 < q)%Q.
Proof.
  destruct v as [|s|t|q]; simpl; try discriminate. intros [= H].
  exists q. split; [done|]. apply negb_true_iff in H.
  apply Qnot_le_lt. intros Hle. apply Qle_bool_iff in Hle. congruence.
Qed.

Lemma keep_notna_columns c df df' :
  keep_notna c df = Ok df' → columns df' = columns df.
Proof. intros H. unfold keep_notna in H. inv_bind H. by subst. Qed.

Lemma optional_keep_notna_columns (b : bool) c df df' :
  (if b then keep_notna c df else Ok df) = Ok df' → columns df' = columns df.
Proof. destruct b; [apply keep_notna_columns|]. by intros [= <-]. Qed.

(** What stage 3 does with the response time: whenever the column exists,
    every row it keeps has a response time that is present and positive.
    Rows without a response time are dropped, whatever the toggles say. *)
Lemma filter_invalid_rows_positive df b1 b2 b3 df' :
  filter_invalid_rows df b1 b2 b3 = Ok df' →
  "response_time_days" ∈ columns df →
  ∀ ir, ir ∈ rows df' →
    ∃ q, cell "response_time_days" ir.2 = VNum q ∧ (0 < q)%Q.
Proof.
  intros H Hcol ir Hir. unfold filter_invalid_rows in H.
  apply bind_Ok in H as (df1 & H1%optional_keep_notna_columns & H).
  apply bind_Ok in H as (df2 & H2%optional_keep_notna_columns & H).
  apply bind_Ok in H as (df3 & H3%optional_keep_notna_columns & H).
  rewrite decide_True in H by congruence.
  apply bind_Ok in H as (col & [_ ->]%get_col_Ok & H).
  apply bind_Ok in H as (mask & Hmask%mapM_Ok & [= <-]).
  simpl in Hir. apply elem_of_mask_rows in Hir as (i & Hi & Hm).
  eapply Forall2_lookup_r in Hmask as (v & Hv & Hgt); [|exact Hm].
  rewrite list_lookup_fmap, Hi in Hv. injection Hv as <-.
  by apply gt_zero_true.
Qed.

(** C4.  An open request (no closing date, hence no response time) in a
    table with the response time column is removed by stage 3 although
    [require_closed_date] is off: the comparison [> 0] is false on a
    missing value. *)
Theorem filter_drops_null_response_time :
  let computed :=
    df ← convert_dates_to_datetime Iso.iso_to_datetime
           (from_records [Samples.open_request]);
    compute_response_time df in
  (get_col "created_date" <$> computed)
  = Ok (Ok [VTime 1709280000000000000])
  ∧ (get_col "closed_date" <$> computed) = Ok (Ok [VNull])
  ∧ (get_col "borough" <$> computed) = Ok (Ok [VStr "BRONX"])
  ∧ (get_col "response_time_days" <$> computed) = Ok (Ok [VNull])
  ∧ (nrows <$> (df ← computed; filter_invalid_rows df true false true))
    = Ok 0%nat.
Proof. vm_compute. repeat split. Qed.

(** ** Stage 4 *)

Lemma length_rows_set_col c vs df :
  length vs = length (rows df) →
  length (rows (set_col c vs df)) = length (rows df).
Proof. intros H. simpl. rewrite length_zip_with. lia. Qed.

(** An elementwise update rewrites the cells of its column and nothing
    about the rows themselves. *)
Lemma update_col_cells c f df df' :
  update_col c f df = Ok df' →
  (cell c ∘ snd <$> rows df') = (f <$> (cell c ∘ snd <$> rows df))
  ∧ index df' = index df
  ∧ c ∈ columns df'
  ∧ length (rows df') = length (rows df).
Proof.
  intros [Hc ->]%update_col_Ok.
  assert (Hlen : length (f ∘ cell c ∘ snd <$> rows df) = length (rows df))
    by apply length_fmap.
  split; [|split; [|split]].
  - simpl. rewrite cells_set_col by done.
    exact (list_fmap_compose (cell c ∘ snd) f (rows df)).
  - by apply index_set_col_eq.
  - simpl. set_solver.
  - by apply length_rows_set_col.
Qed.

Lemma channel_mapping_lookup name :
  channel_mapping !! name
  = if decide (name = "PHONE") then Some "Phone"
    else if decide (name = "ONLINE") then Some "Web"
    else if decide (name = "UNKNOWN") then Some "Web"
    else if decide (name = "MOBILE") then Some "App"
    else if decide (name = "OTHER") then Some "Web"
    else None.
Proof.
  unfold channel_mapping. cbn [list_to_map foldr fst snd].
  repeat (rewrite lookup_insert; case_decide; subst;
          [by repeat (case_decide; [done|try done])|]).
  rewrite lookup_empty. by repeat (case_decide; [congruence|]).
Qed.

(** The code's cell function is the mapping of the specification. *)
Lemma standardize_channel_spec `{M : Str.Methods} v :
  standardize_channel v = VStr (channel_spec v).
Proof.
  destruct v as [|s|t|q]; try reflexivity.
  unfold standardize_channel, channel_spec. cbn [str_upper str_strip map_dict].
  rewrite channel_mapping_lookup. by repeat case_decide.
Qed.

Lemma channel_spec_range `{M : Str.Methods} v :
  channel_spec v ∈ ["Phone"; "Web"; "App"].
Proof.
  destruct v as [|s|t|q]; simpl; repeat case_decide; set_solver.
Qed.

(** What stage 4 leaves in its column, and the rest of the frame. *)
Lemma standardize_channel_type_column `{M : Str.Methods} df df' :
  standardize_channel_type df = Ok df' →
  "open_data_channel_type" ∈ columns df
  ∧ columns df' = columns df
  ∧ index df' = index df
  ∧ (cell "open_data_channel_type" ∘ snd <$> rows df')
    = (VStr ∘ channel_spec ∘ cell "open_data_channel_type" ∘ snd <$> rows df).
Proof.
  intros (Hc & _ & df1 & E1 & E2)%standardize_channel_type_Ok.
  destruct (update_col_cells _ _ _ _ E1) as (Hcells1 & Hidx1 & Hc1 & _).
  destruct (update_col_cells _ _ _ _ E2) as (Hcells2 & Hidx2 & _ & _).
  apply update_col_Ok in E1 as [_ ->]. apply update_col_Ok in E2 as [_ ->].
  split; [done|]. split; [|split; [congruence|]].
  - simpl. rewrite (assoc_L (∪)), (idemp_L (∪)).
    by apply subseteq_union_1_L, singleton_subseteq_l.
  - rewrite Hcells2, Hcells1, <- !list_fmap_compose.
    apply list_fmap_ext. intros _ ir _. apply standardize_channel_spec.
Qed.

(** Stage 4 fails only where the accessor does. *)
Lemma standardize_channel_type_accessor `{M : Str.Methods} df :
  "open_data_channel_type" ∈ columns df →
  str_accessor (cell "open_data_channel_type" ∘ snd <$> rows df) = Ok () →
  ∃ df', standardize_channel_type df = Ok df'.
Proof.
  intros Hc Hacc.
  destruct (update_col "open_data_channel_type" (str_strip ∘ str_upper) df)
    as [df1|e] eqn:E1.
  2:{ unfold update_col in E1. rewrite (proj2 (get_col_Ok _ _ _) (conj Hc eq_refl))
        in E1. discriminate. }
  destruct (update_col_cells _ _ _ _ E1) as (_ & _ & Hc1 & _).
  destruct (update_col "open_data_channel_type"
              (fillna (VStr "Web") ∘ map_dict channel_mapping) df1)
    as [df2|e] eqn:E2.
  2:{ unfold update_col in E2. rewrite (proj2 (get_col_Ok _ _ _) (conj Hc1 eq_refl))
        in E2. discriminate. }
  exists df2. apply standardize_channel_type_Ok. eauto.
Qed.

Lemma str_accessor_error col e :
  str_accessor col = Raise e → e = AttributeError.
Proof.
  unfold str_accessor.
  repeat match goal with
         | |- (if ?b then _ else _) = _ → _ => destruct b; try discriminate
         end.
  by intros [= <-].
Qed.

Lemma standardize_channel_type_error `{M : Str.Methods} df e :
  "open_data_channel_type" ∈ columns df →
  standardize_channel_type df = Raise e → e = AttributeError.
Proof.
  intros Hc.
  destruct (str_accessor (cell "open_data_channel_type" ∘ snd <$> rows df))
    as [[]|e0] eqn:Eacc.
  - destruct (standardize_channel_type_accessor df Hc Eacc) as [df' ->].
    discriminate.
  - unfold standardize_channel_type.
    rewrite (proj2 (get_col_Ok "open_data_channel_type" df
                      (cell "open_data_channel_type" ∘ snd <$> rows df))
               (conj Hc eq_refl)).
    cbn [mbind result_bind].
    assert (str_method Str.upper
              (cell "open_data_channel_type" ∘ snd <$> rows df) = Raise e0)
      as -> by (unfold str_method; by rewrite Eacc).
    cbn [mbind result_bind]. intros [= <-]. by eapply str_accessor_error.
Qed.

(** C5.  Whenever stage 4 returns a frame it has left in the channel
    column, row by row, the value the fixed lookup gives for the uppercased
    and trimmed input: [Phone] for PHONE, [App] for MOBILE, [Web] for
    ONLINE, UNKNOWN, OTHER, for every other string and for every cell that
    is not a string, a missing one included.  So every value is one of
    [Phone], [Web], [App].  Uppercasing and trimming are Python's, whatever
    they do to the string.  The stage does return a frame when the column
    holds at least one string: the only way it fails on a table with the
    column is the [.str] accessor refusing a column of numbers or of
    timestamps. *)
Theorem channel_totality `{M : Str.Methods} df :
  (∀ df',
     standardize_channel_type df = Ok df' →
     index df' = index df
     ∧ (cell "open_data_channel_type" ∘ snd <$> rows df')
       = (VStr ∘ channel_spec ∘ cell "open_data_channel_type" ∘ snd
            <$> rows df)
     ∧ Forall (λ v, v ∈ [VStr "Phone"; VStr "Web"; VStr "App"])
         (cell "open_data_channel_type" ∘ snd <$> rows df'))
  ∧ ("open_data_channel_type" ∈ columns df →
     existsb is_str (cell "open_data_channel_type" ∘ snd <$> rows df) = true →
     ∃ df', standardize_channel_type df = Ok df')
  ∧ ("open_data_channel_type" ∈ columns df →
     ∀ e, standardize_channel_type df = Raise e → e = AttributeError)
  ∧ (∀ v, channel_spec v ∈ ["Phone"; "Web"; "App"])
  ∧ (∀ s, Str.strip (Str.upper s) = "PHONE" → channel_spec (VStr s) = "Phone")
  ∧ (∀ s, Str.strip (Str.upper s) = "MOBILE" → channel_spec (VStr s) = "App")
  ∧ (∀ s, Str.strip (Str.upper s) ≠ "PHONE" →
          Str.strip (Str.upper s) ≠ "MOBILE" →
          channel_spec (VStr s) = "Web")
  ∧ (∀ v, is_str v = false → channel_spec v = "Web").
Proof.
  split; [|split; [|split]].
  - intros df' (_ & _ & Hidx & Hcells)%standardize_channel_type_column.
    split; [done|]. split; [done|].
    rewrite Hcells. apply Forall_fmap, Forall_true. intros ir. simpl.
    pose proof (channel_spec_range (cell "open_data_channel_type" ir.2)) as H.
    repeat (apply elem_of_cons in H as [->|H]; [set_solver|]).
    by apply elem_of_nil in H.
  - intros Hc Hstr. apply standardize_channel_type_accessor; [done|].
    unfold str_accessor. by rewrite Hstr.
  - intros Hc e. by apply standardize_channel_type_error.
  - split; [apply channel_spec_range|]. unfold channel_spec.
    repeat split; intros; repeat case_decide; try congruence.
    by destruct v.
Qed.

(** The channels of the sample table. *)
Lemma channel_totality_witness :
  ∃ df',
    standardize_channel_type (M:=Str.ascii_methods)
      (from_records Samples.records) = Ok df'
    ∧ (cell "open_data_channel_type" ∘ snd <$> rows df')
      = [VStr "Phone"; VStr "Web"; VStr "App"; VStr "App"; VStr "Web";
         VStr "App"].
Proof.
  destruct (channel_totality (M:=Str.ascii_methods)
              (from_records Samples.records)) as (Hcells & Hok & _).
  destruct Hok as [df' Heq].
  - apply (bool_decide_unpack _). vm_compute. exact I.
  - vm_compute. reflexivity.
  - exists df'. split; [exact Heq|].
    destruct (Hcells df' Heq) as (_ & -> & _). vm_compute. reflexivity.
Defined.

(** ** Stage 5 *)

Lemma value_eqb_sym a b : value_eqb a b = value_eqb b a.
Proof.
  destruct a as [|s|t|p], b as [|s'|t'|p']; simpl; try reflexivity.
  - apply bool_decide_ext. split; congruence.
  - apply Z.eqb_sym.
  - destruct (Qeq_bool p p') eqn:E1, (Qeq_bool p' p) eqn:E2; try reflexivity.
    + apply Qeq_bool_sym in E1. congruence.
    + apply Qeq_bool_sym in E2. congruence.
Qed.

Section Dedup.

Variable key : string.

Let keyf : Z * row → value := cell key ∘ snd.
Let differ (r1 r2 : Z * row) : Prop := value_eqb (keyf r1) (keyf r2) = false.

(** The rows [remove_duplicates] keeps, with the keys seen so far. *)
Definition dedup (seen : list value) (rs : list (Z * row)) : list (Z * row) :=
  mask_rows rs (negb <$> duplicated seen (keyf <$> rs)).

Lemma dedup_cons seen r rs :
  dedup seen (r :: rs)
  = if existsb (value_eqb (keyf r)) seen then dedup (keyf r :: seen) rs
    else r :: dedup (keyf r :: seen) rs.
Proof. unfold dedup. simpl. by destruct (existsb _ _). Qed.

Lemma dedup_unseen seen rs :
  Forall (λ r, r ∈ rs ∧ existsb (value_eqb (keyf r)) seen = false)
    (dedup seen rs).
Proof.
  revert seen. induction rs as [|r rs IH]; intros seen; [constructor|].
  rewrite dedup_cons.
  assert (Htl : Forall (λ r',
            r' ∈ r :: rs ∧ existsb (value_eqb (keyf r')) seen = false)
            (dedup (keyf r :: seen) rs)).
  { eapply Forall_impl; [|exact (IH (keyf r :: seen))].
    intros r' [Hin Hex]. simpl in Hex.
    apply orb_false_iff in Hex as [_ Hex]. split; [by right|done]. }
  destruct (existsb _ seen) eqn:E; [done|].
  constructor; [split; [by left|done]|done].
Qed.

Lemma dedup_distinct seen rs : StronglySorted differ (dedup seen rs).
Proof.
  revert seen. induction rs as [|r rs IH]; intros seen; [constructor|].
  rewrite dedup_cons. destruct (existsb _ seen); [apply IH|].
  constructor; [apply IH|].
  eapply Forall_impl; [|exact (dedup_unseen (keyf r :: seen) rs)].
  intros r' [_ Hex]. simpl in Hex. apply orb_false_iff in Hex as [Hex _].
  unfold differ. by rewrite value_eqb_sym.
Qed.

(** Rows with distinct, unseen keys all stay. *)
Lemma dedup_fixed seen rs :
  StronglySorted differ rs →
  Forall (λ r, existsb (value_eqb (keyf r)) seen = false) rs →
  dedup seen rs = rs.
Proof.
  intros Hsorted. revert seen.
  induction Hsorted as [|r rs Hrs IH Hr]; intros seen Hseen; [done|].
  inversion_clear Hseen as [|? ? Hr0 Hseen'].
  rename Hseen' into Hseen. rewrite dedup_cons, Hr0. f_equal. apply IH.
  apply Forall_forall. intros r' Hr'. simpl.
  rewrite Forall_forall in Hseen, Hr.
  rewrite (Hseen r' Hr'), orb_false_r, value_eqb_sym. by apply Hr.
Qed.

Lemma dedup_idempotent rs : dedup [] (dedup [] rs) = dedup [] rs.
Proof.
  apply dedup_fixed; [apply dedup_distinct|].
  eapply Forall_impl; [|exact (dedup_unseen [] rs)]. by intros r [_ ?].
Qed.

Lemma dedup_first_occurrences seen before rs :
  (∀ k, existsb (value_eqb k) seen
        = negb (forallb (λ r', negb (value_eqb k (keyf r'))) before)) →
  dedup seen rs = first_occurrences key before rs.
Proof.
  revert seen before. induction rs as [|r rs IH]; intros seen before Hinv;
    [done|].
  rewrite dedup_cons. cbn [first_occurrences].
  rewrite (IH (keyf r :: seen) (before ++ [r])).
  - rewrite Hinv. fold (keyf r). by destruct (forallb _ before).
  - intros k. simpl. rewrite forallb_app, Hinv. simpl.
    destruct (forallb _ before), (value_eqb k (keyf r)); reflexivity.
Qed.

Lemma distinct_keys_sorted rs : StronglySorted differ rs → distinct_keys key rs.
Proof.
  induction 1 as [|r rs Hrs IH Hr]; intros i j ri rj Hij Hi Hj.
  - by rewrite lookup_nil in Hi.
  - destruct j as [|j]; [lia|]. destruct i as [|i]; simpl in Hi, Hj.
    + injection Hi as <-. rewrite Forall_forall in Hr.
      apply Hr, list_elem_of_In. by eapply list_elem_of_lookup_2.
    + eapply IH; [|exact Hi|exact Hj]. lia.
Qed.

End Dedup.

Lemma remove_duplicates_Ok df key :
  key ∈ columns df →
  remove_duplicates df key
  = Ok {| columns := columns df; rows := dedup key [] (rows df) |}.
Proof.
  intros Hc. unfold remove_duplicates.
  rewrite (proj2 (get_col_Ok _ _ _) (conj Hc eq_refl)). reflexivity.
Qed.

(** C6.  Stage 5 succeeds on every table that has the key column; running
    it again on its output returns that output unchanged; no two rows of
    the output have equal keys; and the output consists of the first
    occurrences: the rows, in input order, that no earlier row shares its
    key with. *)
Theorem remove_duplicates_idempotent df key :
  key ∈ columns df →
  ∃ df',
    remove_duplicates df key = Ok df'
    ∧ remove_duplicates df' key = Ok df'
    ∧ columns df' = columns df
    ∧ distinct_keys key (rows df')
    ∧ rows df' = first_occurrences key [] (rows df).
Proof.
  intros Hc. eexists. split; [by apply remove_duplicates_Ok|].
  split; [|split; [done|split]].
  - rewrite remove_duplicates_Ok by done. simpl. by rewrite dedup_idempotent.
  - apply distinct_keys_sorted, dedup_distinct.
  - simpl. by apply dedup_first_occurrences.
Qed.

(** The sample table has the key 1 twice: row 1 goes. *)
Lemma remove_duplicates_idempotent_witness :
  ∃ df', remove_duplicates (from_records Samples.records) "unique_key" = Ok df'
         ∧ remove_duplicates df' "unique_key" = Ok df'
         ∧ index df' = [0; 2; 3; 4; 5].
Proof.
  destruct (remove_duplicates_idempotent (from_records Samples.records)
              "unique_key")
    as (df' & Heq & Hagain & _ & _ & Hrows).
  - apply (bool_decide_unpack _). vm_compute. exact I.
  - exists df'. split; [exact Heq|]. split; [exact Hagain|].
    unfold index. rewrite Hrows. vm_compute. reflexivity.
Defined.

(** ** Stage 6 *)

Lemma clip_upper_bound t v y :
  clip_upper (Some t) v = VNum y → (y <= t)%Q.
Proof.
  destruct v as [|s|ns|x]; simpl; try discriminate.
  destruct (Qle_bool x t) eqn:E; intros [= <-].
  - by apply Qle_bool_iff.
  - apply Qle_refl.
Qed.

Lemma clip_upper_below t x :
  (x <= t)%Q → clip_upper (Some t) (VNum x) = VNum x.
Proof. intros H. simpl. by rewrite (proj2 (Qle_bool_iff x t) H). Qed.

Lemma clip_upper_above t x :
  (t < x)%Q → clip_upper (Some t) (VNum x) = VNum t.
Proof.
  intros H. simpl. destruct (Qle_bool x t) eqn:E; [|done].
  apply Qle_bool_iff in E. by apply Qlt_not_le in H.
Qed.

Lemma clip_upper_null threshold v :
  clip_upper threshold v = VNull ↔ v = VNull.
Proof.
  destruct threshold as [t|], v as [|s|ns|x]; simpl; try done.
  destruct (Qle_bool x t); split; discriminate.
Qed.

(** C7.  Whenever stage 6 returns a frame for a table with the response
    time column, the threshold is the quantile at [percentile / 100] of
    the response times of the input; every response time of the output is
    at most the threshold; a response time of the input that is at most
    the threshold is unchanged, one above it becomes the threshold, and
    missing values stay missing.  Rows and their order are untouched. *)
Theorem winsorize_caps df percentile df' :
  "response_time_days" ∈ columns df →
  winsorize_response_time df percentile = Ok df' →
  let col := cell "response_time_days" ∘ snd <$> rows df in
  let col' := cell "response_time_days" ∘ snd <$> rows df' in
  ∃ xs threshold,
    mapM as_float col = Ok xs
    ∧ quantile (percentile / 100) xs = Ok threshold
    ∧ index df' = index df
    ∧ length col' = length col
    ∧ (∀ t i y, threshold = Some t → col' !! i = Some (VNum y) → (y <= t)%Q)
    ∧ (∀ t i x, threshold = Some t → col !! i = Some (VNum x) → (x <= t)%Q →
         col' !! i = Some (VNum x))
    ∧ (∀ t i x, threshold = Some t → col !! i = Some (VNum x) → (t < x)%Q →
         col' !! i = Some (VNum t))
    ∧ (∀ i, col' !! i = Some VNull ↔ col !! i = Some VNull)
    ∧ (threshold = None → col' = col).
Proof.
  intros Hc H col col'. unfold winsorize_response_time in H.
  rewrite decide_True in H by done.
  apply bind_Ok in H as (col0 & [_ ->]%get_col_Ok & H). fold col in H.
  apply bind_Ok in H as (xs & Hxs & H).
  apply bind_Ok in H as (threshold & Hq & [= <-]).
  assert (Hlen : length (clip_upper threshold <$> col) = length (rows df))
    by (unfold col; by rewrite !length_fmap).
  assert (Hcol' : col' = (clip_upper threshold <$> col))
    by (unfold col'; simpl; by rewrite cells_set_col).
  exists xs, threshold. rewrite Hcol'.
  split; [done|]. split; [done|]. split; [by apply index_set_col_eq|].
  split; [by rewrite length_fmap|].
  split; [|split; [|split; [|split]]].
  - intros t i y -> Hi. rewrite list_lookup_fmap in Hi.
    destruct (col !! i) as [v|]; [|discriminate]. injection Hi as Hi.
    by eapply clip_upper_bound.
  - intros t i x -> Hi Hle. rewrite list_lookup_fmap, Hi. simpl.
    f_equal. by apply clip_upper_below.
  - intros t i x -> Hi Hlt. rewrite list_lookup_fmap, Hi. simpl.
    f_equal. by apply clip_upper_above.
  - intros i. rewrite list_lookup_fmap.
    destruct (col !! i) as [v|]; simpl; [|done].
    split; intros [= Hv]; f_equal.
    + by apply clip_upper_null in Hv.
    + by apply clip_upper_null.
  - intros ->. rewrite <- (list_fmap_id col) at 2.
    apply list_fmap_ext. intros _ v _. by destruct v.
Qed.

Lemma percentile_in_range percentile :
  (0 <= percentile)%Q → (percentile <= 100)%Q →
  Qle_bool 0 (percentile / 100) && Qle_bool (percentile / 100) 1 = true.
Proof.
  intros H0 H100. apply andb_true_iff. split; apply Qle_bool_iff.
  - apply Qle_shift_div_l; [reflexivity|]. by rewrite Qmult_0_l.
  - apply Qle_shift_div_r; [reflexivity|]. by rewrite Qmult_1_l.
Qed.

(** Stage 6 returns a frame for every percentile between 0 and 100 when
    the response times are numbers or missing. *)
Lemma winsorize_succeeds df percentile :
  Forall (λ v, v = VNull ∨ ∃ x, v = VNum x)
    (cell "response_time_days" ∘ snd <$> rows df) →
  (0 <= percentile)%Q → (percentile <= 100)%Q →
  ∃ df', winsorize_response_time df percentile = Ok df'.
Proof.
  intros Hnum H0 H100. unfold winsorize_response_time.
  destruct (decide _) as [Hc|]; [|eauto].
  rewrite (proj2 (get_col_Ok _ _ _) (conj Hc eq_refl)). simpl.
  assert (∃ xs, mapM as_float (cell "response_time_days" ∘ snd <$> rows df)
                = Ok xs) as [xs ->].
  { induction Hnum as [|v l Hv _ [xs IH]]; [by exists []|].
    simpl. rewrite IH. destruct Hv as [->|[x ->]]; simpl; eauto. }
  simpl. unfold quantile. rewrite percentile_in_range by done.
  destruct (Sorting.sort_by _ _); simpl; eauto.
Qed.

(** The median of 1, 2 and 10 days is 2 days: the 10 is capped. *)
Lemma winsorize_caps_witness :
  ∃ df', winsorize_response_time Samples.timed 50 = Ok df'
         ∧ ∀ i y, (cell "response_time_days" ∘ snd <$> rows df') !! i
                  = Some (VNum y) → (y <= 2)%Q.
Proof.
  destruct (winsorize_response_time Samples.timed 50) as [df'|e] eqn:E;
    [|vm_compute in E; discriminate E].
  exists df'. split; [reflexivity|].
  destruct (winsorize_caps Samples.timed 50 df')
    as (xs & th & Hxs & Hq & _ & _ & Hb & _).
  - apply (bool_decide_unpack _). vm_compute. exact I.
  - exact E.
  - vm_compute in Hxs. injection Hxs as <-.
    vm_compute in Hq. injection Hq as <-.
    intros i y Hi. eapply Qle_trans; [exact (Hb _ i y eq_refl Hi)|].
    by compute.
Defined.

(** ** Stage 7 *)

(** *** The insertion sort *)
Section SortBy.

Context {A : Type} (le : A → A → bool).

Let R (x y : A) : Prop := le x y = true.

Lemma insert_by_Permutation x l : Sorting.insert_by le x l ≡ₚ x :: l.
Proof.
  induction l as [|y l IH]; simpl; [done|].
  destruct (le x y); [done|]. rewrite IH. apply Permutation_swap.
Qed.

Lemma sort_by_Permutation l : Sorting.sort_by le l ≡ₚ l.
Proof.
  induction l as [|x l IH]; simpl; [done|].
  by rewrite insert_by_Permutation, IH.
Qed.

Hypothesis le_total : ∀ x y, le x y = false → le y x = true.
Hypothesis le_trans : ∀ x y z, le x y = true → le y z = true → le x z = true.

Lemma insert_by_sorted x l :
  StronglySorted R l → StronglySorted R (Sorting.insert_by le x l).
Proof.
  induction 1 as [|y l Hl IH Hy]; simpl; [repeat constructor|].
  destruct (le x y) eqn:E.
  - constructor; [by constructor|]. constructor; [done|].
    eapply Forall_impl; [|exact Hy]. intros z Hz. by eapply le_trans.
  - constructor; [done|]. rewrite insert_by_Permutation.
    constructor; [by apply le_total|done].
Qed.

Lemma sort_by_sorted l : StronglySorted R (Sorting.sort_by le l).
Proof.
  induction l as [|x l IH]; simpl; [constructor|by apply insert_by_sorted].
Qed.

End SortBy.

(** *** Equality of values *)

Lemma value_eqb_refl a : value_eqb a a = true.
Proof.
  destruct a as [|s|t|q]; simpl; [done|by apply bool_decide_eq_true| |].
  - apply Z.eqb_refl.
  - apply Qeq_bool_refl.
Qed.

Lemma value_eqb_trans a b c :
  value_eqb a b = true → value_eqb b c = true → value_eqb a c = true.
Proof.
  destruct a as [|s|t|p], b as [|s'|t'|p'], c as [|s''|t''|p'']; simpl;
    try done.
  - intros ->%bool_decide_eq_true ->%bool_decide_eq_true.
    by apply bool_decide_eq_true.
  - intros ->%Z.eqb_eq ->%Z.eqb_eq. apply Z.eqb_refl.
  - apply Qeq_bool_trans.
Qed.

Lemma value_eqb_notna a b : value_eqb a b = true → notna a = notna b.
Proof. by destruct a, b. Qed.

Lemma value_eqb_str s v : value_eqb (VStr s) v = true ↔ v = VStr s.
Proof.
  destruct v as [|s'|t|q]; simpl; split; try done.
  - by intros ->%bool_decide_eq_true.
  - intros [= ->]. by apply bool_decide_eq_true.
Qed.

Lemma value_eqb_cong a b c :
  value_eqb a b = true → value_eqb a c = value_eqb b c.
Proof.
  intros Hab. destruct (value_eqb b c) eqn:Hbc.
  - by eapply value_eqb_trans.
  - destruct (value_eqb a c) eqn:Hac; [|done].
    rewrite value_eqb_sym in Hab.
    by rewrite (value_eqb_trans _ _ _ Hab Hac) in Hbc.
Qed.

Lemma count_of_cong a b l :
  value_eqb a b = true → count_of a l = count_of b l.
Proof.
  intros Hab. unfold count_of. do 2 f_equal.
  apply list_filter_iff. intros y. by rewrite (value_eqb_cong a b y).
Qed.

(** *** Distinct values *)

Lemma unique_subseteq l k : k ∈ unique l → k ∈ l.
Proof.
  revert k. induction l as [|x l IH]; intros k; simpl; [done|].
  intros [->|[_ H]%list_elem_of_filter]%elem_of_cons; [by left|].
  right. by apply IH.
Qed.

Lemma unique_covers l v : v ∈ l → ∃ k, k ∈ unique l ∧ value_eqb k v = true.
Proof.
  induction l as [|x l IH]; simpl; [by intros ?%elem_of_nil|].
  intros [->|Hv]%elem_of_cons.
  - exists x. split; [by left|apply value_eqb_refl].
  - destruct (IH Hv) as (k & Hk & Hkv).
    destruct (value_eqb x k) eqn:E.
    + exists x. split; [by left|by eapply value_eqb_trans].
    + exists k. split; [|done]. right. apply list_elem_of_filter.
      split; [|done]. by rewrite E.
Qed.

Lemma unique_distinct l :
  StronglySorted (λ a b, value_eqb a b = false) (unique l).
Proof.
  induction l as [|x l IH]; simpl; [constructor|]. constructor.
  - revert IH. generalize (unique l). intros u Hu.
    induction Hu as [|y u Hu IHu Hy]; [constructor|].
    rewrite filter_cons. destruct (decide _); [|done].
    constructor; [done|]. apply Forall_forall. intros z Hz.
    apply list_elem_of_In, list_elem_of_filter in Hz as [_ Hz].
    rewrite Forall_forall in Hy. by apply Hy, list_elem_of_In.
  - apply Forall_forall. intros y Hy.
    apply list_elem_of_In, list_elem_of_filter in Hy as [Hy _].
    by destruct (value_eqb x y).
Qed.

(** *** Frequencies *)

Lemma mask_rows_fmap (p : Z * row → bool) rs :
  mask_rows rs (p <$> rs) = filter (λ r, p r) rs.
Proof.
  induction rs as [|r rs IH]; [done|].
  change (mask_rows (r :: rs) (p <$> r :: rs))
    with (if p r then r :: mask_rows rs (p <$> rs)
          else mask_rows rs (p <$> rs)).
  rewrite filter_cons, IH. by destruct (p r).
Qed.

Lemma filter_ext_elem_of {A} (P1 P2 : A → Prop)
    `{!∀ x, Decision (P1 x), !∀ x, Decision (P2 x)} (l : list A) :
  (∀ x, x ∈ l → P1 x ↔ P2 x) → filter P1 l = filter P2 l.
Proof.
  induction l as [|a l IH]; intros Hiff; [done|].
  rewrite !filter_cons, IH by (intros x Hx; apply Hiff; by right).
  apply decide_ext, Hiff. by left.
Qed.

Lemma isin_true K v :
  isin K v = true ↔ ∃ k, k ∈ K ∧ value_eqb v k = true.
Proof.
  unfold isin. rewrite existsb_exists.
  split; intros (k & Hk & E); exists k; split; try done; by apply list_elem_of_In.
Qed.

Section Counts.

Variable col : list value.

Let vals := filter (λ v, notna v) col.
Let freq (v : value) : Z := count_of v vals.
Let more (a b : value * Z) : Prop := (b.2 <=? a.2) = true.

Lemma value_counts_Permutation :
  value_counts col ≡ₚ (λ k, (k, freq k)) <$> unique vals.
Proof. apply sort_by_Permutation. Qed.

Lemma value_counts_sorted : StronglySorted more (value_counts col).
Proof.
  apply (sort_by_sorted (λ a b : value * Z, b.2 <=? a.2)).
  - intros x y H. apply Z.leb_le. apply Z.leb_gt in H. lia.
  - intros x y z H1%Z.leb_le H2%Z.leb_le. apply Z.leb_le. lia.
Qed.

Lemma elem_of_value_counts k c :
  (k, c) ∈ value_counts col ↔ k ∈ unique vals ∧ c = freq k.
Proof.
  rewrite value_counts_Permutation, list_elem_of_fmap. split.
  - by intros (k' & [= -> ->] & Hk).
  - intros [Hk ->]. by exists k.
Qed.

Lemma value_counts_keys : (value_counts col).*1 ≡ₚ unique vals.
Proof.
  rewrite value_counts_Permutation, <- list_fmap_compose.
  by rewrite list_fmap_id.
Qed.

Lemma elem_of_vals v : v ∈ vals ↔ notna v = true ∧ v ∈ col.
Proof.
  unfold vals. by rewrite list_elem_of_filter, Is_true_true.
Qed.

(** Every value of the column that is present has its entry. *)
Lemma value_counts_covers v :
  v ∈ vals → ∃ k, (k, freq v) ∈ value_counts col ∧ value_eqb k v = true.
Proof.
  intros (k & Hk & E)%unique_covers. exists k. split; [|done].
  apply elem_of_value_counts. split; [done|].
  symmetry. by apply count_of_cong.
Qed.

(** With a minimum count, the types kept are those at least that
    frequent. *)
Lemma isin_min_count n_top m v :
  v ∈ col →
  isin (top_types (value_counts col) n_top (Some m)) v = true
  ↔ notna v = true ∧ m ≤ freq v.
Proof.
  intros Hv. rewrite isin_true. cbn [top_types]. split.
  - intros (k & Hk & E). apply list_elem_of_fmap in Hk as ([k' c] & -> & Hk).
    apply list_elem_of_filter in Hk as [Hm Hk]. simpl in *.
    apply elem_of_value_counts in Hk as [Hk ->].
    apply unique_subseteq, elem_of_vals in Hk as [Hna _].
    split; [by rewrite (value_eqb_notna _ _ E)|].
    unfold freq. by rewrite (count_of_cong _ _ _ E).
  - intros [Hna Hm].
    destruct (value_counts_covers v) as (k & Hk & E);
      [by apply elem_of_vals|].
    exists k. split; [|by rewrite value_eqb_sym].
    apply list_elem_of_fmap. exists (k, freq v). split; [done|].
    by apply list_elem_of_filter.
Qed.

End Counts.

(** *** The most frequent types *)

Lemma distinct_Permutation l1 l2 :
  l1 ≡ₚ l2 →
  StronglySorted (λ a b, value_eqb a b = false) l1 →
  StronglySorted (λ a b, value_eqb a b = false) l2.
Proof.
  induction 1 as [|x l l' Hperm IH|x y l|l l' l'' _ IH1 _ IH2]; intros Hs.
  - done.
  - apply StronglySorted_cons in Hs as [Hx Hl].
    apply StronglySorted_cons. split; [by rewrite <- Hperm|by apply IH].
  - apply StronglySorted_cons in Hs as [Hy Hs].
    apply StronglySorted_cons in Hs as [Hx Hl].
    inversion_clear Hy as [|? ? Hyx Hyl].
    apply StronglySorted_cons. split.
    + constructor; [by rewrite value_eqb_sym|done].
    + apply StronglySorted_cons. by split.
  - auto.
Qed.

Section TopN.

Variable col : list value.
Variable N : nat.

Let vals := filter (λ v, notna v) col.
Let freq (v : value) : Z := count_of v vals.
Let kept : list value := (take N (value_counts col)).*1.

Lemma head_nonneg {A} (n : Z) (l : list A) :
  0 ≤ n → head (Some n) l = take (Z.to_nat n) l.
Proof. intros H. unfold head. by rewrite (proj2 (Z.leb_le 0 n) H). Qed.

Lemma top_n_length : length kept = (N `min` length (unique vals))%nat.
Proof.
  unfold kept. rewrite length_fmap, length_take.
  by rewrite (Permutation_length (value_counts_Permutation col)), length_fmap.
Qed.

Lemma top_n_distinct :
  StronglySorted (λ a b, value_eqb a b = false) kept.
Proof.
  unfold kept. rewrite fmap_take.
  apply (StronglySorted_app_1_l _ _ (drop N (value_counts col).*1)).
  rewrite take_drop.
  apply (distinct_Permutation (unique vals)); [|apply unique_distinct].
  symmetry. apply value_counts_keys.
Qed.

Lemma top_n_elem_of k :
  k ∈ kept ↔ (k, freq k) ∈ take N (value_counts col).
Proof.
  unfold kept. rewrite list_elem_of_fmap. split.
  - intros ([k' c] & -> & Hk). simpl.
    assert ((k', c) ∈ value_counts col) as [_ ->]%elem_of_value_counts
      by (eapply elem_of_sublist; [exact Hk|apply sublist_take]).
    done.
  - intros Hk. by exists (k, freq k).
Qed.

Lemma top_n_in_vals k : k ∈ kept → k ∈ vals.
Proof.
  intros Hk%top_n_elem_of.
  assert ((k, freq k) ∈ value_counts col) as [Hu _]%elem_of_value_counts
    by (eapply elem_of_sublist; [exact Hk|apply sublist_take]).
  by apply unique_subseteq.
Qed.

(** No type that is left out is more frequent than one that is kept. *)
Lemma top_n_most_frequent k v :
  k ∈ kept → v ∈ vals → isin kept v = false → freq v ≤ freq k.
Proof.
  intros Hk%top_n_elem_of Hv Hout.
  destruct (value_counts_covers col v Hv) as (k' & Hk' & E).
  fold vals in Hk'. fold (freq v) in Hk'.
  rewrite <- (take_drop N (value_counts col)) in Hk'.
  apply elem_of_app in Hk' as [Hk'|Hk'].
  - assert (isin kept v = true); [|congruence].
    apply isin_true. exists k'. split; [|by rewrite value_eqb_sym].
    unfold kept. apply list_elem_of_fmap. by exists (k', freq v).
  - pose proof (value_counts_sorted col) as Hs.
    rewrite <- (take_drop N (value_counts col)) in Hs.
    pose proof (StronglySorted_app_1_elem_of _ _ _ _ _ Hs Hk Hk') as Hle.
    simpl in Hle. by apply Z.leb_le in Hle.
Qed.

End TopN.

(** *** Four types with 50, 30, 10 and 5 rows *)

Lemma count_of_pos v l :
  0 < count_of v l → ∃ y, y ∈ l ∧ value_eqb v y = true.
Proof.
  unfold count_of. intros H.
  destruct (filter (λ y, value_eqb v y) l) as [|y f] eqn:E; [simpl in H; lia|].
  assert (y ∈ filter (λ y, value_eqb v y) l) as [Hy ?]%list_elem_of_filter
    by (rewrite E; by left).
  exists y. split; [done|]. by apply Is_true_true.
Qed.

Lemma distinct_NoDup l :
  StronglySorted (λ a b, value_eqb a b = false) l → NoDup l.
Proof.
  induction 1 as [|x l _ IH Hx]; constructor; [|done].
  intros Hin. rewrite Forall_forall in Hx.
  apply list_elem_of_In, Hx in Hin. by rewrite value_eqb_refl in Hin.
Qed.

Definition four_types : list value :=
  [VStr "A"; VStr "B"; VStr "C"; VStr "D"].

Lemma four_types_counts col :
  let vals := filter (λ v, notna v) col in
  (∀ v, v ∈ vals → v ∈ four_types) →
  count_of (VStr "A") vals = 50 →
  count_of (VStr "B") vals = 30 →
  count_of (VStr "C") vals = 10 →
  count_of (VStr "D") vals = 5 →
  value_counts col
  = [(VStr "A", 50); (VStr "B", 30); (VStr "C", 10); (VStr "D", 5)].
Proof.
  intros vals Hall HA HB HC HD.
  assert (Hin : ∀ s n, count_of (VStr s) vals = n → 0 < n →
                  VStr s ∈ unique vals).
  { intros s n Hn Hpos. rewrite <- Hn in Hpos.
    apply count_of_pos in Hpos as (y & Hy & ->%value_eqb_str).
    apply unique_covers in Hy as (k & Hk & E).
    rewrite value_eqb_sym in E. by apply value_eqb_str in E as ->. }
  assert (Hperm : unique vals ≡ₚ four_types).
  { apply NoDup_Permutation.
    - apply distinct_NoDup, unique_distinct.
    - unfold four_types.
      repeat (apply NoDup_cons_2;
              [rewrite ?not_elem_of_cons; repeat split; try discriminate;
               apply not_elem_of_nil|]).
      apply NoDup_nil_2.
    - intros x. split; [intros Hx; by apply Hall, unique_subseteq|].
      unfold four_types. rewrite !elem_of_cons, elem_of_nil.
      intros [->|[->|[->|[->|[]]]]]; eauto using Hin with lia. }
  apply (StronglySorted_unique_strong
           (λ a b : value * Z, (b.2 <=? a.2) = true)).
  - intros x1 x2 Hx1 Hx2 H12 H21.
    rewrite value_counts_Permutation in Hx1. fold vals in Hx1.
    rewrite Hperm in Hx1. unfold four_types in Hx1. simpl in Hx1.
    rewrite HA, HB, HC, HD in Hx1.
    repeat (apply elem_of_cons in Hx1 as [->|Hx1]);
      [| | | |by apply elem_of_nil in Hx1];
      repeat (apply elem_of_cons in Hx2 as [->|Hx2]);
      try (by apply elem_of_nil in Hx2); try done.
  - apply value_counts_sorted.
  - repeat constructor.
  - rewrite value_counts_Permutation. fold vals. rewrite Hperm.
    unfold four_types. simpl. by rewrite HA, HB, HC, HD.
Qed.

(** *** The selection *)

Lemma select_top_Ok df n_top min_count :
  "complaint_type" ∈ columns df →
  let cat : Z * row → value := cell "complaint_type" ∘ snd in
  select_top_complaint_types df n_top min_count
  = Ok {| columns := columns df;
          rows := filter
                    (λ ir, isin (top_types (value_counts (cat <$> rows df))
                                   n_top min_count) (cat ir))
                    (rows df) |}.
Proof.
  intros Hc cat. unfold select_top_complaint_types.
  rewrite (proj2 (get_col_Ok _ _ _) (conj Hc eq_refl)). simpl.
  unfold select. simpl. fold cat. do 2 f_equal.
  rewrite <- list_fmap_compose. apply mask_rows_fmap.
Qed.

Lemma isin_two a b v :
  isin [VStr a; VStr b] v = true ↔ v = VStr a ∨ v = VStr b.
Proof.
  unfold isin. simpl. rewrite orb_false_r, orb_true_iff.
  rewrite !(value_eqb_sym v), !value_eqb_str. done.
Qed.

Lemma four_types_check l :
  forallb (isin four_types) l = true → ∀ v, v ∈ l → v ∈ four_types.
Proof.
  intros H v Hv. rewrite forallb_forall in H.
  apply list_elem_of_In, H, isin_true in Hv as (k & Hk & E).
  unfold four_types in Hk.
  repeat (apply elem_of_cons in Hk as [->|Hk];
          [rewrite value_eqb_sym in E; apply value_eqb_str in E as ->;
           unfold four_types; set_solver|]).
  by apply elem_of_nil in Hk.
Qed.

(** C8.  Stage 7 on a table with the complaint type column.
    - With a minimum count, whatever [n_top] is, the rows kept are those
      whose type is present and has at least that frequency.
    - Without one and with [n_top = N ≥ 0], the types kept are the first
      [N] of the frequency ranking: [N] distinct types of the table (all
      of them if there are fewer than [N]), none less frequent than a
      type that is left out; the rows kept are those of these types.
    - For the frequencies A:50, B:30, C:10, D:5 and [n_top = 2] the rows
      kept are those of type A or B.
    - The driver runs stage 7 on the outcome of stages 1 to 6 when one of
      the two options is given, and returns that outcome as it is when
      neither is. *)
Theorem select_top_selection `{M : Str.Methods} df :
  "complaint_type" ∈ columns df →
  let cat : Z * row → value := cell "complaint_type" ∘ snd in
  let vals := filter (λ v, notna v) (cat <$> rows df) in
  let freq v := count_of v vals in
  (∀ n_top m, ∃ df',
      select_top_complaint_types df n_top (Some m) = Ok df'
      ∧ rows df'
        = filter (λ ir, notna (cat ir) = true ∧ m ≤ freq (cat ir)) (rows df))
  ∧ (∀ N, 0 ≤ N → ∃ df' kept,
      select_top_complaint_types df (Some N) None = Ok df'
      ∧ kept = (take (Z.to_nat N) (value_counts (cat <$> rows df))).*1
      ∧ rows df' = filter (λ ir, isin kept (cat ir)) (rows df)
      ∧ length kept = (Z.to_nat N `min` length (unique vals))%nat
      ∧ StronglySorted (λ a b, value_eqb a b = false) kept
      ∧ (∀ k, k ∈ kept → k ∈ vals)
      ∧ (∀ k v, k ∈ kept → v ∈ vals → isin kept v = false →
           freq v ≤ freq k))
  ∧ ((∀ v, v ∈ vals → v ∈ four_types) →
     freq (VStr "A") = 50 → freq (VStr "B") = 30 →
     freq (VStr "C") = 10 → freq (VStr "D") = 5 →
     ∃ df',
       select_top_complaint_types df (Some 2) None = Ok df'
       ∧ rows df'
         = filter (λ ir, isin [VStr "A"; VStr "B"] (cat ir)) (rows df)
       ∧ ∀ ir, ir ∈ rows df' ↔
               ir ∈ rows df ∧ (cat ir = VStr "A" ∨ cat ir = VStr "B"))
  ∧ (∀ to_datetime df0 pct,
       clean_nyc311_data to_datetime df0 pct None None
       = stages_1_to_6 to_datetime df0 pct)
  ∧ (∀ to_datetime df0 pct top minc,
       top ≠ None ∨ minc ≠ None →
       clean_nyc311_data to_datetime df0 pct top minc
       = stages_1_to_6 to_datetime df0 pct
           ≫= λ df6, select_top_complaint_types df6 top minc).
Proof.
  intros Hc cat vals freq. split; [|split; [|split; [|split]]].
  - intros n_top m. eexists. split; [by apply select_top_Ok|]. simpl.
    apply filter_ext_elem_of. intros ir Hir. rewrite Is_true_true.
    apply (isin_min_count _ n_top). by apply list_elem_of_fmap_2.
  - intros N HN. eexists. eexists. split; [by apply select_top_Ok|].
    cbn [top_types rows]. rewrite head_nonneg by done.
    split; [reflexivity|]. split; [reflexivity|].
    split; [apply top_n_length|]. split; [apply top_n_distinct|].
    split; [apply top_n_in_vals|apply top_n_most_frequent].
  - intros Hall HA HB HC HD. eexists. split; [by apply select_top_Ok|].
    cbn [top_types rows]. rewrite head_nonneg by done.
    rewrite (four_types_counts (cell "complaint_type" ∘ snd <$> rows df)
               Hall HA HB HC HD).
    change ((take (Z.to_nat 2) _).*1) with [VStr "A"; VStr "B"].
    split; [reflexivity|]. intros ir.
    by rewrite list_elem_of_filter, Is_true_true, isin_two, (comm and).
  - intros to_datetime df0 pct. unfold clean_nyc311_data.
    destruct (stages_1_to_6 _ _ _); reflexivity.
  - intros to_datetime df0 pct top minc Hopt. unfold clean_nyc311_data.
    destruct (stages_1_to_6 _ _ _) as [df6|e]; [|reflexivity]. simpl.
    destruct top, minc; try reflexivity. by destruct Hopt.
Qed.

(** The 95 complaints of the sample: the 80 of type A or B stay. *)
Lemma select_top_selection_witness :
  ∃ df', select_top_complaint_types Samples.surveyed (Some 2) None = Ok df'
         ∧ nrows df' = 80%nat
         ∧ ∀ ir, ir ∈ rows df' →
             cell "complaint_type" ir.2 = VStr "A"
             ∨ cell "complaint_type" ir.2 = VStr "B".
Proof.
  assert (Hc : "complaint_type" ∈ columns Samples.surveyed)
    by (apply (bool_decide_unpack _); vm_compute; exact I).
  destruct (select_top_selection (M:=Str.ascii_methods) Samples.surveyed Hc)
    as (_ & _ & Hex & _).
  destruct Hex as (df' & Heq & Hrows & Hiff).
  - apply four_types_check. vm_compute. reflexivity.
  - vm_compute. reflexivity.
  - vm_compute. reflexivity.
  - vm_compute. reflexivity.
  - vm_compute. reflexivity.
  - exists df'. split; [exact Heq|]. split.
    + unfold nrows. rewrite Hrows. vm_compute. reflexivity.
    + intros ir Hir. by apply Hiff in Hir as [_ Hir].
Defined.

End CleaningSpec.

(** * Further properties of the fetcher *)
Module ApiExtra.
Import Api ApiSpec MoreSamples.

Section Source.

Variable server : nat → request → get_outcome.

(** Two failures that the [except] clause takes lead to a third attempt,
    which decides. *)
Lemma fetch_page_third_attempt rq w :
  retryable (response_json (server (length (calls w)) rq)) = true →
  retryable (response_json (server (length (calls w) + 1) rq)) = true →
  _fetch_page server rq w
  = (Some <$> response_json (server (length (calls w) + 2) rq),
     after_attempts 3 rq w).
Proof.
  intros R0 R1.
  destruct (fetch_page_attempts server rq w) as (k & Hk & _ & Hlast & ->).
  change (Z.to_nat MAX_RETRIES) with 3%nat in *.
  assert (k = 3%nat) as ->; [|done].
  destruct (decide (k = 1%nat)) as [->|].
  { apply Hlast. simpl. by rewrite Nat.add_0_r. }
  destruct (decide (k = 2%nat)) as [->|]; [by apply Hlast|lia].
Qed.



End Source.



(** X2.  A page whose three attempts all fail with a read timeout or a
    connection error ends the whole fetch with the error of the third
    attempt: the rows of the [n] full pages fetched before are not
    returned.  The page was requested three times, with waits of 2 and 4
    seconds in between, and the session is closed. *)
Theorem fetch_aborts_after_retries (server : nat → request → get_outcome)
    tok limit year (pages : nat → list row) (n fuel : nat)
    (e : nat → request_exn) :
  1 ≤ limit ≤ MAX_LIMIT →
  (∀ i, (i < n)%nat →
     server i (page_request (make_headers tok) year limit (Z.of_nat i * limit))
     = GetResponse 200 (pages i)) →
  (∀ i, (i < n)%nat → limit ≤ Z.of_nat (length (pages i))) →
  (∀ a, (a < 3)%nat →
     server (n + a)%nat
       (page_request (make_headers tok) year limit (Z.of_nat n * limit))
     = GetRaises (e a)
     ∧ caught_by_retry (RequestException (e a)) = true) →
  (n < fuel)%nat →
  ∃ w',
    fetch_nyc311_data server fuel tok limit year init_world
    = Some (Raise (RequestException (e 2%nat)), w')
    ∧ calls w'
      = page_requests (make_headers tok) year limit 0 n
        ++ replicate 3
             (page_request (make_headers tok) year limit (Z.of_nat n * limit))
    ∧ sleeps w' = [2; 4]
    ∧ session_closed w' = true.
Proof.
  intros Hlim Hsrv Hfull Hfail Hfuel.
  replace fuel with (n + S (fuel - S n))%nat by lia.
  rewrite (fetch_after_full_pages server tok limit year pages) by done.
  cbn [fetch_loop]. cbv zeta.
  rewrite fetch_page_third_attempt; rewrite calls_page_requests.
  - destruct (Hfail 2%nat ltac:(lia)) as [-> _]. simpl. eauto.
  - destruct (Hfail 0%nat ltac:(lia)) as [H0 Hc]. rewrite Nat.add_0_r in H0.
    by rewrite H0.
  - destruct (Hfail 1%nat ltac:(lia)) as [-> Hc]. done.
Qed.

(** One full page, then nothing but timeouts. *)
Lemma fetch_aborts_after_retries_witness :
  ∃ w', fetch_nyc311_data one_page_then_timeouts 2 None 2 2024 init_world
        = Some (Raise (RequestException ReadTimeout), w')
        ∧ length (calls w') = 4%nat
        ∧ sleeps w' = [2; 4].
Proof.
  destruct (fetch_aborts_after_retries one_page_then_timeouts None 2 2024
              (λ _, [Samples.one_row "1"; Samples.one_row "2"]) 1 2
              (λ _, ReadTimeout))
    as (w' & Heq & Hc & Hs & _).
  - unfold MAX_LIMIT. lia.
  - intros i Hi. assert (i = 0%nat) as -> by lia. reflexivity.
  - intros i Hi. simpl. lia.
  - intros a Ha. split; reflexivity.
  - lia.
  - exists w'. split; [exact Heq|]. split; [by rewrite Hc|exact Hs].
Defined.

(** X3.  When the first page is empty the fetch returns, after that single
    request, a table without rows and without columns; the cleaning driver
    cannot work on it: it raises the key error of its first column
    access. *)
Theorem empty_fetch_cannot_be_cleaned `{M : Str.Methods} server tok limit
    year (fuel : nat) to_datetime pct top minc :
  1 ≤ limit ≤ MAX_LIMIT →
  server 0%nat (page_request (make_headers tok) year limit 0)
  = GetResponse 200 [] →
  (0 < fuel)%nat →
  ∃ df w',
    fetch_nyc311_data server fuel tok limit year init_world = Some (Ok df, w')
    ∧ nrows df = 0%nat
    ∧ columns df = ∅
    ∧ calls w' = [page_request (make_headers tok) year limit 0]
    ∧ Cleaning.clean_nyc311_data to_datetime df pct top minc
      = Raise (KeyError "created_date").
Proof.
  intros Hlim Hsrv Hfuel. destruct fuel as [|fuel]; [lia|].
  unfold fetch_nyc311_data. rewrite limit_check_passes by done.
  cbn [fetch_loop]. cbv zeta.
  rewrite (fetch_page_200 server _ init_world []) by exact Hsrv.
  cbn [falsy]. eexists. eexists. split; [reflexivity|]. by repeat split.
Qed.

Lemma empty_fetch_cannot_be_cleaned_witness :
  ∃ df w',
    fetch_nyc311_data (Samples.paged []) 1 None 100 2024 init_world
    = Some (Ok df, w')
    ∧ Cleaning.clean_nyc311_data (M:=Str.ascii_methods) Iso.iso_to_datetime
        df 99 None None
      = Raise (KeyError "created_date").
Proof.
  destruct (empty_fetch_cannot_be_cleaned (M:=Str.ascii_methods)
              (Samples.paged []) None 100 2024 1
              Iso.iso_to_datetime 99%Q None None)
    as (df & w' & Heq & _ & _ & _ & Hclean).
  - unfold MAX_LIMIT. lia.
  - reflexivity.
  - lia.
  - exists df, w'. split; [exact Heq|exact Hclean].
Defined.

(** X4.  A page request always ends in one of four ways: it returns a
    list of rows, it raises the [HTTPError] of a 4xx or 5xx status, it
    raises the decode error of [response.json()], which the [except]
    clause does not take, or it raises what [session.get] raised.  It
    never returns [None], the value of a [for] loop that runs to its end,
    and it never raises another exception. *)
Theorem fetch_page_outcome server rq w :
  match (_fetch_page server rq w).1 with
  | Ok (Some _) => True
  | Ok None => False
  | Raise (HTTPError status) => 400 ≤ status < 600
  | Raise JSONDecodeError => True
  | Raise (RequestException _) => True
  | Raise _ => False
  end.
Proof.
  destruct (fetch_page_attempts server rq w) as (k & _ & _ & _ & ->). simpl.
  destruct (server _ rq) as [status body|status|x]; simpl; [| |done];
    unfold raise_for_status;
    destruct (400 <=? status) eqn:E1, (status <? 600) eqn:E2; simpl; try done;
    apply Z.leb_le in E1; apply Z.ltb_lt in E2; lia.
Qed.

End ApiExtra.

(** * Further properties of the cleaning pipeline *)
Module CleaningExtra.
Import Cleaning CleaningSpec Vocabulary MoreSamples.

(** ** Frames *)

Lemma mapM_Raise {A B} (f : A → result B) (l : list A) e0 :
  (∀ a e, f a = Raise e → e = e0) →
  Exists (λ a, is_Ok (f a) = false) l →
  mapM f l = Raise e0.
Proof.
  intros Honly. induction 1 as [a l Ha|a l _ IH]; simpl.
  - destruct (f a) as [b|e] eqn:E; [discriminate|]. by rewrite (Honly a e E).
  - destruct (f a) as [b|e] eqn:E; simpl; [by rewrite IH|].
    by rewrite (Honly a e E).
Qed.

Lemma Forall_is_float l : forallb is_floatb l = true → Forall is_float l.
Proof.
  intros H. apply Forall_forall. intros v Hv.
  rewrite forallb_forall in H. apply H in Hv.
  destruct v; try discriminate; [by left|right; eauto].
Qed.

Lemma get_col_cells c df : c ∈ columns df → get_col c df = Ok (cells c df).
Proof. intros Hc. by apply get_col_Ok. Qed.

Lemma get_col_missing c df : c ∉ columns df → get_col c df = Raise (KeyError c).
Proof. intros Hc. unfold get_col. by rewrite decide_False. Qed.

Lemma cells_set_col_other c c' vs rs :
  c ≠ c' →
  cell c' ∘ snd <$> zip_with (λ (ir : Z * row) v, (ir.1, <[c:=v]> ir.2)) rs vs
  = take (length vs) (cell c' ∘ snd <$> rs).
Proof.
  intros Hne. revert vs. induction rs as [|r rs IH]; intros [|v vs]; simpl;
    try done.
  rewrite IH. f_equal. unfold cell. by rewrite lookup_insert_ne.
Qed.

(** Writing a column leaves the cells of every other column alone. *)
Lemma cells_set_col_ne c c' vs df :
  c ≠ c' → length vs = length (rows df) →
  cells c' (set_col c vs df) = cells c' df.
Proof.
  intros Hne Hlen. unfold cells. simpl. rewrite cells_set_col_other by done.
  apply take_ge. rewrite length_fmap. lia.
Qed.

Lemma cells_set_col_eq c vs df :
  length vs = length (rows df) → cells c (set_col c vs df) = vs.
Proof. intros Hlen. unfold cells. simpl. by apply cells_set_col. Qed.

(** ** Stage 2 *)

Lemma response_days_elapsed closed created :
  is_date closed → is_date created →
  ∃ days, response_days closed created = Ok days ∧ elapsed closed created days.
Proof.
  intros [->|[c ->]] [->|[o ->]]; simpl; eauto.
  eexists. split; [reflexivity|]. eexists. split; [reflexivity|].
  unfold Qlt, Qle, Qdiv, Qmult, Qinv. simpl. lia.
Qed.

Lemma response_days_error closed created e :
  response_days closed created = Raise e → e = TypeError.
Proof. destruct closed, created; simpl; congruence. Qed.

Lemma response_days_Ok closed created days :
  response_days closed created = Ok days → is_date closed ∧ is_date created.
Proof.
  unfold is_date. destruct closed, created; simpl; try discriminate;
    intros _; split; (by left) || (right; eauto).
Qed.

Lemma compute_response_time_Ok df df' :
  compute_response_time df = Ok df' ↔
  "closed_date" ∈ columns df ∧ "created_date" ∈ columns df
  ∧ ∃ days,
      Forall2 (λ ir d, response_days (cell "closed_date" ir.2)
                         (cell "created_date" ir.2) = Ok d) (rows df) days
      ∧ df' = set_col "response_time_days" days df.
Proof.
  unfold compute_response_time. rewrite bind_Ok. split.
  - intros (closed & [Hc ->]%get_col_Ok & H).
    apply bind_Ok in H as (created & [Ho ->]%get_col_Ok & H).
    apply bind_Ok in H as (days & Hdays%mapM_Ok & [= <-]).
    split; [done|]. split; [done|]. exists days. split; [|done].
    rewrite zip_with_fmap_l, zip_with_fmap_r, zip_with_diag in Hdays.
    by apply Forall2_fmap_l in Hdays.
  - intros (Hc & Ho & days & Hdays & ->). eexists.
    split; [by apply get_col_Ok|]. apply bind_Ok. eexists.
    split; [by apply get_col_Ok|]. apply bind_Ok. exists days. split; [|done].
    apply mapM_Ok. rewrite zip_with_fmap_l, zip_with_fmap_r, zip_with_diag.
    by apply Forall2_fmap_l.
Qed.

Lemma response_days_sign closed created days :
  response_days closed created = Ok days → elapsed closed created days.
Proof.
  intros H. destruct (response_days_Ok _ _ _ H) as [Hc Ho].
  destruct (response_days_elapsed _ _ Hc Ho) as (d & Hd & He). congruence.
Qed.

(** X5.  Whenever stage 2 returns a frame, it is the table with the column
    [response_time_days] added, rows and index as they were.  Row by row
    the new cell is missing when one of the dates is, and otherwise a
    number that is positive exactly when the request was closed after it
    was created and zero or negative exactly when it was closed at or
    before its creation. *)
Theorem response_time_sign df df' :
  compute_response_time df = Ok df' →
  columns df' = {["response_time_days"]} ∪ columns df
  ∧ index df' = index df
  ∧ Forall2 (λ ir ir',
               ir'.1 = ir.1
               ∧ elapsed (cell "closed_date" ir.2) (cell "created_date" ir.2)
                   (cell "response_time_days" ir'.2))
      (rows df) (rows df').
Proof.
  intros (_ & _ & days & Hdays & ->)%compute_response_time_Ok.
  assert (Hlen : length days = length (rows df))
    by (symmetry; by eapply Forall2_length).
  split; [done|]. split; [by apply index_set_col_eq|].
  simpl. clear Hlen. induction Hdays as [|ir d rs days Hd _ IH]; simpl;
    constructor; [|done].
  split; [done|]. unfold cell at 3. simpl. rewrite lookup_insert_eq. simpl.
  by apply response_days_sign.
Qed.

(** Three requests with parsed dates: closed after a day, closed before
    it was created, still open. *)
Lemma response_time_sign_witness :
  match compute_response_time dated with
  | Ok df' =>
      index df' = [0; 1; 2]
      ∧ Forall2 (λ ir ir',
                   elapsed (cell "closed_date" ir.2)
                     (cell "created_date" ir.2)
                     (cell "response_time_days" ir'.2))
          (rows dated) (rows df')
  | Raise _ => False
  end.
Proof.
  assert (Hok : is_Ok (compute_response_time dated) = true)
    by (vm_compute; reflexivity).
  destruct (compute_response_time dated) as [df'|e] eqn:E; [|discriminate Hok].
  destruct (response_time_sign dated df' E) as (_ & Hidx & Hrows).
  split; [exact Hidx|].
  eapply Forall2_impl; [|exact Hrows]. by intros ir ir' [_ ?].
Defined.

Lemma Forall_is_text l : forallb is_textb l = true → Forall is_text l.
Proof.
  intros H. apply Forall_forall. intros v Hv.
  rewrite forallb_forall in H. apply H in Hv.
  destruct v; try discriminate; [by left|right; eauto].
Qed.

(** X6.  Stage 2 needs the dates that stage 1 parses.  On the table as
    fetched, whose two date columns hold strings and missing values, with
    some row that has both dates, it raises a type error. *)
Theorem response_time_needs_dates df ir s1 s2 :
  "closed_date" ∈ columns df →
  "created_date" ∈ columns df →
  Forall is_text (cells "closed_date" df) →
  Forall is_text (cells "created_date" df) →
  ir ∈ rows df →
  cell "closed_date" ir.2 = VStr s1 →
  cell "created_date" ir.2 = VStr s2 →
  compute_response_time df = Raise TypeError.
Proof.
  intros Hc Ho _ _ Hir H1 H2. unfold compute_response_time.
  rewrite (get_col_cells _ _ Hc), (get_col_cells _ _ Ho).
  cbn [mbind result_bind].
  rewrite (mapM_Raise _ _ TypeError); [done| |].
  - intros p e. apply response_days_error.
  - unfold cells. rewrite zip_with_fmap_l, zip_with_fmap_r, zip_with_diag.
    apply Exists_exists. exists (VStr s1, VStr s2). split; [|done].
    apply list_elem_of_In, list_elem_of_fmap. exists ir. split; [|done].
    simpl. by rewrite H1, H2.
Qed.

(** The sample table as fetched: its dates are still strings. *)
Lemma response_time_needs_dates_witness :
  compute_response_time (from_records Samples.records) = Raise TypeError.
Proof.
  apply (response_time_needs_dates (from_records Samples.records)
           (0, Samples.record (VStr "1") (VStr "2024-01-01T00:00:00.000")
                 (VStr "2024-01-02T00:00:00.000") (VStr "Noise")
                 (VStr "BRONX") (VStr "phone "))
           "2024-01-02T00:00:00.000" "2024-01-01T00:00:00.000").
  - apply (bool_decide_unpack _). vm_compute. exact I.
  - apply (bool_decide_unpack _). vm_compute. exact I.
  - apply Forall_is_text. vm_compute. reflexivity.
  - apply Forall_is_text. vm_compute. reflexivity.
  - apply list_elem_of_here.
  - reflexivity.
  - reflexivity.
Defined.

(** ** Stage 3 *)

Lemma filter_andb {A} (p q : A → bool) (l : list A) :
  filter (λ x, q x) (filter (λ x, p x) l) = filter (λ x, p x && q x) l.
Proof.
  induction l as [|x l IH]; [done|]. rewrite !(filter_cons _ x).
  destruct (p x) eqn:Ep; simpl.
  - rewrite filter_cons, IH. by destruct (q x).
  - by rewrite IH.
Qed.

Lemma filter_true {A} (l : list A) : filter (λ _, true) l = l.
Proof. induction l as [|x l IH]; [done|]. by rewrite filter_cons, IH. Qed.

Lemma frame_eta df : {| columns := columns df; rows := rows df |} = df.
Proof. by destruct df. Qed.

(** One optional requirement of stage 3. *)
Lemma optional_keep_notna_Ok (b : bool) c df df1 :
  (if b then keep_notna c df else Ok df) = Ok df1 ↔
  (b = true → c ∈ columns df)
  ∧ df1 = {| columns := columns df;
             rows := filter (λ ir, implb b (notna (cell c ir.2))) (rows df) |}.
Proof.
  destruct b; simpl.
  - unfold keep_notna. rewrite bind_Ok. split.
    + intros (col & [Hc ->]%get_col_Ok & [= <-]). split; [done|].
      unfold select. f_equal. rewrite <- list_fmap_compose.
      apply (mask_rows_fmap (λ ir, notna (cell c ir.2))).
    + intros [Hc ->]. eexists. split; [by apply get_col_Ok; eauto|].
      unfold select. simpl. do 2 f_equal. rewrite <- list_fmap_compose.
      apply (mask_rows_fmap (λ ir, notna (cell c ir.2))).
  - rewrite filter_true, frame_eta. split; [by intros [= <-]|by intros [_ ->]].
Qed.

Lemma gt_zero_Ok col mask :
  mapM gt_zero col = Ok mask ↔ Forall is_float col ∧ mask = (positive <$> col).
Proof.
  rewrite mapM_Ok. split.
  - induction 1 as [|v b col mask Hv _ [IH1 IH2]]; [done|].
    split; [constructor; [|done]|].
    + destruct v; try discriminate; [by left|right; eauto].
    + simpl. f_equal; [|done]. destruct v; simpl in *; congruence.
  - intros [Hall ->]. induction Hall as [|v col Hv _ IH]; constructor; [|done].
    by destruct Hv as [->|[q ->]].
Qed.

(** What stage 3 is: it needs the columns whose requirement is on and a
    numeric response time column if there is one, and it keeps the valid
    rows. *)
Lemma filter_invalid_rows_Ok df b1 b2 b3 df' :
  filter_invalid_rows df b1 b2 b3 = Ok df' ↔
  (b1 = true → "created_date" ∈ columns df)
  ∧ (b2 = true → "closed_date" ∈ columns df)
  ∧ (b3 = true → "borough" ∈ columns df)
  ∧ ("response_time_days" ∈ columns df →
     Forall (λ ir, is_float (cell "response_time_days" ir.2))
       (filter (λ ir, valid_row b1 b2 b3 false ir) (rows df)))
  ∧ df' = {| columns := columns df;
             rows := filter
                       (λ ir, valid_row b1 b2 b3
                                (bool_decide ("response_time_days" ∈ columns df))
                                ir) (rows df) |}.
Proof.
  unfold filter_invalid_rows. rewrite bind_Ok.
  setoid_rewrite bind_Ok. setoid_rewrite bind_Ok.
  setoid_rewrite optional_keep_notna_Ok.
  assert (Hthree : filter (λ ir, implb b3 (notna (cell "borough" ir.2)))
            (filter (λ ir, implb b2 (notna (cell "closed_date" ir.2)))
               (filter (λ ir, implb b1 (notna (cell "created_date" ir.2)))
                  (rows df)))
          = filter (λ ir, valid_row b1 b2 b3 false ir) (rows df)).
  { rewrite !filter_andb. apply list_filter_iff. intros ir.
    unfold valid_row. cbn [implb]. by rewrite andb_true_r, andb_assoc. }
  assert (Hfour : filter (λ ir, positive (cell "response_time_days" ir.2))
            (filter (λ ir, valid_row b1 b2 b3 false ir) (rows df))
          = filter (λ ir, valid_row b1 b2 b3 true ir) (rows df)).
  { rewrite filter_andb. apply list_filter_iff. intros ir.
    unfold valid_row. cbn [implb]. by rewrite andb_true_r. }
  split.
  - intros (df1 & [H1 ->] & df2 & [H2 ->] & df3 & [H3 ->] & H).
    simpl in *. rewrite Hthree in H.
    split; [done|]. split; [done|]. split; [done|].
    destruct (decide _) as [Hrt|Hrt].
    + apply bind_Ok in H as (col & [_ ->]%get_col_Ok & H).
      apply bind_Ok in H as (mask & [Hnum ->]%gt_zero_Ok & [= <-]).
      simpl in *. split; [by rewrite Forall_fmap in Hnum|].
      rewrite bool_decide_eq_true_2 by done. unfold select. simpl. f_equal.
      rewrite <- Hfour, <- !list_fmap_compose.
      apply (mask_rows_fmap (λ ir, positive (cell "response_time_days" ir.2))).
    + injection H as <-. split; [done|].
      by rewrite bool_decide_eq_false_2 by done.
  - intros (H1 & H2 & H3 & Hnum & ->).
    eexists. split; [done|]. eexists. split; [done|]. eexists. split; [done|].
    simpl. rewrite Hthree. destruct (decide _) as [Hrt|Hrt].
    + rewrite bool_decide_eq_true_2 by done.
      unfold get_col. simpl. rewrite decide_True by done. simpl.
      assert (Hm : mapM gt_zero
                (cell "response_time_days" ∘ snd
                   <$> filter (λ ir, valid_row b1 b2 b3 false ir) (rows df))
              = Ok (positive
                      <$> (cell "response_time_days" ∘ snd
                             <$> filter (λ ir, valid_row b1 b2 b3 false ir)
                                   (rows df)))).
      { apply gt_zero_Ok. split; [|done]. rewrite Forall_fmap. by apply Hnum. }
      rewrite Hm. simpl. unfold select. simpl. do 2 f_equal.
      rewrite <- Hfour, <- !list_fmap_compose.
      apply (mask_rows_fmap (λ ir, positive (cell "response_time_days" ir.2))).
    + by rewrite bool_decide_eq_false_2 by done.
Qed.

Lemma positive_true v : positive v = true ↔ ∃ q, v = VNum q ∧ (0 < q)%Q.
Proof.
  destruct v as [|s|t|q]; simpl; split; try discriminate;
    try (by intros (? & [=] & _)).
  - intros H. exists q. split; [done|]. apply negb_true_iff in H.
    apply Qnot_le_lt. intros Hle. apply Qle_bool_iff in Hle. congruence.
  - intros (q' & [= <-] & Hq). apply negb_true_iff.
    destruct (Qle_bool q 0) eqn:E; [|done].
    apply Qle_bool_iff in E. by apply Qlt_not_le in Hq.
Qed.

Lemma notna_true v : notna v = true ↔ v ≠ VNull.
Proof. destruct v; simpl; split; congruence. Qed.

Lemma implb_true (b c : bool) : implb b c = true ↔ (b = true → c = true).
Proof. destruct b, c; simpl; split; auto; intros H; by apply H. Qed.

Lemma valid_row_true b1 b2 b3 has_rt ir :
  valid_row b1 b2 b3 has_rt ir = true ↔
  (b1 = true → cell "created_date" ir.2 ≠ VNull)
  ∧ (b2 = true → cell "closed_date" ir.2 ≠ VNull)
  ∧ (b3 = true → cell "borough" ir.2 ≠ VNull)
  ∧ (has_rt = true →
     ∃ q, cell "response_time_days" ir.2 = VNum q ∧ (0 < q)%Q).
Proof.
  unfold valid_row. rewrite !andb_true_iff, !implb_true, !notna_true.
  rewrite positive_true. tauto.
Qed.

(** X7.  The rows stage 3 keeps, whenever it returns a frame: exactly the
    rows of the input that meet every requirement that is switched on and,
    if the table has the response time column, have a response time that is
    present and positive.  The columns are those of the input. *)
Theorem filter_invalid_rows_keeps df b1 b2 b3 df' :
  filter_invalid_rows df b1 b2 b3 = Ok df' →
  columns df' = columns df
  ∧ ∀ ir, ir ∈ rows df' ↔
          ir ∈ rows df
          ∧ (b1 = true → cell "created_date" ir.2 ≠ VNull)
          ∧ (b2 = true → cell "closed_date" ir.2 ≠ VNull)
          ∧ (b3 = true → cell "borough" ir.2 ≠ VNull)
          ∧ ("response_time_days" ∈ columns df →
             ∃ q, cell "response_time_days" ir.2 = VNum q ∧ (0 < q)%Q).
Proof.
  intros (_ & _ & _ & _ & ->)%filter_invalid_rows_Ok. split; [done|].
  intros ir. simpl. rewrite list_elem_of_filter, Is_true_true, valid_row_true.
  rewrite bool_decide_eq_true. tauto.
Qed.

Lemma filter_invalid_rows_keeps_witness :
  match (df1 ← compute_response_time dated;
         filter_invalid_rows df1 true true true) with
  | Ok df2 =>
      ∀ ir, ir ∈ rows df2 →
        ∃ q, cell "response_time_days" ir.2 = VNum q ∧ (0 < q)%Q
  | Raise _ => False
  end.
Proof.
  assert (Hok : is_Ok (df1 ← compute_response_time dated;
                       filter_invalid_rows df1 true true true) = true)
    by (vm_compute; reflexivity).
  destruct (compute_response_time dated) as [df1|e] eqn:E1; [|discriminate Hok].
  simpl in *.
  destruct (filter_invalid_rows df1 true true true) as [df2|e] eqn:E2;
    [|discriminate Hok].
  destruct (filter_invalid_rows_keeps df1 true true true df2 E2) as [_ Hiff].
  intros ir [_ (_ & _ & _ & Hrt)]%Hiff. apply Hrt.
  apply compute_response_time_Ok in E1 as (_ & _ & days & _ & ->).
  simpl. set_solver.
Defined.

(** X8.  Stage 3 is idempotent: run again with the same switches on the
    frame it returned, it returns that frame. *)
Theorem filter_invalid_rows_idempotent df b1 b2 b3 df' :
  filter_invalid_rows df b1 b2 b3 = Ok df' →
  filter_invalid_rows df' b1 b2 b3 = Ok df'.
Proof.
  intros (H1 & H2 & H3 & Hnum & ->)%filter_invalid_rows_Ok.
  apply filter_invalid_rows_Ok. simpl.
  split; [done|]. split; [done|]. split; [done|]. split.
  - intros Hrt. rewrite bool_decide_eq_true_2 by done.
    apply Forall_forall. intros ir Hir.
    apply list_elem_of_In, list_elem_of_filter in Hir as [_ Hir].
    apply list_elem_of_filter in Hir as [Hv _].
    apply Is_true_true, valid_row_true in Hv as (_ & _ & _ & Hq).
    destruct (Hq eq_refl) as (q & -> & _). right. eauto.
  - f_equal. rewrite filter_andb. apply list_filter_iff. intros ir.
    by rewrite andb_diag.
Qed.

Lemma filter_invalid_rows_idempotent_witness :
  match (df1 ← compute_response_time dated;
         filter_invalid_rows df1 true false true) with
  | Ok df2 => filter_invalid_rows df2 true false true = Ok df2
  | Raise _ => False
  end.
Proof.
  assert (Hok : is_Ok (df1 ← compute_response_time dated;
                       filter_invalid_rows df1 true false true) = true)
    by (vm_compute; reflexivity).
  destruct (compute_response_time dated) as [df1|e] eqn:E1; [|discriminate Hok].
  simpl in *.
  destruct (filter_invalid_rows df1 true false true) as [df2|e] eqn:E2;
    [|discriminate Hok].
  exact (filter_invalid_rows_idempotent df1 true false true df2 E2).
Defined.

(** X9.  Stage 3 looks a column up only when its requirement is switched
    on, in the order created date, closed date, borough: the first such
    column the table lacks gives the key error.  With all three switched
    off, a table without the response time column comes back as it is. *)
Theorem filter_invalid_rows_missing_column df b1 b2 b3 :
  ("created_date" ∉ columns df →
   filter_invalid_rows df true b2 b3 = Raise (KeyError "created_date"))
  ∧ ((b1 = true → "created_date" ∈ columns df) →
     "closed_date" ∉ columns df →
     filter_invalid_rows df b1 true b3 = Raise (KeyError "closed_date"))
  ∧ ((b1 = true → "created_date" ∈ columns df) →
     (b2 = true → "closed_date" ∈ columns df) →
     "borough" ∉ columns df →
     filter_invalid_rows df b1 b2 true = Raise (KeyError "borough"))
  ∧ ("response_time_days" ∉ columns df →
     filter_invalid_rows df false false false = Ok df).
Proof.
  assert (Hstep : ∀ (b : bool) c d, (b = true → c ∈ columns d) →
            ∃ d1, (if b then keep_notna c d else Ok d) = Ok d1
                  ∧ columns d1 = columns d).
  { intros b c d Hc. eexists. split; [by apply optional_keep_notna_Ok|done]. }
  split; [|split; [|split]].
  - intros Hc. unfold filter_invalid_rows, keep_notna.
    by rewrite get_col_missing.
  - intros H1 Hc. unfold filter_invalid_rows.
    destruct (Hstep b1 "created_date" df H1) as (d1 & -> & Hd1). simpl.
    unfold keep_notna. by rewrite get_col_missing by (by rewrite Hd1).
  - intros H1 H2 Hc. unfold filter_invalid_rows.
    destruct (Hstep b1 "created_date" df H1) as (d1 & -> & Hd1). simpl.
    destruct (Hstep b2 "closed_date" d1) as (d2 & -> & Hd2);
      [by rewrite Hd1|].
    simpl. unfold keep_notna.
    by rewrite get_col_missing by (by rewrite Hd2, Hd1).
  - intros Hrt. unfold filter_invalid_rows. simpl. by rewrite decide_False.
Qed.

(** A table that has a key column and nothing else. *)
Lemma filter_invalid_rows_missing_column_witness :
  filter_invalid_rows (from_records [Samples.one_row "1"]) true true true
  = Raise (KeyError "created_date")
  ∧ filter_invalid_rows (from_records [Samples.one_row "1"]) false false false
    = Ok (from_records [Samples.one_row "1"]).
Proof.
  destruct (filter_invalid_rows_missing_column
              (from_records [Samples.one_row "1"]) true true true)
    as (H1 & _ & _ & H4).
  split; [apply H1|apply H4];
    apply (bool_decide_unpack _); vm_compute; exact I.
Defined.

(** ** Columns that a stage does not write *)

Lemma index_cells_length c df : length (cells c df) = length (rows df).
Proof. apply length_fmap. Qed.

Lemma update_col_frame c f df df' :
  update_col c f df = Ok df' →
  c ∈ columns df
  ∧ columns df' = columns df
  ∧ index df' = index df
  ∧ cells c df' = (f <$> cells c df)
  ∧ ∀ c', c' ≠ c → cells c' df' = cells c' df.
Proof.
  intros [Hc ->]%update_col_Ok.
  assert (Hlen : length (f ∘ cell c ∘ snd <$> rows df) = length (rows df))
    by apply length_fmap.
  split; [done|].
  split; [simpl; by apply subseteq_union_1_L, singleton_subseteq_l|].
  split; [by apply index_set_col_eq|]. split.
  - rewrite cells_set_col_eq by done.
    exact (list_fmap_compose (cell c ∘ snd) f (rows df)).
  - intros c' Hne. by apply cells_set_col_ne.
Qed.

Lemma compute_response_time_frame df df' :
  compute_response_time df = Ok df' →
  columns df' = {["response_time_days"]} ∪ columns df
  ∧ index df' = index df
  ∧ ∀ c, c ≠ "response_time_days" → cells c df' = cells c df.
Proof.
  intros (_ & _ & days & Hdays & ->)%compute_response_time_Ok.
  assert (Hlen : length days = length (rows df))
    by (symmetry; by eapply Forall2_length).
  split; [done|]. split; [by apply index_set_col_eq|].
  intros c Hne. by apply cells_set_col_ne.
Qed.

Lemma winsorize_frame df pct df' :
  winsorize_response_time df pct = Ok df' →
  columns df' = columns df
  ∧ index df' = index df
  ∧ ∀ c, c ≠ "response_time_days" → cells c df' = cells c df.
Proof.
  unfold winsorize_response_time. destruct (decide _) as [Hc|Hc].
  - intros H. apply bind_Ok in H as (col & [_ ->]%get_col_Ok & H).
    apply bind_Ok in H as (xs & _ & H).
    apply bind_Ok in H as (threshold & _ & [= <-]).
    assert (Hlen : length (clip_upper threshold
                             <$> (cell "response_time_days" ∘ snd <$> rows df))
                   = length (rows df)) by (by rewrite !length_fmap).
    split; [simpl; by apply subseteq_union_1_L, singleton_subseteq_l|].
    split; [by apply index_set_col_eq|].
    intros c Hne. by apply cells_set_col_ne.
  - by intros [= <-].
Qed.

(** X10.  Stages 1, 2, 4 and 6 write their own columns and nothing else:
    whenever one of them returns a frame, the index and the cells of every
    other column are those of its input.  Stages 1, 4 and 6 keep the set of
    columns, stage 2 adds [response_time_days] to it. *)
Theorem stages_write_own_columns `{M : Str.Methods} to_datetime df df' :
  (convert_dates_to_datetime to_datetime df = Ok df' →
   columns df' = columns df ∧ index df' = index df
   ∧ ∀ c, c ≠ "created_date" → c ≠ "closed_date" → cells c df' = cells c df)
  ∧ (compute_response_time df = Ok df' →
     columns df' = {["response_time_days"]} ∪ columns df
     ∧ index df' = index df
     ∧ ∀ c, c ≠ "response_time_days" → cells c df' = cells c df)
  ∧ (standardize_channel_type df = Ok df' →
     columns df' = columns df ∧ index df' = index df
     ∧ ∀ c, c ≠ "open_data_channel_type" → cells c df' = cells c df)
  ∧ (∀ pct, winsorize_response_time df pct = Ok df' →
     columns df' = columns df ∧ index df' = index df
     ∧ ∀ c, c ≠ "response_time_days" → cells c df' = cells c df).
Proof.
  split; [|split; [|split]].
  - intros H. unfold convert_dates_to_datetime in H.
    apply bind_Ok in H as (df1 & H1 & H2).
    apply update_col_frame in H1 as (_ & Hc1 & Hi1 & _ & Ho1).
    apply update_col_frame in H2 as (_ & Hc2 & Hi2 & _ & Ho2).
    split; [congruence|]. split; [congruence|].
    intros c H1 H2. by rewrite Ho2, Ho1.
  - apply compute_response_time_frame.
  - intros H. apply standardize_channel_type_Ok in H
      as (_ & _ & df1 & H1 & H2).
    apply update_col_frame in H1 as (_ & Hc1 & Hi1 & _ & Ho1).
    apply update_col_frame in H2 as (_ & Hc2 & Hi2 & _ & Ho2).
    split; [congruence|]. split; [congruence|].
    intros c Hne. by rewrite Ho2, Ho1.
  - intros pct. apply winsorize_frame.
Qed.

Lemma stages_write_own_columns_witness :
  match standardize_channel_type (M:=Str.ascii_methods) (from_records Samples.records) with
  | Ok df' =>
      cells "unique_key" df' = cells "unique_key" (from_records Samples.records)
  | Raise _ => False
  end.
Proof.
  assert (Hok : is_Ok (standardize_channel_type (M:=Str.ascii_methods) (from_records Samples.records))
                = true) by (vm_compute; reflexivity).
  destruct (standardize_channel_type (M:=Str.ascii_methods) (from_records Samples.records))
    as [df'|e] eqn:E; [|discriminate Hok].
  destruct (stages_write_own_columns (M:=Str.ascii_methods) Iso.iso_to_datetime
              (from_records Samples.records) df') as (_ & _ & H & _).
  destruct (H E) as (_ & _ & Hother). by apply Hother.
Defined.

(** ** Stage 4 *)

Lemma standardize_channel_type_cells `{M : Str.Methods} df df' :
  standardize_channel_type df = Ok df' →
  "open_data_channel_type" ∈ columns df'
  ∧ cells "open_data_channel_type" df'
    = (VStr ∘ channel_spec <$> cells "open_data_channel_type" df).
Proof.
  intros H. apply standardize_channel_type_Ok in H
      as (_ & _ & df1 & H1 & H2).
  apply update_col_frame in H1 as (Hin1 & Hc1 & _ & Hcells1 & _).
  apply update_col_frame in H2 as (Hin2 & Hc2 & _ & Hcells2 & _).
  split; [by rewrite Hc2|]. rewrite Hcells2, Hcells1, <- list_fmap_compose.
  apply list_fmap_ext. intros _ v _. apply standardize_channel_spec.
Qed.

(** What the lookup makes of its own three values, given what uppercasing
    and trimming make of them. *)
Lemma channel_spec_second `{M : Str.Methods} v :
  Str.strip (Str.upper "Phone") = "PHONE" →
  Str.strip (Str.upper "Web") = "WEB" →
  Str.strip (Str.upper "App") = "APP" →
  VStr (channel_spec (VStr (channel_spec v))) = second_pass (VStr (channel_spec v)).
Proof.
  intros Hp Hw Ha. pose proof (channel_spec_range v) as H.
  repeat (apply elem_of_cons in H as [->|H];
          [cbn [channel_spec]; rewrite ?Hp, ?Hw, ?Ha; reflexivity|]).
  by apply elem_of_nil in H.
Qed.

(** X11.  Stage 4 is not idempotent.  On a table whose channel column
    holds at least one string it returns a frame; run on that frame it
    returns a frame again, keeps [Phone] and [Web], and turns every [App]
    into [Web], because the uppercased [APP] is not a key of the lookup.
    All that is used of uppercasing and trimming is what they make of the
    three words [Phone], [Web] and [App]. *)
Theorem standardize_twice `{M : Str.Methods} df :
  Str.strip (Str.upper "Phone") = "PHONE" →
  Str.strip (Str.upper "Web") = "WEB" →
  Str.strip (Str.upper "App") = "APP" →
  "open_data_channel_type" ∈ columns df →
  existsb is_str (cells "open_data_channel_type" df) = true →
  ∃ df1 df2,
    standardize_channel_type df = Ok df1
    ∧ standardize_channel_type df1 = Ok df2
    ∧ cells "open_data_channel_type" df2
      = (second_pass <$> cells "open_data_channel_type" df1)
    ∧ (∀ i, cells "open_data_channel_type" df1 !! i = Some (VStr "App") →
            cells "open_data_channel_type" df2 !! i = Some (VStr "Web"))
    ∧ (∀ i v, cells "open_data_channel_type" df1 !! i = Some v →
              v ≠ VStr "App" →
              cells "open_data_channel_type" df2 !! i = Some v).
Proof.
  intros Hp Hw Ha Hc Hstr.
  destruct (standardize_channel_type_accessor df Hc) as [df1 E1].
  { unfold cells in Hstr. unfold str_accessor. by rewrite Hstr. }
  destruct (standardize_channel_type_cells _ _ E1) as [Hc1 Hcells1].
  destruct (standardize_channel_type_accessor df1 Hc1) as [df2 E2].
  { fold (cells "open_data_channel_type" df1). rewrite Hcells1.
    apply str_accessor_after. by intros v. }
  destruct (standardize_channel_type_cells _ _ E2) as [_ Hcells2].
  assert (Hsecond : cells "open_data_channel_type" df2
                    = (second_pass <$> cells "open_data_channel_type" df1)).
  { rewrite Hcells2, Hcells1, <- !list_fmap_compose.
    apply list_fmap_ext. intros _ v _. by apply channel_spec_second. }
  exists df1, df2. split; [done|]. split; [done|]. split; [done|].
  rewrite Hsecond. split.
  - intros i Hi. by rewrite list_lookup_fmap, Hi.
  - intros i v Hi Hv. rewrite list_lookup_fmap, Hi. simpl. f_equal.
    rewrite Hcells1 in Hi. apply list_lookup_fmap_Some in Hi as (v0 & -> & _).
    simpl in *. pose proof (channel_spec_range v0) as H.
    repeat (apply elem_of_cons in H as [H|H];
            [rewrite H in *; done || reflexivity|]).
    by apply elem_of_nil in H.
Qed.

(** The sample table ends with a mobile request: [App], then [Web]. *)
Lemma standardize_twice_witness :
  ∃ df1 df2,
    standardize_channel_type (M:=Str.ascii_methods)
      (from_records Samples.records) = Ok df1
    ∧ standardize_channel_type (M:=Str.ascii_methods) df1 = Ok df2
    ∧ cells "open_data_channel_type" df1 !! 5%nat = Some (VStr "App")
    ∧ cells "open_data_channel_type" df2 !! 5%nat = Some (VStr "Web").
Proof.
  destruct (standardize_twice (M:=Str.ascii_methods)
              (from_records Samples.records))
    as (df1 & df2 & E1 & E2 & _ & Happ & _).
  - reflexivity.
  - reflexivity.
  - reflexivity.
  - apply (bool_decide_unpack _). vm_compute. exact I.
  - vm_compute. reflexivity.
  - exists df1, df2. split; [exact E1|]. split; [exact E2|].
    assert (H5 : cells "open_data_channel_type" df1 !! 5%nat
                 = Some (VStr "App")).
    { destruct (standardize_channel_type_cells _ _ E1) as [_ ->].
      vm_compute. reflexivity. }
    split; [exact H5|exact (Happ 5%nat H5)].
Defined.

(** ** Stage 5 *)

Lemma existsb_value_eqb_cong a b seen :
  value_eqb a b = true →
  existsb (value_eqb a) seen = existsb (value_eqb b) seen.
Proof.
  intros Hab. induction seen as [|s seen IH]; simpl; [done|].
  by rewrite IH, (value_eqb_cong a b s Hab).
Qed.

(** Every row has a row with an equal key among those kept, unless its key
    was seen before. *)
Lemma dedup_covers key seen rs ir :
  ir ∈ rs →
  existsb (value_eqb (cell key ir.2)) seen = true
  ∨ ∃ ir', ir' ∈ dedup key seen rs
           ∧ value_eqb (cell key ir'.2) (cell key ir.2) = true.
Proof.
  revert seen. induction rs as [|r rs IH]; intros seen; [by intros ?%elem_of_nil|].
  rewrite dedup_cons. change ((cell key ∘ snd) r) with (cell key r.2).
  intros [->|Hin]%elem_of_cons.
  - destruct (existsb (value_eqb (cell key r.2)) seen) eqn:E; [by left|].
    right. exists r. split; [by left|apply value_eqb_refl].
  - destruct (IH (cell key r.2 :: seen) Hin) as [Hseen|(ir' & Hir' & Heq)].
    + simpl in Hseen. apply orb_true_iff in Hseen as [Hr|Hseen]; [|by left].
      destruct (existsb (value_eqb (cell key r.2)) seen) eqn:E.
      * left. by rewrite (existsb_value_eqb_cong _ _ seen Hr).
      * right. exists r. split; [by left|by rewrite value_eqb_sym].
    + right. exists ir'. split; [|done].
      destruct (existsb _ seen); [done|by right].
Qed.

(** X12.  Stage 5 loses no key: whenever it returns a frame, every row of
    the input has its key on a row of the output, the output has no more
    rows than the input, and its columns are those of the input. *)
Theorem remove_duplicates_keeps_keys df key df' :
  remove_duplicates df key = Ok df' →
  columns df' = columns df
  ∧ (nrows df' ≤ nrows df)%nat
  ∧ ∀ ir, ir ∈ rows df →
      ∃ ir', ir' ∈ rows df'
             ∧ value_eqb (cell key ir'.2) (cell key ir.2) = true.
Proof.
  intros H.
  assert (Hc : key ∈ columns df).
  { unfold remove_duplicates in H.
    by apply bind_Ok in H as (keys & [Hc _]%get_col_Ok & _). }
  rewrite remove_duplicates_Ok in H by done. injection H as <-.
  split; [done|]. split.
  - unfold nrows. simpl. apply sublist_length, mask_rows_sublist.
  - intros ir Hir. simpl.
    by destruct (dedup_covers key [] _ _ Hir) as [|].
Qed.

Lemma remove_duplicates_keeps_keys_witness :
  match remove_duplicates (from_records Samples.records) "unique_key" with
  | Ok df' =>
      (nrows df' ≤ 6)%nat
      ∧ ∀ ir, ir ∈ rows (from_records Samples.records) →
          ∃ ir', ir' ∈ rows df'
                 ∧ value_eqb (cell "unique_key" ir'.2)
                     (cell "unique_key" ir.2) = true
  | Raise _ => False
  end.
Proof.
  assert (Hok : is_Ok (remove_duplicates (from_records Samples.records)
                         "unique_key") = true) by (vm_compute; reflexivity).
  destruct (remove_duplicates (from_records Samples.records) "unique_key")
    as [df'|e] eqn:E; [|discriminate Hok].
  destruct (remove_duplicates_keeps_keys _ _ _ E) as (_ & Hn & Hkeys).
  split; [exact Hn|exact Hkeys].
Defined.

Lemma distinct_keys_strongly key rs :
  distinct_keys key rs →
  StronglySorted
    (λ r1 r2 : Z * row, value_eqb ((cell key ∘ snd) r1) ((cell key ∘ snd) r2)
                        = false) rs.
Proof.
  induction rs as [|r rs IH]; intros Hd; constructor.
  - apply IH. intros i j ri rj Hij Hi Hj.
    apply (Hd (S i) (S j) ri rj); [lia|done|done].
  - apply Forall_forall. intros r' Hr'.
    apply list_elem_of_In, list_elem_of_lookup in Hr' as [j Hj].
    apply (Hd 0%nat (S j) r r'); [lia|done|done].
Qed.

(** X13.  Stage 5 returns a table unchanged exactly when the table has the
    key column and no two of its rows have equal keys. *)
Theorem remove_duplicates_unchanged df key :
  remove_duplicates df key = Ok df ↔
  key ∈ columns df ∧ distinct_keys key (rows df).
Proof.
  split.
  - intros H.
    assert (Hc : key ∈ columns df).
    { unfold remove_duplicates in H.
      by apply bind_Ok in H as (keys & [Hc _]%get_col_Ok & _). }
    split; [done|]. rewrite remove_duplicates_Ok in H by done.
    injection H as H. rewrite <- (frame_eta df) in H at 3.
    injection H as H. rewrite <- H.
    apply distinct_keys_sorted, dedup_distinct.
  - intros [Hc Hd]. rewrite remove_duplicates_Ok by done.
    rewrite dedup_fixed; [by rewrite frame_eta| |by apply Forall_true].
    by apply distinct_keys_strongly.
Qed.

(** Deduplicating a table with three different keys. *)
Lemma remove_duplicates_unchanged_witness :
  remove_duplicates
    (from_records [Samples.one_row "1"; Samples.one_row "2"; Samples.one_row "3"])
    "unique_key"
  = Ok (from_records
          [Samples.one_row "1"; Samples.one_row "2"; Samples.one_row "3"]).
Proof.
  apply remove_duplicates_unchanged. split.
  - apply (bool_decide_unpack _). vm_compute. exact I.
  - intros i j ri rj Hij Hi Hj.
    destruct i as [|[|[|i]]], j as [|[|[|j]]]; try lia;
      simpl in Hi, Hj; try discriminate;
      injection Hi as <-; injection Hj as <-; reflexivity.
Defined.

(** ** Stage 6 *)

Lemma as_float_Ok col xs :
  mapM as_float col = Ok xs →
  Forall is_float col
  ∧ length xs = length col
  ∧ ∀ x, Some x ∈ xs ↔ VNum x ∈ col.
Proof.
  intros H%mapM_Ok.
  induction H as [|v o col xs Hv _ (IH1 & IH2 & IH3)].
  - split; [done|]. split; [done|]. intros x. by rewrite !elem_of_nil.
  - split; [|split; [simpl; congruence|]].
    + constructor; [|done]. destruct v; try discriminate; [by left|right; eauto].
    + intros x. rewrite !elem_of_cons, IH3.
      destruct v; simpl in Hv; try discriminate; injection Hv as <-;
        split; intros [[=]|?]; subst; auto.
Qed.

Lemma as_float_total col :
  Forall is_float col → ∃ xs, mapM as_float col = Ok xs.
Proof.
  induction 1 as [|v col Hv _ [xs IH]]; [by exists []|].
  simpl. rewrite IH. destruct Hv as [->|[q ->]]; simpl; eauto.
Qed.

(** The threshold lies on the segment between two values of the column. *)
Lemma quantile_convex q xs t :
  quantile q xs = Ok (Some t) →
  ∃ a b f, Some a ∈ xs ∧ Some b ∈ xs ∧ (0 <= f)%Q ∧ (f <= 1)%Q
           ∧ t = (a + f * (b - a))%Q.
Proof.
  unfold quantile. destruct (_ && _); [|discriminate].
  pose proof (sort_by_Permutation Qle_bool (omap id xs)) as Hperm.
  destruct (Sorting.sort_by Qle_bool (omap id xs)) as [|v0 vs] eqn:E;
    [discriminate|].
  assert (Hin : ∀ x, x ∈ v0 :: vs → Some x ∈ xs).
  { intros x Hx. rewrite Hperm in Hx.
    apply list_elem_of_omap in Hx as (o & Ho & <-). by destruct o. }
  set (h := (q * inject_Z (Z.of_nat (length (v0 :: vs)) - 1))%Q).
  set (a := nth (Z.to_nat (Qfloor h)) (v0 :: vs) v0).
  set (b := nth (Z.to_nat (Qfloor h + 1)) (v0 :: vs) a).
  assert (Ha : Some a ∈ xs).
  { apply Hin. destruct (nth_in_or_default (Z.to_nat (Qfloor h)) (v0 :: vs) v0)
      as [H|H]; [by apply list_elem_of_In|]. fold a in H. rewrite H. by left. }
  assert (Hb : Some b ∈ xs).
  { destruct (nth_in_or_default (Z.to_nat (Qfloor h + 1)) (v0 :: vs) a)
      as [H|H]; [by apply Hin, list_elem_of_In|]. fold b in H. by rewrite H. }
  intros [= <-]. exists a, b, (h - inject_Z (Qfloor h))%Q.
  split; [done|]. split; [done|].
  pose proof (Qfloor_le h) as Hlo. pose proof (Qlt_floor h) as Hhi.
  rewrite inject_Z_plus in Hhi. change (inject_Z 1) with 1%Q in Hhi.
  split; [lra|]. split; [lra|done].
Qed.

Lemma quantile_bounds q xs t m M :
  quantile q xs = Ok (Some t) →
  (∀ x, Some x ∈ xs → (m <= x)%Q ∧ (x <= M)%Q) →
  (m <= t)%Q ∧ (t <= M)%Q.
Proof.
  intros (a & b & f & Ha & Hb & H0 & H1 & ->)%quantile_convex Hall.
  destruct (Hall a Ha), (Hall b Hb). split; nra.
Qed.

Lemma quantile_positive q xs t :
  quantile q xs = Ok (Some t) →
  (∀ x, Some x ∈ xs → (0 < x)%Q) → (0 < t)%Q.
Proof.
  intros (a & b & f & Ha & Hb & H0 & H1 & ->)%quantile_convex Hall.
  pose proof (Hall a Ha). pose proof (Hall b Hb). nra.
Qed.

Lemma winsorize_Ok df pct df' :
  "response_time_days" ∈ columns df →
  winsorize_response_time df pct = Ok df' ↔
  ∃ xs threshold,
    mapM as_float (cells "response_time_days" df) = Ok xs
    ∧ quantile (pct / 100) xs = Ok threshold
    ∧ df' = set_col "response_time_days"
              (clip_upper threshold <$> cells "response_time_days" df) df.
Proof.
  intros Hc. unfold winsorize_response_time. rewrite decide_True by done.
  rewrite (get_col_cells _ _ Hc). simpl. split.
  - intros H. apply bind_Ok in H as (xs & Hxs & H).
    apply bind_Ok in H as (threshold & Hq & [= <-]). by exists xs, threshold.
  - intros (xs & threshold & -> & Hq & ->). simpl. by rewrite Hq.
Qed.

Lemma clip_upper_cases threshold v :
  clip_upper threshold v = v
  ∨ ∃ t x, threshold = Some t ∧ v = VNum x ∧ clip_upper threshold v = VNum t.
Proof.
  destruct threshold as [t|], v as [|s|ns|x]; simpl; auto.
  destruct (Qle_bool x t); [by left|right; eauto].
Qed.

Lemma winsorize_bounded df pct df' m M :
  "response_time_days" ∈ columns df →
  winsorize_response_time df pct = Ok df' →
  (∀ x, VNum x ∈ cells "response_time_days" df → (m <= x)%Q ∧ (x <= M)%Q) →
  ∀ y, VNum y ∈ cells "response_time_days" df' → (m <= y)%Q ∧ (y <= M)%Q.
Proof.
  intros Hc (xs & threshold & Hxs & Hq & ->)%winsorize_Ok; [|done].
  apply as_float_Ok in Hxs as (_ & _ & Hin).
  rewrite cells_set_col_eq by (by rewrite length_fmap, index_cells_length).
  intros Hall y Hy.
  apply list_elem_of_fmap in Hy as (v & Hy & Hv).
  destruct (clip_upper_cases threshold v) as [E|(t & x & -> & -> & E)];
    rewrite E in Hy.
  - subst v. by apply Hall.
  - injection Hy as ->. eapply quantile_bounds; [exact Hq|].
    intros x0 Hx0. by apply Hall, Hin.
Qed.

Lemma winsorize_positive df pct df' :
  "response_time_days" ∈ columns df →
  winsorize_response_time df pct = Ok df' →
  (∀ x, VNum x ∈ cells "response_time_days" df → (0 < x)%Q) →
  ∀ y, VNum y ∈ cells "response_time_days" df' → (0 < y)%Q.
Proof.
  intros Hc (xs & threshold & Hxs & Hq & ->)%winsorize_Ok; [|done].
  apply as_float_Ok in Hxs as (_ & _ & Hin).
  rewrite cells_set_col_eq by (by rewrite length_fmap, index_cells_length).
  intros Hall y Hy.
  apply list_elem_of_fmap in Hy as (v & Hy & Hv).
  destruct (clip_upper_cases threshold v) as [E|(t & x & -> & -> & E)];
    rewrite E in Hy.
  - subst v. by apply Hall.
  - injection Hy as ->. eapply quantile_positive; [exact Hq|].
    intros x0 Hx0. by apply Hall, Hin.
Qed.

(** X14.  Winsorization keeps the response times within the range they
    had: whenever stage 6 returns a frame, bounds [m] and [M] that hold for
    every response time of the input hold for every response time of the
    output; and if all of the input are positive, so are all of the
    output. *)
Theorem winsorize_keeps_range df pct df' :
  "response_time_days" ∈ columns df →
  winsorize_response_time df pct = Ok df' →
  (∀ m M,
     (∀ x, VNum x ∈ cells "response_time_days" df → (m <= x)%Q ∧ (x <= M)%Q) →
     ∀ y, VNum y ∈ cells "response_time_days" df' → (m <= y)%Q ∧ (y <= M)%Q)
  ∧ ((∀ x, VNum x ∈ cells "response_time_days" df → (0 < x)%Q) →
     ∀ y, VNum y ∈ cells "response_time_days" df' → (0 < y)%Q).
Proof.
  intros Hc H. split.
  - intros m M. by apply (winsorize_bounded df pct).
  - by apply (winsorize_positive df pct).
Qed.

(** Response times of 1, 2 and 10 days stay between 1 and 10. *)
Lemma winsorize_keeps_range_witness :
  match winsorize_response_time Samples.timed 50 with
  | Ok df' =>
      ∀ y, VNum y ∈ cells "response_time_days" df' → (1 <= y)%Q ∧ (y <= 10)%Q
  | Raise _ => False
  end.
Proof.
  assert (Hok : is_Ok (winsorize_response_time Samples.timed 50) = true)
    by (vm_compute; reflexivity).
  destruct (winsorize_response_time Samples.timed 50) as [df'|e] eqn:E;
    [|discriminate Hok].
  assert (Hc : "response_time_days" ∈ columns Samples.timed)
    by (apply (bool_decide_unpack _); vm_compute; exact I).
  apply (proj1 (winsorize_keeps_range Samples.timed 50 df' Hc E)).
  intros x Hx. vm_compute in Hx.
  repeat (apply elem_of_cons in Hx as [Hx|Hx];
          [try discriminate Hx; injection Hx as ->; split; by compute|]).
  by apply elem_of_nil in Hx.
Defined.

Lemma percentile_range_iff pct :
  Qle_bool 0 (pct / 100) && Qle_bool (pct / 100) 1 = true
  ↔ (0 <= pct)%Q ∧ (pct <= 100)%Q.
Proof.
  rewrite andb_true_iff, !Qle_bool_iff. destruct pct as [a b].
  unfold Qle, Qdiv, Qmult, Qinv. simpl. rewrite ?Pos2Z.inj_mul. lia.
Qed.

(** X15.  Stage 6 checks the percentile only when it has something to do:
    a table without the response time column comes back as it is for any
    percentile; on a table whose response times are numbers or missing, a
    percentile between 0 and 100 gives a frame, and any other a value
    error. *)
Theorem winsorize_percentile_check df pct :
  ("response_time_days" ∉ columns df →
   winsorize_response_time df pct = Ok df)
  ∧ ("response_time_days" ∈ columns df →
     Forall is_float (cells "response_time_days" df) →
     ((0 <= pct)%Q ∧ (pct <= 100)%Q →
      ∃ df', winsorize_response_time df pct = Ok df')
     ∧ (¬ ((0 <= pct)%Q ∧ (pct <= 100)%Q) →
        ∃ msg, winsorize_response_time df pct = Raise (ValueError msg))).
Proof.
  split.
  - intros Hc. unfold winsorize_response_time. by rewrite decide_False.
  - intros Hc [xs Hxs]%as_float_total. unfold winsorize_response_time.
    rewrite decide_True by done. rewrite (get_col_cells _ _ Hc). simpl.
    rewrite Hxs. simpl. unfold quantile. split.
    + intros Hr%percentile_range_iff. rewrite Hr.
      destruct (Sorting.sort_by _ _); simpl; eauto.
    + intros Hr. destruct (_ && _) eqn:E; [|simpl; eauto].
      by apply percentile_range_iff in E.
Qed.

Lemma winsorize_percentile_check_witness :
  (∃ df', winsorize_response_time Samples.timed 100 = Ok df')
  ∧ (∃ msg, winsorize_response_time Samples.timed 101 = Raise (ValueError msg))
  ∧ winsorize_response_time (from_records [Samples.one_row "1"]) 101
    = Ok (from_records [Samples.one_row "1"]).
Proof.
  assert (Hc : "response_time_days" ∈ columns Samples.timed)
    by (apply (bool_decide_unpack _); vm_compute; exact I).
  assert (Hf : Forall is_float (cells "response_time_days" Samples.timed))
    by (apply Forall_is_float; vm_compute; reflexivity).
  destruct (proj2 (winsorize_percentile_check Samples.timed 100) Hc Hf)
    as [H100 _].
  destruct (proj2 (winsorize_percentile_check Samples.timed 101) Hc Hf)
    as [_ H101].
  split; [apply H100; split; by compute|].
  split; [apply H101; intros [_ H]; by compute in H|].
  apply (proj1 (winsorize_percentile_check _ 101)).
  apply (bool_decide_unpack _). vm_compute. exact I.
Defined.

Lemma sort_by_Qle_sorted l :
  StronglySorted (λ x y, Qle_bool x y = true) (Sorting.sort_by Qle_bool l).
Proof.
  apply sort_by_sorted.
  - intros x y H. apply Qle_bool_iff, Qlt_le_weak, Qnot_le_lt.
    intros Hle. apply Qle_bool_iff in Hle. congruence.
  - intros x y z H1%Qle_bool_iff H2%Qle_bool_iff.
    apply Qle_bool_iff. by eapply Qle_trans.
Qed.

(** The last element of a sorted list is its greatest. *)
Lemma sorted_last_greatest vs v0 x :
  StronglySorted (λ x y, Qle_bool x y = true) vs →
  x ∈ vs → (x <= nth (length vs - 1) vs v0)%Q.
Proof.
  induction 1 as [|a vs Hs IH Ha]; [by intros ?%elem_of_nil|].
  destruct vs as [|b vs'].
  - intros ->%list_elem_of_singleton. simpl. apply Qle_refl.
  - change (nth (length (a :: b :: vs') - 1) (a :: b :: vs') v0)
      with (nth (length vs') (b :: vs') v0).
    replace (length vs') with (length (b :: vs') - 1)%nat by (simpl; lia).
    intros [->|Hx]%elem_of_cons; [|by apply IH].
    rewrite Forall_forall in Ha.
    apply Qle_bool_iff, Ha, nth_In. simpl. lia.
Qed.

(** At the top of the scale the threshold is the greatest value. *)
Lemma quantile_top q xs t x :
  (q == 1)%Q → quantile q xs = Ok (Some t) → Some x ∈ xs → (x <= t)%Q.
Proof.
  intros Hq. unfold quantile. destruct (_ && _); [|discriminate].
  pose proof (sort_by_Permutation Qle_bool (omap id xs)) as Hperm.
  pose proof (sort_by_Qle_sorted (omap id xs)) as Hsorted.
  destruct (Sorting.sort_by Qle_bool (omap id xs)) as [|v0 vs] eqn:E;
    [discriminate|].
  set (h := (q * inject_Z (Z.of_nat (length (v0 :: vs)) - 1))%Q).
  assert (Hh : (h == inject_Z (Z.of_nat (length (v0 :: vs)) - 1))%Q)
    by (unfold h; rewrite Hq; apply Qmult_1_l).
  assert (Hfloor : Qfloor h = Z.of_nat (length (v0 :: vs)) - 1)
    by (rewrite (Qfloor_comp _ _ Hh); apply Qfloor_Z).
  rewrite Hfloor.
  replace (Z.to_nat (Z.of_nat (length (v0 :: vs)) - 1))
    with (length (v0 :: vs) - 1)%nat by lia.
  intros [= <-] Hx.
  assert (Hin : x ∈ v0 :: vs).
  { rewrite Hperm. apply list_elem_of_omap. by exists (Some x). }
  pose proof (sorted_last_greatest _ v0 x Hsorted Hin) as Hle.
  assert (Hd : (h - inject_Z (Z.of_nat (length (v0 :: vs)) - 1) == 0)%Q)
    by (rewrite Hh; ring).
  by rewrite Hd, Qmult_0_l, Qplus_0_r.
Qed.

(** X16.  Winsorizing at the 100th percentile changes no value: whenever
    stage 6 returns a frame for a percentile equal to 100, the cells of
    every column, the index and the columns are those of the input. *)
Theorem winsorize_at_100 df pct df' :
  (pct == 100)%Q →
  winsorize_response_time df pct = Ok df' →
  columns df' = columns df
  ∧ index df' = index df
  ∧ ∀ c, cells c df' = cells c df.
Proof.
  intros Hpct H. destruct (winsorize_frame _ _ _ H) as (Hcols & Hidx & Hother).
  split; [done|]. split; [done|]. intros c.
  destruct (decide (c = "response_time_days")) as [->|Hne]; [|by apply Hother].
  destruct (decide ("response_time_days" ∈ columns df)) as [Hc|Hc].
  - apply winsorize_Ok in H as (xs & threshold & Hxs & Hq & ->); [|done].
    rewrite cells_set_col_eq by (by rewrite length_fmap, index_cells_length).
    apply as_float_Ok in Hxs as (_ & _ & Hin).
    rewrite <- (list_fmap_id (cells _ df)) at 2.
    apply list_fmap_ext. intros i v Hv. simpl.
    destruct threshold as [t|], v as [|s|ns|x]; simpl; try done.
    assert (x <= t)%Q as Hle%Qle_bool_iff; [|by rewrite Hle].
    apply (quantile_top (pct / 100) xs); [by rewrite Hpct|done|].
    apply Hin. by eapply list_elem_of_lookup_2.
  - unfold winsorize_response_time in H. rewrite decide_False in H by done.
    by injection H as <-.
Qed.

Lemma winsorize_at_100_witness :
  match winsorize_response_time Samples.timed 100 with
  | Ok df' =>
      cells "response_time_days" df' = cells "response_time_days" Samples.timed
  | Raise _ => False
  end.
Proof.
  assert (Hok : is_Ok (winsorize_response_time Samples.timed 100) = true)
    by (vm_compute; reflexivity).
  destruct (winsorize_response_time Samples.timed 100) as [df'|e] eqn:E;
    [|discriminate Hok].
  apply (winsorize_at_100 Samples.timed 100 df' (Qeq_refl 100) E).
Defined.

(** ** Stage 7 *)

Lemma head_sublist {A} n (l : list A) : head n l `sublist_of` l.
Proof.
  unfold head. destruct n as [n|]; [|done].
  destruct (0 <=? n); apply sublist_take.
Qed.

Lemma top_types_keys vc n_top min_count k :
  k ∈ top_types vc n_top min_count → k ∈ vc.*1.
Proof.
  unfold top_types. destruct min_count as [m|]; intros Hk;
    (eapply elem_of_sublist; [exact Hk|]); apply fmap_sublist.
  - apply sublist_filter.
  - apply head_sublist.
Qed.

Lemma value_counts_keys_notna col k :
  k ∈ (value_counts col).*1 → notna k = true ∧ k ∈ col.
Proof.
  rewrite value_counts_keys. intros Hk%unique_subseteq.
  by apply elem_of_vals in Hk.
Qed.

Lemma isin_cong K a b : value_eqb a b = true → isin K a = isin K b.
Proof. apply existsb_value_eqb_cong. Qed.

Lemma isin_keys_notna col n_top min_count v :
  isin (top_types (value_counts col) n_top min_count) v = true →
  notna v = true.
Proof.
  intros (k & Hk%top_types_keys%value_counts_keys_notna & E)%isin_true.
  destruct Hk as [Hk _]. by rewrite (value_eqb_notna _ _ E).
Qed.

Lemma select_top_column df n_top min_count df' :
  select_top_complaint_types df n_top min_count = Ok df' →
  "complaint_type" ∈ columns df.
Proof.
  unfold select_top_complaint_types. intros H.
  by apply bind_Ok in H as (col & [Hc _]%get_col_Ok & _).
Qed.

(** X17.  Stage 7 selects by type.  Whenever it returns a frame, whatever
    the two options are: the rows it keeps are rows of the input with a
    complaint type that is present, and rows of the same type share their
    fate, if one is kept then so is every other. *)
Theorem select_top_by_type df n_top min_count df' :
  select_top_complaint_types df n_top min_count = Ok df' →
  columns df' = columns df
  ∧ (∀ ir, ir ∈ rows df' →
       ir ∈ rows df ∧ cell "complaint_type" ir.2 ≠ VNull)
  ∧ (∀ ir1 ir2, ir1 ∈ rows df → ir2 ∈ rows df →
       value_eqb (cell "complaint_type" ir1.2) (cell "complaint_type" ir2.2)
       = true →
       ir1 ∈ rows df' → ir2 ∈ rows df').
Proof.
  intros H. pose proof (select_top_column _ _ _ _ H) as Hc.
  rewrite (select_top_Ok df n_top min_count Hc) in H. injection H as <-.
  simpl. split; [done|]. split.
  - intros ir [Hin Hir]%list_elem_of_filter. split; [done|].
    apply notna_true. eapply isin_keys_notna. by apply Is_true_true.
  - intros ir1 ir2 _ H2 E [Hin _]%list_elem_of_filter.
    apply list_elem_of_filter. split; [|done].
    cbn [compose] in *. by rewrite <- (isin_cong _ _ _ E).
Qed.

Lemma select_top_by_type_witness :
  match select_top_complaint_types (from_records Samples.records) (Some 1) None
  with
  | Ok df' => ∀ ir, ir ∈ rows df' → cell "complaint_type" ir.2 ≠ VNull
  | Raise _ => False
  end.
Proof.
  assert (Hok : is_Ok (select_top_complaint_types
                         (from_records Samples.records) (Some 1) None) = true)
    by (vm_compute; reflexivity).
  destruct (select_top_complaint_types _ _ _) as [df'|e] eqn:E;
    [|discriminate Hok].
  destruct (select_top_by_type _ _ _ _ E) as (_ & H & _).
  intros ir Hir. by apply H.
Defined.

Lemma count_of_ge_1 v l : v ∈ l → 1 ≤ count_of v l.
Proof.
  intros Hv. unfold count_of.
  assert (v ∈ filter (λ y, value_eqb v y) l) as Hin.
  { apply list_elem_of_filter. split; [|done]. by rewrite value_eqb_refl. }
  destruct (filter _ l); [by apply elem_of_nil in Hin|simpl; lia].
Qed.

Lemma filter_isin_nil {A} (f : A → value) (l : list A) :
  filter (λ x, isin [] (f x)) l = [].
Proof.
  induction l as [|x l IH]; [done|].
  rewrite filter_cons_False; [exact IH|]. intros Hin. exact Hin.
Qed.

(** X18.  The ends of the scale of stage 7, on a table with the complaint
    type column.  Asking for the top 0 types leaves no row.  Asking for at
    least as many types as the table has, or passing no number at all,
    keeps every row that has a type, and so does a minimum count of 1 or
    less.  Rows without a type are dropped in each case. *)
Theorem select_top_extremes df :
  "complaint_type" ∈ columns df →
  let types :=
    unique (filter (λ v, notna v) (cells "complaint_type" df)) in
  select_top_complaint_types df (Some 0) None
  = Ok {| columns := columns df; rows := [] |}
  ∧ (∀ N, Z.of_nat (length types) ≤ N →
       select_top_complaint_types df (Some N) None
       = Ok {| columns := columns df; rows := typed_rows df |})
  ∧ select_top_complaint_types df None None
    = Ok {| columns := columns df; rows := typed_rows df |}
  ∧ (∀ n_top m, m ≤ 1 →
       select_top_complaint_types df n_top (Some m)
       = Ok {| columns := columns df; rows := typed_rows df |}).
Proof.
  intros Hc types.
  assert (Hall : ∀ v, v ∈ cells "complaint_type" df →
            isin (value_counts (cells "complaint_type" df)).*1 v = true
            ↔ notna v = true).
  { intros v Hv. split.
    - intros (k & [Hk _]%value_counts_keys_notna & E)%isin_true.
      by rewrite (value_eqb_notna _ _ E).
    - intros Hna. apply isin_true.
      destruct (value_counts_covers (cells "complaint_type" df) v)
        as (k & Hk & E); [by apply elem_of_vals|].
      exists k. split; [|by rewrite value_eqb_sym].
      apply list_elem_of_fmap. by eexists (k, _). }
  assert (Hkeep : ∀ K,
            (∀ v, v ∈ cells "complaint_type" df →
                  isin K v = true ↔ notna v = true) →
            filter (λ ir, isin K ((cell "complaint_type" ∘ snd) ir)) (rows df)
            = typed_rows df).
  { intros K HK. apply filter_ext_elem_of. intros ir Hir.
    rewrite !Is_true_true. apply HK.
    exact (list_elem_of_fmap_2 (cell "complaint_type" ∘ snd) _ _ Hir). }
  split; [|split; [|split]].
  - rewrite (select_top_Ok df (Some 0) None Hc). do 2 f_equal.
    cbn [top_types]. rewrite head_nonneg by lia.
    change (Z.to_nat 0) with 0%nat. rewrite take_0. apply filter_isin_nil.
  - intros N HN. rewrite (select_top_Ok df (Some N) None Hc). do 2 f_equal.
    apply Hkeep. cbn [top_types].
    rewrite head_nonneg by lia. rewrite take_ge; [done|].
    rewrite (Permutation_length (value_counts_Permutation _)), length_fmap.
    fold (cells "complaint_type" df). fold types. lia.
  - rewrite (select_top_Ok df None None Hc). do 2 f_equal. by apply Hkeep.
  - intros n_top m Hm. rewrite (select_top_Ok df n_top (Some m) Hc).
    do 2 f_equal. apply Hkeep. intros v Hv.
    rewrite (isin_min_count _ n_top m v Hv). split; [by intros [? _]|].
    intros Hna. split; [done|].
    pose proof (count_of_ge_1 v (filter (λ v, notna v)
                                   (cells "complaint_type" df))) as Hge.
    etrans; [exact Hm|]. apply Hge. by apply elem_of_vals.
Qed.

(** The sample table has three types. *)
Lemma select_top_extremes_witness :
  select_top_complaint_types (from_records Samples.records) (Some 0) None
  = Ok {| columns := columns (from_records Samples.records); rows := [] |}
  ∧ select_top_complaint_types (from_records Samples.records) (Some 3) None
    = Ok {| columns := columns (from_records Samples.records);
            rows := typed_rows (from_records Samples.records) |}.
Proof.
  destruct (select_top_extremes (from_records Samples.records))
    as (H0 & HN & _).
  - apply (bool_decide_unpack _). vm_compute. exact I.
  - split; [exact H0|]. apply HN. vm_compute. discriminate.
Defined.

(** ** The driver *)

Lemma StronglySorted_sublist {A} (R : relation A) (l1 l2 : list A) :
  l1 `sublist_of` l2 → StronglySorted R l2 → StronglySorted R l1.
Proof.
  induction 1 as [|x l1 l2 Hsub IH|x l1 l2 Hsub IH]; intros Hs; [done| |].
  - apply StronglySorted_cons in Hs as [Hx Hs].
    apply StronglySorted_cons. split; [|by apply IH].
    rewrite Forall_forall in Hx |- *. intros y Hy.
    apply Hx, list_elem_of_In. apply list_elem_of_In in Hy.
    by eapply elem_of_sublist.
  - apply StronglySorted_cons in Hs as [_ Hs]. by apply IH.
Qed.

Lemma StronglySorted_lookup {A} (R : relation A) (l : list A) i j a b :
  StronglySorted R l → (i < j)%nat → l !! i = Some a → l !! j = Some b →
  R a b.
Proof.
  intros Hs. revert i j. induction Hs as [|x l Hs IH Hx]; intros i j Hij Hi Hj.
  - by rewrite lookup_nil in Hi.
  - destruct j as [|j]; [lia|]. destruct i as [|i]; simpl in Hi, Hj.
    + injection Hi as <-. rewrite Forall_forall in Hx.
      apply Hx, list_elem_of_In. by eapply list_elem_of_lookup_2.
    + eapply (IH i j); [lia|done|done].
Qed.

Lemma Forall_sublist {A} (P : A → Prop) (l1 l2 : list A) :
  l1 `sublist_of` l2 → Forall P l2 → Forall P l1.
Proof.
  intros Hsub H. rewrite Forall_forall in H |- *. intros x Hx.
  apply H, list_elem_of_In. apply list_elem_of_In in Hx.
  by eapply elem_of_sublist.
Qed.

Lemma cells_select c mask df :
  cells c (select mask df) `sublist_of` cells c df.
Proof. apply fmap_sublist, mask_rows_sublist. Qed.

Lemma cells_filter c (p : Z * row → bool) df :
  cells c {| columns := columns df; rows := filter (λ ir, p ir) (rows df) |}
  `sublist_of` cells c df.
Proof. apply fmap_sublist, sublist_filter. Qed.

(** What the stages before stage 3 need and do to the columns. *)
Lemma convert_dates_columns to_datetime df df' :
  convert_dates_to_datetime to_datetime df = Ok df' →
  "created_date" ∈ columns df ∧ "closed_date" ∈ columns df
  ∧ columns df' = columns df.
Proof.
  intros H. unfold convert_dates_to_datetime in H.
  apply bind_Ok in H as (df1 & H1 & H2).
  apply update_col_frame in H1 as (Hin1 & Hc1 & _).
  apply update_col_frame in H2 as (Hin2 & Hc2 & _).
  split; [done|]. split; [by rewrite <- Hc1|congruence].
Qed.

Lemma remove_duplicates_rows df key df' :
  remove_duplicates df key = Ok df' →
  key ∈ columns df
  ∧ df' = {| columns := columns df; rows := dedup key [] (rows df) |}.
Proof.
  intros H.
  assert (Hc : key ∈ columns df).
  { unfold remove_duplicates in H.
    by apply bind_Ok in H as (keys & [Hc _]%get_col_Ok & _). }
  rewrite remove_duplicates_Ok in H by done. by injection H as <-.
Qed.

(** The six stages, one after the other. *)
Lemma stages_1_to_6_steps `{M : Str.Methods} to_datetime df pct df6 :
  stages_1_to_6 to_datetime df pct = Ok df6 →
  ∃ df1 df2 df3 df4 df5,
    convert_dates_to_datetime to_datetime df = Ok df1
    ∧ compute_response_time df1 = Ok df2
    ∧ filter_invalid_rows df2 true true true = Ok df3
    ∧ standardize_channel_type df3 = Ok df4
    ∧ remove_duplicates df4 "unique_key" = Ok df5
    ∧ winsorize_response_time df5 pct = Ok df6.
Proof.
  intros H. unfold stages_1_to_6 in H.
  apply bind_Ok in H as (df1 & H1 & H). apply bind_Ok in H as (df2 & H2 & H).
  apply bind_Ok in H as (df3 & H3 & H). apply bind_Ok in H as (df4 & H4 & H).
  apply bind_Ok in H as (df5 & H5 & H6). by exists df1, df2, df3, df4, df5.
Qed.

Lemma clean_steps `{M : Str.Methods} to_datetime df pct top minc df' :
  clean_nyc311_data to_datetime df pct top minc = Ok df' →
  ∃ df6,
    stages_1_to_6 to_datetime df pct = Ok df6
    ∧ ((top = None ∧ minc = None ∧ df' = df6)
       ∨ ((top ≠ None ∨ minc ≠ None)
          ∧ select_top_complaint_types df6 top minc = Ok df')).
Proof.
  intros H. unfold clean_nyc311_data in H.
  apply bind_Ok in H as (df6 & H6 & H). exists df6. split; [done|].
  destruct top, minc; simpl in H;
    try (right; split; [(by left) || (by right)|done]).
  left. by injection H as <-.
Qed.

(** X19.  What the driver needs and returns.  Whenever it returns a frame,
    the input had the columns [created_date], [closed_date], [borough],
    [open_data_channel_type] and [unique_key], and also [complaint_type] if
    one of the two stage 7 options was given; the output has the columns of
    the input and [response_time_days], and no more rows than the input. *)
Theorem clean_required_columns `{M : Str.Methods} to_datetime df pct top minc df' :
  clean_nyc311_data to_datetime df pct top minc = Ok df' →
  Forall (λ c, c ∈ columns df)
    ["created_date"; "closed_date"; "borough"; "open_data_channel_type";
     "unique_key"]
  ∧ (top ≠ None ∨ minc ≠ None → "complaint_type" ∈ columns df)
  ∧ columns df' = {["response_time_days"]} ∪ columns df
  ∧ (nrows df' ≤ nrows df)%nat.
Proof.
  intros H. pose proof (clean_nyc311_data_index _ _ _ _ _ _ H) as Horder.
  apply clean_steps in H as (df6 & H6 & H7).
  apply stages_1_to_6_steps in H6
    as (df1 & df2 & df3 & df4 & df5 & H1 & H2 & H3 & H4 & H5 & H6).
  apply convert_dates_columns in H1 as (Hcr & Hcl & Hc1).
  apply compute_response_time_frame in H2 as (Hc2 & _).
  apply filter_invalid_rows_Ok in H3 as (_ & _ & Hbo & _ & ->).
  specialize (Hbo eq_refl).
  apply standardize_channel_type_cells in H4 as Hch.
  assert (Hc4 : "open_data_channel_type" ∈ columns df
                ∧ columns df4 = columns df2).
  { apply standardize_channel_type_Ok in H4
      as (_ & _ & d & Ha & Hb).
    apply update_col_frame in Ha as (Hin & Hca & _).
    apply update_col_frame in Hb as (_ & Hcb & _). simpl in *.
    split; [|congruence]. rewrite Hc2, Hc1 in Hin.
    apply elem_of_union in Hin as [Hin%elem_of_singleton|Hin]; [done|done]. }
  destruct Hc4 as [Hchan Hc4].
  apply remove_duplicates_rows in H5 as [Hkey ->].
  apply winsorize_frame in H6 as (Hc6 & _). simpl in Hc6.
  assert (Hfrom : ∀ c, c ≠ "response_time_days" → c ∈ columns df2 →
            c ∈ columns df).
  { intros c Hne Hin. rewrite Hc2, Hc1 in Hin.
    by apply elem_of_union in Hin as [Hin%elem_of_singleton|Hin]. }
  assert (Hcols6 : columns df6 = {["response_time_days"]} ∪ columns df)
    by (rewrite Hc6, Hc4, Hc2; by rewrite Hc1).
  split; [|split; [|split]].
  - repeat constructor; try done.
    + by apply Hfrom.
    + apply Hfrom; [done|]. by rewrite <- Hc4.
  - intros Hopt. destruct H7 as [(-> & -> & _)|[_ H7]]; [by destruct Hopt|].
    apply select_top_column in H7. rewrite Hcols6 in H7.
    by apply elem_of_union in H7 as [H7%elem_of_singleton|H7].
  - destruct H7 as [(_ & _ & ->)|[_ H7]]; [done|].
    pose proof (select_top_column _ _ _ _ H7) as Hc.
    rewrite (select_top_Ok _ _ _ Hc) in H7. injection H7 as <-. done.
  - unfold nrows. rewrite <- !(length_fmap fst). by apply sublist_length.
Qed.

Lemma clean_required_columns_witness :
  match clean_nyc311_data (M:=Str.ascii_methods) Iso.iso_to_datetime (from_records Samples.records)
          99 (Some 2) None with
  | Ok df' => "complaint_type" ∈ columns (from_records Samples.records)
              ∧ (nrows df' ≤ 6)%nat
  | Raise _ => False
  end.
Proof.
  assert (Hok : is_Ok (clean_nyc311_data (M:=Str.ascii_methods) Iso.iso_to_datetime
                         (from_records Samples.records) 99 (Some 2) None)
                = true) by (vm_compute; reflexivity).
  destruct (clean_nyc311_data _ _ _ _ _) as [df'|e] eqn:E; [|discriminate Hok].
  destruct (clean_required_columns (M:=Str.ascii_methods) _ _ _ _ _ _ E) as (_ & Hct & _ & Hn).
  split; [apply Hct; by left|exact Hn].
Defined.

Lemma Forall_cells c (P : value → Prop) df :
  Forall P (cells c df) ↔ Forall (λ ir : Z * row, P (cell c ir.2)) (rows df).
Proof. unfold cells. by rewrite Forall_fmap. Qed.

Lemma dedup_sublist key seen rs : dedup key seen rs `sublist_of` rs.
Proof. unfold dedup. apply mask_rows_sublist. Qed.

Lemma standardize_channel_type_frame `{M : Str.Methods} df df' :
  standardize_channel_type df = Ok df' →
  ∀ c, c ≠ "open_data_channel_type" → cells c df' = cells c df.
Proof.
  intros H c Hne. apply standardize_channel_type_Ok in H
      as (_ & _ & df1 & H1 & H2).
  apply update_col_frame in H1 as (_ & _ & _ & _ & Hf1).
  apply update_col_frame in H2 as (_ & _ & _ & _ & Hf2).
  by rewrite Hf2, Hf1.
Qed.

Lemma winsorize_positive_days df pct df' :
  "response_time_days" ∈ columns df →
  winsorize_response_time df pct = Ok df' →
  Forall positive_days (cells "response_time_days" df) →
  Forall positive_days (cells "response_time_days" df').
Proof.
  intros Hc (xs & threshold & Hxs & Hq & ->)%winsorize_Ok Hall; [|done].
  apply as_float_Ok in Hxs as (_ & _ & Hin).
  rewrite cells_set_col_eq by (by rewrite length_fmap, index_cells_length).
  rewrite Forall_fmap. rewrite Forall_forall in Hall |- *.
  intros v Hv. simpl. pose proof (Hall v Hv) as Hpos.
  destruct (clip_upper_cases threshold v) as [E|(t & x & -> & -> & E)];
    rewrite E; [done|].
  exists t. split; [done|]. eapply quantile_positive; [exact Hq|].
  intros x0 Hx0%Hin. apply list_elem_of_In, Hall in Hx0 as (q & [= <-] & Hq0).
  done.
Qed.

(** What stages 1 to 3 establish. *)
Lemma filtered_rows df2 df3 :
  "response_time_days" ∈ columns df2 →
  filter_invalid_rows df2 true true true = Ok df3 →
  Forall present (cells "created_date" df3)
  ∧ Forall present (cells "closed_date" df3)
  ∧ Forall present (cells "borough" df3)
  ∧ Forall positive_days (cells "response_time_days" df3).
Proof.
  intros Hrt (_ & _ & _ & _ & ->)%filter_invalid_rows_Ok.
  rewrite bool_decide_eq_true_2 by done.
  assert (Hall : Forall (λ ir, valid_row true true true true ir = true)
                   (filter (λ ir, valid_row true true true true ir) (rows df2))).
  { apply Forall_forall. intros ir Hir%list_elem_of_In.
    apply list_elem_of_filter in Hir as [Hir _]. by apply Is_true_true. }
  rewrite !Forall_cells. simpl.
  repeat split; (eapply Forall_impl; [|exact Hall]); intros ir Hv;
    apply valid_row_true in Hv as (H1 & H2 & H3 & H4);
    unfold present, positive_days; auto.
Qed.

(** X20.  What the driver guarantees.  Whenever it returns a frame, with
    whatever percentile and stage 7 options: in every row of the output
    the two dates and the borough are present, the response time is a
    positive number, and the channel is one of [Phone], [Web], [App]; and
    no two rows of the output have equal keys. *)
Theorem clean_postconditions `{M : Str.Methods} to_datetime df pct top minc df' :
  clean_nyc311_data to_datetime df pct top minc = Ok df' →
  Forall clean_row (rows df') ∧ distinct_keys "unique_key" (rows df').
Proof.
  intros H. apply clean_steps in H as (df6 & H6 & H7).
  apply stages_1_to_6_steps in H6
    as (df1 & df2 & df3 & df4 & df5 & _ & H2 & H3 & H4 & H5 & H6).
  set (differ := λ a b : value, value_eqb a b = false).
  (* after stage 6 *)
  assert (Hpost : Forall present (cells "created_date" df6)
    ∧ Forall present (cells "closed_date" df6)
    ∧ Forall present (cells "borough" df6)
    ∧ Forall positive_days (cells "response_time_days" df6)
    ∧ Forall channel_category (cells "open_data_channel_type" df6)
    ∧ StronglySorted differ (cells "unique_key" df6)).
  { apply compute_response_time_frame in H2 as (Hc2 & _).
    assert (Hrt2 : "response_time_days" ∈ columns df2)
      by (rewrite Hc2; apply elem_of_union_l; by apply elem_of_singleton).
    pose proof (filtered_rows _ _ Hrt2 H3) as (P1 & P2 & P3 & P4).
    assert (Hrt3 : "response_time_days" ∈ columns df3)
      by (by apply filter_invalid_rows_Ok in H3 as (_ & _ & _ & _ & ->)).
    pose proof (standardize_channel_type_frame _ _ H4) as Hf4.
    pose proof (standardize_channel_type_cells _ _ H4) as [_ Hch4].
    assert (Hrt4 : "response_time_days" ∈ columns df4).
    { apply standardize_channel_type_Ok in H4
      as (_ & _ & d & Ha & Hb).
      apply update_col_frame in Ha as (_ & Hca & _).
      apply update_col_frame in Hb as (_ & Hcb & _). congruence. }
    apply remove_duplicates_rows in H5 as [_ ->].
    set (df5 := {| columns := columns df4;
                   rows := dedup "unique_key" [] (rows df4) |}) in *.
    assert (Hsub : ∀ c, cells c df5 `sublist_of` cells c df4)
      by (intros c; apply fmap_sublist, dedup_sublist).
    pose proof (winsorize_frame _ _ _ H6) as (_ & _ & Hf6).
    pose proof (winsorize_positive_days df5 _ _ Hrt4 H6) as Hpos6.
    rewrite (Hf6 "created_date"), (Hf6 "closed_date"), (Hf6 "borough"),
      (Hf6 "open_data_channel_type"), (Hf6 "unique_key") by done.
    split; [|split; [|split; [|split; [|split]]]].
    - eapply Forall_sublist; [apply Hsub|]. by rewrite Hf4.
    - eapply Forall_sublist; [apply Hsub|]. by rewrite Hf4.
    - eapply Forall_sublist; [apply Hsub|]. by rewrite Hf4.
    - apply Hpos6. eapply Forall_sublist; [apply Hsub|]. by rewrite Hf4.
    - eapply Forall_sublist; [apply Hsub|]. rewrite Hch4, Forall_fmap.
      apply Forall_forall. intros v _. exists (channel_spec v).
      split; [done|apply channel_spec_range].
    - unfold cells, df5. simpl.
      eapply (StronglySorted_fmap _ _ differ);
        [|exact (dedup_distinct "unique_key" [] (rows df4))].
      intros r1 r2 Hd. exact Hd. }
  (* stage 7 keeps some of these rows *)
  assert (Hsub7 : ∀ c, cells c df' `sublist_of` cells c df6).
  { intros c. destruct H7 as [(_ & _ & ->)|[_ H7]]; [done|].
    pose proof (select_top_column _ _ _ _ H7) as Hc.
    rewrite (select_top_Ok _ _ _ Hc) in H7. injection H7 as <-.
    apply fmap_sublist, sublist_filter. }
  destruct Hpost as (P1 & P2 & P3 & P4 & P5 & P6).
  apply (Forall_sublist _ _ _ (Hsub7 _)) in P1, P2, P3, P4, P5.
  apply (StronglySorted_sublist _ _ _ (Hsub7 _)) in P6.
  rewrite Forall_cells in P1, P2, P3, P4, P5. split.
  - rewrite Forall_forall in P1, P2, P3, P4, P5 |- *. intros ir Hir.
    repeat split; auto.
  - intros i j ri rj Hij Hi Hj.
    apply (StronglySorted_lookup differ _ i j _ _ P6 Hij); unfold cells;
      rewrite list_lookup_fmap; [by rewrite Hi|by rewrite Hj].
Qed.

(** The cleaned sample table: every row is clean. *)
Lemma clean_postconditions_witness :
  match clean_nyc311_data (M:=Str.ascii_methods) Iso.iso_to_datetime (from_records Samples.records)
          99 None None with
  | Ok df' => Forall clean_row (rows df')
              ∧ distinct_keys "unique_key" (rows df')
  | Raise _ => False
  end.
Proof.
  assert (Hok : is_Ok (clean_nyc311_data (M:=Str.ascii_methods) Iso.iso_to_datetime
                         (from_records Samples.records) 99 None None)
                = true) by (vm_compute; reflexivity).
  destruct (clean_nyc311_data _ _ _ _ _) as [df'|e] eqn:E; [|discriminate Hok].
  exact (clean_postconditions (M:=Str.ascii_methods) _ _ _ _ _ _ E).
Defined.

End CleaningExtra.
